(** * Session engine of the Matrix crypto library: a shallow embedding

    The development follows the Go sources:
    - [crypto/goolm/message/sessionExport.go]  (module [Message])
    - [crypto/goolm/pk] signing keys and [crypto/cross_sign_key.go]
      (module [CrossSign])
    - [crypto/sql_store.go], the SQL-backed crypto store (module [Store])
    - [hicli/sync.go], the decryption retry queue (module [HiSync])

    Go values are modelled as follows.  Integers are [Z] with the wrap-around
    of their width written out; a byte is a [Z] in [0, 256); a [[]byte] is a
    [list Z]; a Go string is a [string]; [time.Time] is a [Z] (microseconds
    since the epoch); a nullable SQL column is an [option]; a SQL table is a
    finite map from its primary key to the remaining columns; a Go
    [(value, error)] pair is a [Result]. *)

From Stdlib Require Import ZArith List Lia Bool Ascii String.
From stdpp Require Import base tactics option list gmap strings sorting.

Local Open Scope Z_scope.

(** ** Go results *)

Inductive Result (E A : Type) : Type :=
| Ok (a : A)
| Err (e : E).
Arguments Ok {E A} a.
Arguments Err {E A} e.

Definition bindR {E A B} (r : Result E A) (k : A -> Result E B) : Result E B :=
  match r with
  | Ok a => k a
  | Err e => Err e
  end.

(** ** Bytes and slices *)

(** [byte(v)]: conversion of an integer to [uint8]. *)
Definition byte_of (v : Z) : Z := Z.land v 255.

(** [uint32(v)]: conversion of an integer to [uint32]. *)
Definition uint32_of (v : Z) : Z := v mod 2 ^ 32.

(** [make([]byte, n)]. *)
Definition make_bytes (n : nat) : list Z := replicate n 0.

(** [copy(dst[off:], src)]: overwrites [min (len dst - off) (len src)] bytes
    of [dst] starting at [off]; [dst] keeps its length. *)
Definition copy_at (dst : list Z) (off : nat) (src : list Z) : list Z :=
  let n := Nat.min (length dst - off) (length src) in
  take off dst ++ take n src ++ drop (off + n) dst.

(** [s[lo:hi]]. *)
Definition slice (s : list Z) (lo hi : nat) : list Z :=
  take (hi - lo) (drop lo s).

(** [binary.BigEndian.PutUint32(b[off:], v)]. *)
Definition PutUint32 (b : list Z) (off : nat) (v : Z) : list Z :=
  copy_at b off
    [byte_of (Z.shiftr v 24); byte_of (Z.shiftr v 16);
     byte_of (Z.shiftr v 8); byte_of v].

(** [binary.BigEndian.Uint32(b)]. *)
Definition Uint32 (b : list Z) : Z :=
  match b with
  | b0 :: b1 :: b2 :: b3 :: _ =>
      Z.lor (Z.lor (Z.lor b3 (Z.shiftl b2 8)) (Z.shiftl b1 16)) (Z.shiftl b0 24)
  | _ => 0
  end.

(** ** crypto/goolm/message/sessionExport.go *)

Module Message.

Definition sessionExportVersion : Z := 1.

Inductive error : Type :=
| ErrBadInput
| ErrBadVersion.

(** [Counter] is a [uint32], [RatchetData] a [[128]byte] and [PublicKey] a
    slice ([crypto.Ed25519PublicKey]). *)
Record MegolmSessionExport : Type := {
  Counter : Z;
  RatchetData : list Z;
  PublicKey : list Z
}.

(** The invariants the Go types [uint32] and [[128]byte] carry. *)
Definition well_typed (s : MegolmSessionExport) : Prop :=
  0 <= Counter s < 2 ^ 32 /\ length (RatchetData s) = 128%nat.

Definition Encode (s : MegolmSessionExport) : list Z :=
  let output := make_bytes 165 in
  let output := <[0%nat := sessionExportVersion]> output in
  let output := PutUint32 output 1 (Counter s) in
  let output := copy_at output 5 (RatchetData s) in
  let output := copy_at output 133 (PublicKey s) in
  output.

(** [Decode] returns the error (if any) and the receiver after the call. *)
Definition Decode (s : MegolmSessionExport) (input : list Z)
  : option error * MegolmSessionExport :=
  if negb (length input =? 165)%nat then (Some ErrBadInput, s)
  else if negb (default 0 (input !! 0%nat) =? sessionExportVersion)
  then (Some ErrBadVersion, s)
  else
    (None,
     {| Counter := Uint32 (slice input 1 5);
        RatchetData := copy_at (RatchetData s) 0 (slice input 5 133);
        PublicKey := drop 133 input |}).

End Message.

(** ** Slices: lengths and read-back *)

Lemma length_copy_at dst off src :
  (off <= length dst)%nat -> length (copy_at dst off src) = length dst.
Proof.
  intros Hoff. unfold copy_at.
  rewrite !length_app, !length_take, length_drop. lia.
Qed.

Lemma length_slice s lo hi :
  (lo <= hi <= length s)%nat -> length (slice s lo hi) = (hi - lo)%nat.
Proof.
  intros H. unfold slice. rewrite length_take, length_drop. lia.
Qed.

(** Reading back the bytes a [copy] has written. *)
Lemma slice_copy_at dst off src :
  (off + length src <= length dst)%nat ->
  slice (copy_at dst off src) off (off + length src) = src.
Proof.
  intros H. unfold slice, copy_at.
  replace (Nat.min (length dst - off) (length src)) with (length src) by lia.
  rewrite drop_app_length' by (rewrite length_take; lia).
  replace (off + length src - off)%nat with (length src) by lia.
  rewrite take_app_length' by (rewrite length_take; lia).
  apply take_ge. lia.
Qed.

(** A [copy] leaves the bytes before its offset alone. *)
Lemma take_copy_at dst off src n :
  (n <= off <= length dst)%nat ->
  take n (copy_at dst off src) = take n dst.
Proof.
  intros H. unfold copy_at.
  rewrite take_app_le by (rewrite length_take; lia).
  rewrite take_take. f_equal. lia.
Qed.

Lemma slice_copy_at_before dst off src lo hi :
  (lo <= hi <= off)%nat -> (off <= length dst)%nat ->
  slice (copy_at dst off src) lo hi = slice dst lo hi.
Proof.
  intros H1 H2. unfold slice.
  rewrite <- (take_drop hi (copy_at dst off src)) at 1.
  rewrite take_copy_at by lia.
  rewrite drop_app_le by (rewrite length_take; lia).
  rewrite take_app_length' by (rewrite length_drop, length_take; lia).
  rewrite <- (take_drop hi dst) at 2.
  rewrite drop_app_le by (rewrite length_take; lia).
  rewrite take_app_length' by (rewrite length_drop, length_take; lia).
  reflexivity.
Qed.

(** ** Big-endian words *)

Lemma byte_of_range v : 0 <= byte_of v < 256.
Proof.
  unfold byte_of. change 255 with (Z.ones 8).
  rewrite Z.land_ones by lia. apply Z.mod_pos_bound. lia.
Qed.

Lemma testbit_byte_of v n :
  0 <= n -> Z.testbit (byte_of v) n = Z.testbit v n && (n <? 8).
Proof.
  intros Hn. unfold byte_of. change 255 with (Z.ones 8).
  rewrite Z.land_spec, Z.testbit_ones by lia.
  destruct (Z.leb_spec 0 n); [|lia]. reflexivity.
Qed.

Lemma Uint32_PutUint32_bytes v :
  0 <= v < 2 ^ 32 ->
  Uint32 [byte_of (Z.shiftr v 24); byte_of (Z.shiftr v 16);
          byte_of (Z.shiftr v 8); byte_of v] = v.
Proof.
  intros Hv. unfold Uint32. apply Z.bits_inj'. intros n Hn.
  rewrite !Z.lor_spec, !Z.shiftl_spec by lia.
  rewrite testbit_byte_of by lia.
  destruct (Z.ltb_spec n 8) as [H8|H8].
  { rewrite !(Z.testbit_neg_r _ (n - _)) by lia.
    rewrite andb_true_r, !orb_false_r. reflexivity. }
  rewrite andb_false_r, orb_false_l.
  destruct (Z.ltb_spec n 16) as [H16|H16].
  { rewrite !(Z.testbit_neg_r _ (n - 16)), !(Z.testbit_neg_r _ (n - 24)) by lia.
    rewrite testbit_byte_of, Z.shiftr_spec by lia.
    replace (n - 8 + 8) with n by lia.
    destruct (Z.ltb_spec (n - 8) 8); [|lia].
    rewrite andb_true_r, !orb_false_r. reflexivity. }
  destruct (Z.ltb_spec n 24) as [H24|H24].
  { rewrite !(Z.testbit_neg_r _ (n - 24)) by lia.
    rewrite !testbit_byte_of, !Z.shiftr_spec by lia.
    replace (n - 16 + 16) with n by lia.
    destruct (Z.ltb_spec (n - 8) 8); [lia|].
    destruct (Z.ltb_spec (n - 16) 8); [|lia].
    rewrite andb_false_r, andb_true_r, orb_false_r. reflexivity. }
  rewrite !testbit_byte_of, !Z.shiftr_spec by lia.
  replace (n - 24 + 24) with n by lia.
  destruct (Z.ltb_spec (n - 8) 8); [lia|].
  destruct (Z.ltb_spec (n - 16) 8); [lia|].
  rewrite !andb_false_r, !orb_false_l.
  destruct (Z.ltb_spec (n - 24) 8) as [H32|H32].
  { rewrite andb_true_r. reflexivity. }
  rewrite andb_false_r. symmetry.
  destruct (Z.eq_dec v 0) as [->|Hne]; [apply Z.bits_0|].
  assert (Z.log2 v < 32) by (apply Z.log2_lt_pow2; lia).
  apply Z.bits_above_log2; lia.
Qed.

Lemma lookup_copy_at_before dst off src i :
  (i < off <= length dst)%nat -> copy_at dst off src !! i = dst !! i.
Proof.
  intros H. unfold copy_at.
  rewrite lookup_app_l by (rewrite length_take; lia).
  apply lookup_take_lt. lia.
Qed.

Lemma drop_copy_at dst off src :
  (off + length src = length dst)%nat -> drop off (copy_at dst off src) = src.
Proof.
  intros H. unfold copy_at.
  replace (Nat.min (length dst - off) (length src)) with (length src) by lia.
  rewrite drop_app_length' by (rewrite length_take; lia).
  rewrite take_ge by lia. rewrite drop_ge by lia. apply app_nil_r.
Qed.

Lemma copy_at_whole dst src :
  length dst = length src -> copy_at dst 0 src = src.
Proof.
  intros H. unfold copy_at. rewrite Nat.sub_0_r, H, Nat.min_id. simpl.
  rewrite take_ge by lia. rewrite drop_ge by lia. apply app_nil_r.
Qed.

(** ** The session export format *)

Section SessionExport.
Import Message.

Lemma length_version_header :
  length (<[0%nat:=sessionExportVersion]> (make_bytes 165)) = 165%nat.
Proof. reflexivity. Qed.

Lemma length_PutUint32 b off v :
  (off <= length b)%nat -> length (PutUint32 b off v) = length b.
Proof. apply length_copy_at. Qed.

Lemma length_Encode s : length (Encode s) = 165%nat.
Proof.
  unfold Encode.
  repeat (rewrite ?length_copy_at, ?length_PutUint32, ?length_version_header;
          try lia).
Qed.

Lemma Encode_version s : Encode s !! 0%nat = Some sessionExportVersion.
Proof.
  unfold Encode.
  rewrite lookup_copy_at_before.
  2:{ repeat (rewrite ?length_copy_at, ?length_PutUint32,
                ?length_version_header; try lia). }
  rewrite lookup_copy_at_before.
  2:{ repeat (rewrite ?length_copy_at, ?length_PutUint32,
                ?length_version_header; try lia). }
  unfold PutUint32. rewrite lookup_copy_at_before; [reflexivity|].
  rewrite length_version_header. lia.
Qed.

Lemma Decode_bad_length s input :
  length input <> 165%nat -> Decode s input = (Some ErrBadInput, s).
Proof.
  intros H. unfold Decode.
  destruct (Nat.eqb_spec (length input) 165); [contradiction|reflexivity].
Qed.

Lemma Decode_bad_version s input :
  length input = 165%nat -> input !! 0%nat <> Some sessionExportVersion ->
  Decode s input = (Some ErrBadVersion, s).
Proof.
  intros Hlen Hv. unfold Decode. rewrite Hlen. simpl.
  destruct input as [|b input]; [discriminate|]. simpl in *.
  destruct (Z.eqb_spec b sessionExportVersion) as [->|]; [|reflexivity].
  contradiction Hv. reflexivity.
Qed.

Lemma Decode_Encode m s0 :
  well_typed m -> well_typed s0 -> length (PublicKey m) = 32%nat ->
  Decode s0 (Encode m) = (None, m).
Proof.
  intros [Hc Hrd] [_ Hrd0] Hpk. unfold Decode.
  rewrite length_Encode, Encode_version.
  change (negb (165 =? 165)%nat) with false.
  change (default 0 (Some sessionExportVersion)) with sessionExportVersion.
  rewrite Z.eqb_refl. cbv [negb].
  destruct m as [c rd pk]. cbn [Counter RatchetData PublicKey] in *. f_equal.
  set (o1 := <[0%nat:=sessionExportVersion]> (make_bytes 165)).
  assert (Ho1 : length o1 = 165%nat) by reflexivity.
  assert (Ho2 : length (PutUint32 o1 1 c) = 165%nat).
  { unfold PutUint32. rewrite length_copy_at; lia. }
  assert (Ho3 : length (copy_at (PutUint32 o1 1 c) 5 rd) = 165%nat).
  { rewrite length_copy_at; lia. }
  unfold Encode. cbn [Counter RatchetData PublicKey]. fold o1. f_equal.
  - rewrite !slice_copy_at_before by lia.
    unfold PutUint32.
    rewrite (slice_copy_at o1 1 [_; _; _; _]) by (simpl; lia).
    apply Uint32_PutUint32_bytes. exact Hc.
  - rewrite slice_copy_at_before by lia.
    replace 133%nat with (5 + length rd)%nat by lia.
    rewrite slice_copy_at by lia.
    apply copy_at_whole. lia.
  - apply drop_copy_at. lia.
Qed.

(** C9: [Encode] always produces 165 bytes that start with the version byte
    0x01; [Decode] fails with [ErrBadInput] on every input whose length is not
    165 and with [ErrBadVersion] on every 165-byte input whose first byte is
    not 0x01, leaving the receiver as it was; and for a message with a 32-byte
    public key, decoding the encoding gives back the counter, the ratchet
    data and the public key. *)
Theorem MegolmSessionExport_Encode_Decode :
  (forall s, length (Encode s) = 165%nat /\
             Encode s !! 0%nat = Some 1) /\
  (forall s input,
      (length input <> 165%nat -> Decode s input = (Some ErrBadInput, s)) /\
      (length input = 165%nat -> input !! 0%nat <> Some 1 ->
       Decode s input = (Some ErrBadVersion, s))) /\
  (forall m s0,
      well_typed m -> well_typed s0 -> length (PublicKey m) = 32%nat ->
      Decode s0 (Encode m) = (None, m)).
Proof.
  split; [|split].
  - intros s. split; [apply length_Encode | apply Encode_version].
  - intros s input. split; [apply Decode_bad_length | apply Decode_bad_version].
  - apply Decode_Encode.
Qed.

Definition sample_export : MegolmSessionExport :=
  {| Counter := 305419896;
     RatchetData := map Z.of_nat (seq 0 128);
     PublicKey := map Z.of_nat (seq 200 32) |}.

Definition blank_export : MegolmSessionExport :=
  {| Counter := 0; RatchetData := replicate 128 0; PublicKey := [] |}.

Lemma MegolmSessionExport_Encode_Decode_witness :
  well_typed sample_export /\ well_typed blank_export /\
  length (PublicKey sample_export) = 32%nat /\
  Decode blank_export (Encode sample_export) = (None, sample_export) /\
  Decode blank_export [2; 0; 0] = (Some ErrBadInput, blank_export).
Proof.
  assert (Hs : well_typed sample_export).
  { split; [vm_compute; split; congruence | reflexivity]. }
  assert (Hb : well_typed blank_export).
  { split; [vm_compute; split; congruence | reflexivity]. }
  split; [exact Hs|]. split; [exact Hb|]. split; [reflexivity|]. split.
  - exact (proj2 (proj2 MegolmSessionExport_Encode_Decode)
             sample_export blank_export Hs Hb eq_refl).
  - apply (proj1 (proj1 (proj2 MegolmSessionExport_Encode_Decode)
                    blank_export [2; 0; 0])).
    simpl. lia.
Defined.

End SessionExport.

(** ** crypto/sql_store.go: the SQL-backed crypto store

    A table is a finite map from its primary key to a record of the other
    columns, a nullable column is an [option], and a [[]byte] that may be
    [nil] (which the driver writes as NULL and reads back from NULL) is an
    [option (list Z)].  Every statement executes: connection and driver
    failures are outside the model, so the only errors are the ones the Go
    code itself produces or receives from the olm backend. *)

Module Store.

(** [[]byte] with [nil] distinguished. *)
Definition GoBytes : Type := option (list Z).

(** [event.RoomKeyWithheldEventContent], which is also a Go [error]. *)
Record RoomKeyWithheldEventContent : Type := {
  wh_RoomID : string;
  wh_Algorithm : string;
  wh_SessionID : string;
  wh_SenderKey : string;
  wh_Code : string;
  wh_Reason : string
}.

Inductive error : Type :=
| BackendError (msg : string)
| ErrorNew (msg : string)
| Errorf (msg : string) (wrapped : error)
| Withheld (content : RoomKeyWithheldEventContent).

(** The [olm.Session] interface, as far as the modelled reads use it.
    [Session_Unpickle] stands for [olm.NewBlankSession] followed by
    [Unpickle]. *)
Class olm_Session (S : Type) : Type := {
  Session_ID : S -> string;
  Session_Unpickle : list Z -> list Z -> Result error S
}.

(** The [olm.InboundGroupSession] interface, as far as the store uses it. *)
Class olm_InboundGroupSession (G : Type) : Type := {
  IGS_ID : G -> string;
  IGS_Pickle : G -> list Z -> Result error GoBytes;
  IGS_Unpickle : GoBytes -> list Z -> Result error G
}.

(** [RatchetSafety] with its JSON encoding and its zero value. *)
Class RatchetSafetyJSON (R : Type) : Type := {
  RatchetSafety_zero : R;
  RatchetSafety_Marshal : R -> Result error (list Z);
  RatchetSafety_Unmarshal : list Z -> Result error R
}.

(** The zero [time.Time] (January 1, year 1, UTC) in microseconds since the
    Unix epoch, and [Time.IsZero]. *)
Definition zero_time : Z := -62135596800000000.
Definition IsZero (t : Z) : bool := t =? zero_time.

Definition datePtr (t : Z) : option Z :=
  if IsZero t then None else Some t.

(** [dbutil.NumPtr]: [nil] for zero, a pointer to the value otherwise. *)
Definition NumPtr (val : Z) : option Z :=
  if val =? 0 then None else Some val.

(** [sql.NullString.String], [sql.NullTime.Time], [sql.NullInt64.Int64]. *)
Definition NullString_String (s : option string) : string := default EmptyString s.
Definition NullTime_Time (t : option Z) : Z := default zero_time t.
Definition NullInt64_Int64 (n : option Z) : Z := default 0 n.

(** [strings.Join(elems, ",")]. *)
Definition strings_Join (elems : list string) : string := String.concat "," elems.

(** [strings.Split(s, ",")]. *)
Fixpoint split_from (acc : string) (s : string) : list string :=
  match s with
  | EmptyString => [String.rev acc]
  | String c s' =>
      if Ascii.eqb c ","%char then String.rev acc :: split_from EmptyString s'
      else split_from (String c acc) s'
  end.
Definition strings_Split (s : string) : list string := split_from EmptyString s.

Inductive Dialect : Type :=
| Postgres
| SQLite
| UnknownDialect.

(** Rows of [crypto_olm_session]; the key is [(account_id, session_id)], the
    pair by which [UpdateSession] and [DeleteSession] address a row. *)
Record OlmSessionRow : Type := {
  os_sender_key : string;
  os_session : list Z;
  os_created_at : Z;
  os_last_encrypted : Z;
  os_last_decrypted : Z
}.

(** Rows of [crypto_megolm_inbound_session]; the key is
    [(session_id, account_id)]. *)
Record MegolmInboundRow : Type := {
  sender_key : option string;
  signing_key : option string;
  room_id : string;
  session : GoBytes;
  forwarding_chains : option string;
  withheld_code : option string;
  withheld_reason : option string;
  ratchet_safety : GoBytes;
  received_at : option Z;
  max_age : option Z;
  max_messages : option Z;
  is_scheduled : bool;
  key_backup_version : string
}.

(** [crypto_message_index]: the key is [(sender_key, session_id, index)], the
    value [(event_id, timestamp)]. *)
Record Database : Type := {
  DB_Dialect : Dialect;
  crypto_olm_session : gmap (string * string) OlmSessionRow;
  crypto_megolm_inbound_session : gmap (string * string) MegolmInboundRow;
  crypto_message_index : gmap (string * string * Z) (string * Z)
}.

Definition set_megolm_inbound_session (db : Database) t : Database :=
  {| DB_Dialect := DB_Dialect db;
     crypto_olm_session := crypto_olm_session db;
     crypto_megolm_inbound_session := t;
     crypto_message_index := crypto_message_index db |}.

Definition set_message_index (db : Database) t : Database :=
  {| DB_Dialect := DB_Dialect db;
     crypto_olm_session := crypto_olm_session db;
     crypto_megolm_inbound_session := crypto_megolm_inbound_session db;
     crypto_message_index := t |}.

(** [UPDATE t SET ... WHERE ...]: the rows the condition selects are replaced
    by their update, the others stay. *)
Definition sql_update {K V} `{Countable K}
    (where_ : K -> V -> bool) (set_ : V -> V) (t : gmap K V) : gmap K V :=
  map_imap (fun k v => Some (if where_ k v then set_ v else v)) t.

(** The [RETURNING] list of an [UPDATE]: one entry per selected row. *)
Definition sql_returning {K V A} `{Countable K}
    (where_ : K -> V -> bool) (col : K -> V -> A) (t : gmap K V) : list A :=
  omap (fun kv => if where_ kv.1 kv.2 then Some (col kv.1 kv.2) else None)
       (map_to_list t).

Section SQLCryptoStore.
Context {S G R : Type}.
Context `{!olm_Session S, !olm_InboundGroupSession G, !RatchetSafetyJSON R}.
(** [event.RoomKeyWithheldBeeperRedacted] and [id.AlgorithmMegolmV1]. *)
Variable RoomKeyWithheldBeeperRedacted : string.
Variable AlgorithmMegolmV1 : string.

Record OlmSession : Type := {
  Internal : S;
  CreationTime : Z;
  LastEncryptedTime : Z;
  LastDecryptedTime : Z
}.

Definition OlmSession_ID (sess : OlmSession) : string := Session_ID (Internal sess).

Record InboundGroupSession : Type := {
  igs_Internal : G;
  SigningKey : string;
  SenderKey : string;
  RoomID : string;
  ForwardingChains : list string;
  RatchetSafety : R;
  ReceivedAt : Z;
  MaxAge : Z;
  MaxMessages : Z;
  IsScheduled : bool;
  KeyBackupVersion : string
}.

Definition InboundGroupSession_ID (session : InboundGroupSession) : string :=
  IGS_ID (igs_Internal session).

Record SQLCryptoStore : Type := {
  DB : Database;
  AccountID : string;
  PickleKey : list Z;
  olmSessionCache : gmap string (gmap string OlmSession)
}.

Definition with_DB (store : SQLCryptoStore) (db : Database) : SQLCryptoStore :=
  {| DB := db; AccountID := AccountID store; PickleKey := PickleKey store;
     olmSessionCache := olmSessionCache store |}.

Definition with_cache (store : SQLCryptoStore) c : SQLCryptoStore :=
  {| DB := DB store; AccountID := AccountID store; PickleKey := PickleKey store;
     olmSessionCache := c |}.

Definition with_inbound (store : SQLCryptoStore) t : SQLCryptoStore :=
  with_DB store (set_megolm_inbound_session (DB store) t).

(** *** Olm sessions *)

(** [ORDER BY last_decrypted DESC]: the first row sorts before the second. *)
Definition last_decrypted_desc (a b : string * OlmSessionRow) : Prop :=
  os_last_decrypted b.2 <= os_last_decrypted a.2.

#[local] Instance last_decrypted_desc_dec a b : Decision (last_decrypted_desc a b).
Proof. unfold last_decrypted_desc. apply _. Defined.

(** [WHERE sender_key=$1 AND account_id=$2], keeping [session_id] and the
    row. *)
Definition olm_session_matches (store : SQLCryptoStore) (key : string)
    (kv : string * string * OlmSessionRow) : option (string * OlmSessionRow) :=
  if bool_decide (os_sender_key kv.2 = key) && bool_decide (kv.1.1 = AccountID store)
  then Some (kv.1.2, kv.2) else None.

(** The query of [GetSessions]: the matching rows, ordered. *)
Definition select_olm_sessions (store : SQLCryptoStore) (key : string)
  : list (string * OlmSessionRow) :=
  merge_sort last_decrypted_desc
    (omap (olm_session_matches store key)
          (map_to_list (crypto_olm_session (DB store)))).

(** [store.getOlmSessionCache(key)]: the per-sender cache, created when
    missing. *)
Definition getOlmSessionCache (store : SQLCryptoStore) (key : string)
  : gmap string OlmSession * SQLCryptoStore :=
  match olmSessionCache store !! key with
  | Some data => (data, store)
  | None => (∅, with_cache store (<[key := ∅]> (olmSessionCache store)))
  end.

(** What [rows.Scan] and [Unpickle] make of a row. *)
Definition scan_olm_session (store : SQLCryptoStore) (row : OlmSessionRow)
  : Result error OlmSession :=
  bindR (Session_Unpickle (os_session row) (PickleKey store)) (fun internal =>
  Ok {| Internal := internal;
        CreationTime := os_created_at row;
        LastEncryptedTime := os_last_encrypted row;
        LastDecryptedTime := os_last_decrypted row |}).

(** The [for rows.Next()] loop of [GetSessions]; it returns the cache as the
    loop left it, also when it stops on an error. *)
Fixpoint GetSessions_loop (store : SQLCryptoStore)
    (rows : list (string * OlmSessionRow))
    (cache : gmap string OlmSession) (sessions : list OlmSession)
  : Result error (list OlmSession) * gmap string OlmSession :=
  match rows with
  | [] => (Ok sessions, cache)
  | (sessionID, row) :: rows' =>
      match cache !! sessionID with
      | Some existing => GetSessions_loop store rows' cache (sessions ++ [existing])
      | None =>
          match scan_olm_session store row with
          | Err err => (Err err, cache)
          | Ok sess =>
              GetSessions_loop store rows'
                (<[OlmSession_ID sess := sess]> cache) (sessions ++ [sess])
          end
      end
  end.

Definition GetSessions (store : SQLCryptoStore) (key : string)
  : Result error (list OlmSession) * SQLCryptoStore :=
  let rows := select_olm_sessions store key in
  let '(cache, store) := getOlmSessionCache store key in
  let '(res, cache) := GetSessions_loop store rows cache [] in
  (res, with_cache store (<[key := cache]> (olmSessionCache store))).

(** [GetLatestSession]: the same query with [LIMIT 1]. *)
Definition GetLatestSession (store : SQLCryptoStore) (key : string)
  : Result error (option OlmSession) * SQLCryptoStore :=
  match head (select_olm_sessions store key) with
  | None => (Ok None, store)
  | Some (sessionID, row) =>
      let '(cache, store) := getOlmSessionCache store key in
      match cache !! sessionID with
      | Some oldSess => (Ok (Some oldSess), store)
      | None =>
          match scan_olm_session store row with
          | Err err => (Err err, store)
          | Ok sess =>
              (Ok (Some sess),
               with_cache store
                 (<[key := <[sessionID := sess]> cache]> (olmSessionCache store)))
          end
      end
  end.

(** *** Inbound group sessions *)

(** The row [PutGroupSession] inserts; the withheld columns are not listed in
    the [INSERT] and so are NULL. *)
Definition inserted_row (session : InboundGroupSession)
    (sessionBytes : GoBytes) (ratchetSafety : list Z) : MegolmInboundRow :=
  {| sender_key := Some (SenderKey session);
     signing_key := Some (SigningKey session);
     room_id := RoomID session;
     session := sessionBytes;
     forwarding_chains := Some (strings_Join (ForwardingChains session));
     withheld_code := None;
     withheld_reason := None;
     ratchet_safety := Some ratchetSafety;
     received_at := datePtr (ReceivedAt session);
     max_age := NumPtr (MaxAge session);
     max_messages := NumPtr (MaxMessages session);
     is_scheduled := IsScheduled session;
     key_backup_version := KeyBackupVersion session |}.

(** [ON CONFLICT (session_id, account_id) DO UPDATE SET ...] of
    [PutGroupSession]. *)
Definition on_conflict_update (old excluded : MegolmInboundRow) : MegolmInboundRow :=
  {| withheld_code := None;
     withheld_reason := None;
     sender_key := sender_key excluded;
     signing_key := signing_key excluded;
     room_id := room_id excluded;
     session := session excluded;
     forwarding_chains := forwarding_chains excluded;
     ratchet_safety := ratchet_safety excluded;
     received_at := received_at excluded;
     max_age := max_age excluded;
     max_messages := max_messages excluded;
     is_scheduled := is_scheduled excluded;
     key_backup_version := key_backup_version excluded |}.

Definition PutGroupSession (store : SQLCryptoStore) (session : InboundGroupSession)
  : option error * SQLCryptoStore :=
  match IGS_Pickle (igs_Internal session) (PickleKey store) with
  | Err err => (Some err, store)
  | Ok sessionBytes =>
      match RatchetSafety_Marshal (RatchetSafety session) with
      | Err err => (Some (Errorf "failed to marshal ratchet safety info" err), store)
      | Ok ratchetSafety =>
          let t := crypto_megolm_inbound_session (DB store) in
          let k := (InboundGroupSession_ID session, AccountID store) in
          let excluded := inserted_row session sessionBytes ratchetSafety in
          let t' :=
            match t !! k with
            | None => <[k := excluded]> t
            | Some old => <[k := on_conflict_update old excluded]> t
            end in
          (None, with_inbound store t')
      end
  end.

Definition postScanInboundGroupSession (store : SQLCryptoStore)
    (sessionBytes ratchetSafetyBytes : GoBytes) (forwardingChains : string)
  : Result error (G * list string * R) :=
  match IGS_Unpickle sessionBytes (PickleKey store) with
  | Err err => Err err
  | Ok igs =>
      let chains :=
        if bool_decide (forwardingChains = EmptyString) then []
        else strings_Split forwardingChains in
      (* the unmarshalled value goes to a local; the named result [safety]
         keeps its zero value *)
      let safety := RatchetSafety_zero in
      match ratchetSafetyBytes with
      | Some (b :: bs) =>
          match RatchetSafety_Unmarshal (b :: bs) with
          | Err err => Err (Errorf "failed to unmarshal ratchet safety info" err)
          | Ok rs => Ok (igs, chains, safety)
          end
      | _ => Ok (igs, chains, safety)
      end
  end.

Definition GetGroupSession (store : SQLCryptoStore) (roomID sessionID : string)
  : Result error (option InboundGroupSession) :=
  match crypto_megolm_inbound_session (DB store) !! (sessionID, AccountID store) with
  | None => Ok None
  | Some row =>
      if negb (bool_decide (room_id row = roomID)) then Ok None
      else
        match withheld_code row with
        | Some code =>
            Err (Withheld
                   {| wh_RoomID := roomID;
                      wh_Algorithm := AlgorithmMegolmV1;
                      wh_SessionID := sessionID;
                      wh_SenderKey := NullString_String (sender_key row);
                      wh_Code := code;
                      wh_Reason := NullString_String (withheld_reason row) |})
        | None =>
            match postScanInboundGroupSession store (session row) (ratchet_safety row)
                    (NullString_String (forwarding_chains row)) with
            | Err err => Err err
            | Ok (igs, chains, rs) =>
                Ok (Some
                      {| igs_Internal := igs;
                         SigningKey := NullString_String (signing_key row);
                         SenderKey := NullString_String (sender_key row);
                         RoomID := roomID;
                         ForwardingChains := chains;
                         RatchetSafety := rs;
                         ReceivedAt := NullTime_Time (received_at row);
                         MaxAge := NullInt64_Int64 (max_age row);
                         MaxMessages := NullInt64_Int64 (max_messages row);
                         IsScheduled := is_scheduled row;
                         KeyBackupVersion := key_backup_version row |})
            end
        end
  end.

(** [SET withheld_code=$1, withheld_reason=$2, session=NULL,
    forwarding_chains=NULL], shared by all the redacting statements. *)
Definition set_withheld (code reason : string) (row : MegolmInboundRow)
  : MegolmInboundRow :=
  {| withheld_code := Some code;
     withheld_reason := Some reason;
     session := None;
     forwarding_chains := None;
     sender_key := sender_key row;
     signing_key := signing_key row;
     room_id := room_id row;
     ratchet_safety := ratchet_safety row;
     received_at := received_at row;
     max_age := max_age row;
     max_messages := max_messages row;
     is_scheduled := is_scheduled row;
     key_backup_version := key_backup_version row |}.

Definition is_not_null {A} (c : option A) : bool :=
  match c with Some _ => true | None => false end.

Definition is_null {A} (c : option A) : bool := negb (is_not_null c).

(** [WHERE session_id=$3 AND account_id=$4 AND session IS NOT NULL]. *)
Definition redact_where (store : SQLCryptoStore) (sessionID : string)
    (k : string * string) (row : MegolmInboundRow) : bool :=
  bool_decide (k.1 = sessionID) && bool_decide (k.2 = AccountID store)
  && is_not_null (session row).

Definition RedactGroupSession (store : SQLCryptoStore)
    (roomID sessionID reason : string) : option error * SQLCryptoStore :=
  let t := crypto_megolm_inbound_session (DB store) in
  (None,
   with_inbound store
     (sql_update (redact_where store sessionID)
        (set_withheld RoomKeyWithheldBeeperRedacted ("Session redacted: " ++ reason))
        t)).

(** [WHERE (room_id=$3 OR $3='') AND (sender_key=$4 OR $4='') AND
    account_id=$5 AND session IS NOT NULL AND is_scheduled=false AND
    received_at IS NOT NULL]. *)
Definition redact_many_where (store : SQLCryptoStore) (roomID senderKey : string)
    (k : string * string) (row : MegolmInboundRow) : bool :=
  (bool_decide (room_id row = roomID) || bool_decide (roomID = EmptyString))
  && (bool_decide (sender_key row = Some senderKey)
      || bool_decide (senderKey = EmptyString))
  && bool_decide (k.2 = AccountID store)
  && is_not_null (session row) && negb (is_scheduled row)
  && is_not_null (received_at row).

Definition RedactGroupSessions (store : SQLCryptoStore)
    (roomID senderKey reason : string)
  : Result error (list string) * SQLCryptoStore :=
  if bool_decide (roomID = EmptyString) && bool_decide (senderKey = EmptyString)
  then (Err (ErrorNew "room ID or sender key must be provided for redacting sessions"),
        store)
  else
    let t := crypto_megolm_inbound_session (DB store) in
    (Ok (sql_returning (redact_many_where store roomID senderKey) (fun k _ => k.1) t),
     with_inbound store
       (sql_update (redact_many_where store roomID senderKey)
          (set_withheld RoomKeyWithheldBeeperRedacted ("Session redacted: " ++ reason))
          t)).

(** The expiry test of the Postgres statement, times in microseconds:
    [received_at + 2 * (max_age * interval '1 millisecond') < now()]. *)
Definition postgres_expired (now recv maxage : Z) : bool :=
  recv + 2 * (maxage * 1000) <? now.

(** The expiry test of the SQLite statement:
    [unixepoch(received_at) + (2 * max_age / 1000) < unixepoch(date('now'))].
    [unixepoch] gives whole seconds, the division is SQLite's integer
    division, and [date('now')] is the start of the current UTC day. *)
Definition sqlite_unixepoch (t : Z) : Z := t / 1000000.
Definition sqlite_date (t : Z) : Z := t / 86400000000 * 86400000000.
Definition sqlite_expired (now recv maxage : Z) : bool :=
  sqlite_unixepoch recv + Z.quot (2 * maxage) 1000
  <? sqlite_unixepoch (sqlite_date now).

(** [WHERE account_id=$3 AND session IS NOT NULL AND is_scheduled=false AND
    received_at IS NOT NULL and max_age IS NOT NULL AND <expiry test>]. *)
Definition expired_where (store : SQLCryptoStore) (expired : Z -> Z -> bool)
    (k : string * string) (row : MegolmInboundRow) : bool :=
  bool_decide (k.2 = AccountID store)
  && is_not_null (session row) && negb (is_scheduled row)
  && match received_at row, max_age row with
     | Some recv, Some maxage => expired recv maxage
     | _, _ => false
     end.

(** [now] is the database clock at the time of the statement. *)
Definition RedactExpiredGroupSessions (store : SQLCryptoStore) (now : Z)
  : Result error (list string) * SQLCryptoStore :=
  let run expired :=
    let t := crypto_megolm_inbound_session (DB store) in
    (Ok (sql_returning (expired_where store expired) (fun k _ => k.1) t),
     with_inbound store
       (sql_update (expired_where store expired)
          (set_withheld RoomKeyWithheldBeeperRedacted "Session redacted: expired")
          t)) in
  match DB_Dialect (DB store) with
  | Postgres => run (postgres_expired now)
  | SQLite => run (sqlite_expired now)
  | UnknownDialect => (Err (ErrorNew "unsupported dialect"), store)
  end.

(** [WHERE account_id=$3 AND session IS NOT NULL AND received_at IS NULL]. *)
Definition outdated_where (store : SQLCryptoStore)
    (k : string * string) (row : MegolmInboundRow) : bool :=
  bool_decide (k.2 = AccountID store)
  && is_not_null (session row) && is_null (received_at row).

Definition RedactOutdatedGroupSessions (store : SQLCryptoStore)
  : Result error (list string) * SQLCryptoStore :=
  let t := crypto_megolm_inbound_session (DB store) in
  (Ok (sql_returning (outdated_where store) (fun k _ => k.1) t),
   with_inbound store
     (sql_update (outdated_where store)
        (set_withheld RoomKeyWithheldBeeperRedacted "Session redacted: outdated")
        t)).

(** [now] is [time.Now().UTC()]; the statement ends in
    [ON CONFLICT (session_id, account_id) DO NOTHING]. *)
Definition PutWithheldGroupSession (store : SQLCryptoStore)
    (content : RoomKeyWithheldEventContent) (now : Z)
  : option error * SQLCryptoStore :=
  let t := crypto_megolm_inbound_session (DB store) in
  let k := (wh_SessionID content, AccountID store) in
  let row :=
    {| sender_key := Some (wh_SenderKey content);
       signing_key := None;
       room_id := wh_RoomID content;
       session := None;
       forwarding_chains := None;
       withheld_code := Some (wh_Code content);
       withheld_reason := Some (wh_Reason content);
       ratchet_safety := None;
       received_at := Some now;
       max_age := None;
       max_messages := None;
       is_scheduled := false;
       key_backup_version := EmptyString |} in
  match t !! k with
  | Some _ => (None, store)
  | None => (None, with_inbound store (<[k := row]> t))
  end.

(** *** The message index ledger *)

(** [INSERT ... ON CONFLICT (sender_key, session_id, "index") DO UPDATE SET
    sender_key=excluded.sender_key RETURNING event_id, timestamp]: on a
    conflict the update rewrites a key column with the value it already has,
    and the statement returns the stored row. *)
Definition validateQuery (t : gmap (string * string * Z) (string * Z))
    (k : string * string * Z) (v : string * Z)
  : (string * Z) * gmap (string * string * Z) (string * Z) :=
  match t !! k with
  | Some stored => (stored, t)
  | None => (v, <[k := v]> t)
  end.

(** [index] is a [uint], [timestamp] an [int64]. *)
Definition ValidateMessageIndex (store : SQLCryptoStore)
    (senderKey sessionID eventID : string) (index timestamp : Z)
  : Result error bool * SQLCryptoStore :=
  let '((expectedEventID, expectedTimestamp), t) :=
    validateQuery (crypto_message_index (DB store))
      (senderKey, sessionID, index) (eventID, timestamp) in
  let store := with_DB store (set_message_index (DB store) t) in
  if negb (String.eqb expectedEventID eventID)
     || negb (expectedTimestamp =? timestamp)
  then (Ok false, store)
  else (Ok true, store).

(** A call of [ValidateMessageIndex], as data, and a sequence of calls. *)
Record IndexCall : Type := {
  call_senderKey : string;
  call_sessionID : string;
  call_eventID : string;
  call_index : Z;
  call_timestamp : Z
}.

Definition validate_call (store : SQLCryptoStore) (c : IndexCall)
  : Result error bool * SQLCryptoStore :=
  ValidateMessageIndex store (call_senderKey c) (call_sessionID c)
    (call_eventID c) (call_index c) (call_timestamp c).

Definition validate_calls (store : SQLCryptoStore) (cs : list IndexCall)
  : SQLCryptoStore :=
  fold_left (fun st c => (validate_call st c).2) cs store.

Definition ledger (store : SQLCryptoStore) : gmap (string * string * Z) (string * Z) :=
  crypto_message_index (DB store).

(** *** Replay ledger: the first binding wins *)

Lemma ValidateMessageIndex_unbound store senderKey sessionID eventID index timestamp :
  ledger store !! (senderKey, sessionID, index) = None ->
  ValidateMessageIndex store senderKey sessionID eventID index timestamp =
  (Ok true,
   with_DB store
     (set_message_index (DB store)
        (<[(senderKey, sessionID, index) := (eventID, timestamp)]> (ledger store)))).
Proof.
  intros Hk. unfold ValidateMessageIndex, validateQuery, ledger in *.
  rewrite Hk, String.eqb_refl, Z.eqb_refl. reflexivity.
Qed.

Lemma ValidateMessageIndex_bound store senderKey sessionID eventID index timestamp
    eventID0 timestamp0 :
  ledger store !! (senderKey, sessionID, index) = Some (eventID0, timestamp0) ->
  ValidateMessageIndex store senderKey sessionID eventID index timestamp =
  (Ok (bool_decide (eventID = eventID0 /\ timestamp = timestamp0)),
   with_DB store (set_message_index (DB store) (ledger store))).
Proof.
  intros Hk. unfold ValidateMessageIndex, validateQuery, ledger in *.
  rewrite Hk.
  destruct (String.eqb_spec eventID0 eventID) as [->|He];
    destruct (Z.eqb_spec timestamp0 timestamp) as [->|Ht]; simpl;
    repeat f_equal; symmetry;
    first [ apply bool_decide_eq_true; split; reflexivity
          | apply bool_decide_eq_false; intros [? ?]; congruence ].
Qed.

Lemma validate_call_keeps_binding store c k v :
  ledger store !! k = Some v -> ledger (validate_call store c).2 !! k = Some v.
Proof.
  intros Hk. unfold validate_call.
  set (k' := (call_senderKey c, call_sessionID c, call_index c)).
  destruct (ledger store !! k') as [[e0 t0]|] eqn:Hk'.
  - rewrite (ValidateMessageIndex_bound _ _ _ _ _ _ _ _ Hk'). exact Hk.
  - rewrite (ValidateMessageIndex_unbound _ _ _ _ _ _ Hk'). unfold ledger. simpl.
    rewrite lookup_insert_ne; [exact Hk|].
    intros Heq. rewrite <- Heq in Hk. subst k'. congruence.
Qed.

Lemma validate_calls_keep_binding cs : forall store k v,
  ledger store !! k = Some v -> ledger (validate_calls store cs) !! k = Some v.
Proof.
  induction cs as [|c cs IH]; intros store k v Hk; [exact Hk|].
  simpl. apply IH. apply validate_call_keeps_binding. exact Hk.
Qed.

(** C1: the first call for a triple (no ledger row yet) returns true and
    stores the supplied (eventID, timestamp); after any further calls, for
    any triples, the row still holds that first binding, and a call for the
    same triple returns true exactly when both its eventID and its timestamp
    equal the stored ones. *)
Theorem ValidateMessageIndex_first_binding_wins
    store senderKey sessionID index eventID timestamp :
  ledger store !! (senderKey, sessionID, index) = None ->
  let first := ValidateMessageIndex store senderKey sessionID eventID index timestamp in
  first.1 = Ok true /\
  ledger first.2 !! (senderKey, sessionID, index) = Some (eventID, timestamp) /\
  forall (later : list IndexCall) eventID' timestamp',
    let store' := validate_calls first.2 later in
    let again := ValidateMessageIndex store' senderKey sessionID eventID' index timestamp' in
    ledger store' !! (senderKey, sessionID, index) = Some (eventID, timestamp) /\
    again.1 = Ok (bool_decide (eventID' = eventID /\ timestamp' = timestamp)) /\
    ledger again.2 !! (senderKey, sessionID, index) = Some (eventID, timestamp).
Proof.
  intros Hnone. cbv zeta.
  rewrite (ValidateMessageIndex_unbound _ _ _ _ _ _ Hnone). simpl.
  assert (Hfirst :
    ledger (with_DB store
      (set_message_index (DB store)
         (<[(senderKey, sessionID, index) := (eventID, timestamp)]> (ledger store))))
    !! (senderKey, sessionID, index) = Some (eventID, timestamp)).
  { unfold ledger. simpl. apply lookup_insert_eq. }
  split; [reflexivity|]. split; [exact Hfirst|].
  intros later eventID' timestamp'.
  pose proof (validate_calls_keep_binding later _ _ _ Hfirst) as Hlater.
  split; [exact Hlater|].
  rewrite (ValidateMessageIndex_bound _ _ _ _ _ _ _ _ Hlater). simpl.
  split; [reflexivity|]. exact Hlater.
Qed.

(** *** UPDATE statements *)

Lemma lookup_sql_update {K V} `{Countable K}
    (where_ : K -> V -> bool) (set_ : V -> V) (t : gmap K V) k :
  sql_update where_ set_ t !! k =
  (fun v => if where_ k v then set_ v else v) <$> t !! k.
Proof.
  unfold sql_update. rewrite map_lookup_imap.
  destruct (t !! k); reflexivity.
Qed.

Lemma elem_of_sql_returning {K V A} `{Countable K}
    (where_ : K -> V -> bool) (col : K -> V -> A) (t : gmap K V) x :
  x ∈ sql_returning where_ col t <->
  exists k v, t !! k = Some v /\ where_ k v = true /\ col k v = x.
Proof.
  unfold sql_returning. rewrite list_elem_of_omap. split.
  - intros [[k v] [Hin Hsel]]. apply elem_of_map_to_list in Hin. simpl in Hsel.
    destruct (where_ k v) eqn:Hw; [|discriminate].
    exists k, v. split; [exact Hin|]. split; [exact Hw|congruence].
  - intros (k & v & Hin & Hw & Hcol). exists (k, v).
    split; [apply elem_of_map_to_list; exact Hin|].
    simpl. rewrite Hw. congruence.
Qed.

(** The returned column has no duplicates when it determines the key among
    the selected rows. *)
Lemma NoDup_omap_keys {K V A} (sel : K * V -> option A) (l : list (K * V)) :
  NoDup l.*1 ->
  (forall kv1 kv2 x, sel kv1 = Some x -> sel kv2 = Some x -> kv1.1 = kv2.1) ->
  NoDup (omap sel l).
Proof.
  intros Hnd Hinj. induction l as [|kv l IH]; [constructor|].
  simpl in *. apply NoDup_cons in Hnd as [Hnotin Hnd].
  destruct (sel kv) as [x|] eqn:Hx; [|apply IH; exact Hnd].
  apply NoDup_cons. split; [|apply IH; exact Hnd].
  intros Hin. apply list_elem_of_omap in Hin as [kv' [Hin' Hx']].
  apply Hnotin. rewrite (Hinj kv kv' x Hx Hx').
  apply list_elem_of_fmap. exists kv'. split; [reflexivity|exact Hin'].
Qed.

Lemma NoDup_sql_returning {K V A} `{Countable K}
    (where_ : K -> V -> bool) (col : K -> V -> A) (t : gmap K V) :
  (forall k1 v1 k2 v2, where_ k1 v1 = true -> where_ k2 v2 = true ->
                       col k1 v1 = col k2 v2 -> k1 = k2) ->
  NoDup (sql_returning where_ col t).
Proof.
  intros Hinj. unfold sql_returning.
  apply NoDup_omap_keys; [apply NoDup_fst_map_to_list|].
  intros [k1 v1] [k2 v2] x. simpl.
  destruct (where_ k1 v1) eqn:H1; [|discriminate].
  destruct (where_ k2 v2) eqn:H2; [|discriminate].
  intros [= E1] [= E2]. apply (Hinj k1 v1 k2 v2 H1 H2). congruence.
Qed.

(** *** Withheld/present exclusivity *)

Definition inbound (store : SQLCryptoStore) : gmap (string * string) MegolmInboundRow :=
  crypto_megolm_inbound_session (DB store).

(** The ratchet state is present exactly when no withheld code is. *)
Definition exclusive (row : MegolmInboundRow) : Prop :=
  session row <> None <-> withheld_code row = None.

Definition store_exclusive (store : SQLCryptoStore) : Prop :=
  forall k row, inbound store !! k = Some row -> exclusive row.

(** The operations of the store that are modelled here. *)
Inductive StoreOp : Type :=
| OpPutGroupSession (session : InboundGroupSession)
| OpRedactGroupSession (roomID sessionID reason : string)
| OpRedactGroupSessions (roomID senderKey reason : string)
| OpRedactExpiredGroupSessions (now : Z)
| OpRedactOutdatedGroupSessions
| OpPutWithheldGroupSession (content : RoomKeyWithheldEventContent) (now : Z)
| OpValidateMessageIndex (call : IndexCall)
| OpGetSessions (key : string)
| OpGetLatestSession (key : string).

Definition apply_op (store : SQLCryptoStore) (op : StoreOp) : SQLCryptoStore :=
  match op with
  | OpPutGroupSession session => (PutGroupSession store session).2
  | OpRedactGroupSession roomID sessionID reason =>
      (RedactGroupSession store roomID sessionID reason).2
  | OpRedactGroupSessions roomID senderKey reason =>
      (RedactGroupSessions store roomID senderKey reason).2
  | OpRedactExpiredGroupSessions now => (RedactExpiredGroupSessions store now).2
  | OpRedactOutdatedGroupSessions => (RedactOutdatedGroupSessions store).2
  | OpPutWithheldGroupSession content now =>
      (PutWithheldGroupSession store content now).2
  | OpValidateMessageIndex call => (validate_call store call).2
  | OpGetSessions key => (GetSessions store key).2
  | OpGetLatestSession key => (GetLatestSession store key).2
  end.

Lemma exclusive_set_withheld code reason row : exclusive (set_withheld code reason row).
Proof. unfold exclusive. simpl. split; [congruence|discriminate]. Qed.

Lemma store_exclusive_update store where_ code reason :
  store_exclusive store ->
  store_exclusive
    (with_inbound store (sql_update where_ (set_withheld code reason) (inbound store))).
Proof.
  intros Hinv k row. unfold inbound at 1. simpl.
  rewrite lookup_sql_update.
  destruct (inbound store !! k) as [row0|] eqn:Hk; [|discriminate].
  simpl. intros [= <-].
  destruct (where_ k row0); [apply exclusive_set_withheld|].
  apply (Hinv k). exact Hk.
Qed.

Lemma store_exclusive_insert store k row :
  store_exclusive store -> exclusive row ->
  store_exclusive (with_inbound store (<[k := row]> (inbound store))).
Proof.
  intros Hinv Hrow k' row'. unfold inbound at 1. simpl.
  destruct (decide (k = k')) as [->|Hne].
  - rewrite lookup_insert_eq. intros [= <-]. exact Hrow.
  - rewrite lookup_insert_ne by exact Hne. apply Hinv.
Qed.

Lemma store_exclusive_same_inbound store store' :
  inbound store' = inbound store -> store_exclusive store -> store_exclusive store'.
Proof. intros Heq Hinv k row. rewrite Heq. apply Hinv. Qed.

(** A successful [Pickle] returns a slice that is not [nil]. *)
Definition Pickle_not_nil : Prop :=
  forall (g : G) key b, IGS_Pickle g key = Ok b -> b <> None.

Lemma inbound_validate_call store c : inbound (validate_call store c).2 = inbound store.
Proof.
  unfold validate_call, ValidateMessageIndex.
  destruct (validateQuery _ _ _) as [[e t] m].
  destruct (negb _ || negb _); reflexivity.
Qed.

Lemma inbound_getOlmSessionCache store key :
  inbound (getOlmSessionCache store key).2 = inbound store.
Proof. unfold getOlmSessionCache. destruct (_ !! key); reflexivity. Qed.

Lemma inbound_GetSessions store key : inbound (GetSessions store key).2 = inbound store.
Proof.
  unfold GetSessions.
  pose proof (inbound_getOlmSessionCache store key) as Hc.
  destruct (getOlmSessionCache store key) as [cache store1].
  destruct (GetSessions_loop _ _ _ _) as [res cache']. exact Hc.
Qed.

Lemma inbound_GetLatestSession store key :
  inbound (GetLatestSession store key).2 = inbound store.
Proof.
  unfold GetLatestSession.
  destruct (head _) as [[sessionID row]|]; [|reflexivity].
  pose proof (inbound_getOlmSessionCache store key) as Hc.
  destruct (getOlmSessionCache store key) as [cache store1].
  destruct (cache !! sessionID); [exact Hc|].
  destruct (scan_olm_session store1 row); exact Hc.
Qed.

Lemma PutGroupSession_stored store igs store' :
  Pickle_not_nil ->
  PutGroupSession store igs = (None, store') ->
  exists row,
    inbound store' = <[(InboundGroupSession_ID igs, AccountID store) := row]> (inbound store) /\
    session row <> None /\ withheld_code row = None /\ withheld_reason row = None.
Proof.
  intros Hpickle. unfold PutGroupSession.
  destruct (IGS_Pickle _ _) as [b|e] eqn:Hb; [|discriminate].
  destruct (RatchetSafety_Marshal _) as [rs|e]; [|discriminate].
  fold (inbound store).
  destruct (inbound store !! _) as [old|]; intros [= <-].
  - exists (on_conflict_update old (inserted_row igs b rs)).
    split; [reflexivity|]. simpl. split; [|split; reflexivity].
    exact (Hpickle _ _ _ Hb).
  - exists (inserted_row igs b rs).
    split; [reflexivity|]. simpl. split; [|split; reflexivity].
    exact (Hpickle _ _ _ Hb).
Qed.

Lemma PutGroupSession_failed store igs err store' :
  PutGroupSession store igs = (Some err, store') -> store' = store.
Proof.
  unfold PutGroupSession.
  destruct (IGS_Pickle _ _) as [b|e]; [|congruence].
  destruct (RatchetSafety_Marshal _) as [rs|e]; [|congruence].
  destruct (_ !! _); discriminate.
Qed.

Lemma store_exclusive_apply_op store op :
  Pickle_not_nil -> store_exclusive store -> store_exclusive (apply_op store op).
Proof.
  intros Hpickle Hinv.
  destruct op as [igs| | | | |content now'| | | ]; simpl.
  - destruct (PutGroupSession store igs) as [[err|] store'] eqn:Hput.
    + apply PutGroupSession_failed in Hput as ->. exact Hinv.
    + destruct (PutGroupSession_stored _ _ _ Hpickle Hput)
        as (row & Heq & Hs & Hc & _).
      intros k row'. simpl. rewrite Heq.
      destruct (decide ((InboundGroupSession_ID igs, AccountID store) = k))
        as [->|Hne].
      * rewrite lookup_insert_eq. intros [= <-]. split; intros; assumption.
      * rewrite lookup_insert_ne by exact Hne. apply Hinv.
  - apply store_exclusive_update. exact Hinv.
  - unfold RedactGroupSessions. destruct (_ && _); [exact Hinv|].
    apply store_exclusive_update. exact Hinv.
  - unfold RedactExpiredGroupSessions.
    destruct (DB_Dialect (DB store)); simpl;
      [apply store_exclusive_update; exact Hinv ..| exact Hinv].
  - apply store_exclusive_update. exact Hinv.
  - unfold PutWithheldGroupSession. fold (inbound store).
    destruct (inbound store !! _); [exact Hinv|]. simpl.
    apply store_exclusive_insert; [exact Hinv|].
    unfold exclusive. simpl. split; [congruence|discriminate].
  - eapply store_exclusive_same_inbound; [apply inbound_validate_call|exact Hinv].
  - eapply store_exclusive_same_inbound; [apply inbound_GetSessions|exact Hinv].
  - eapply store_exclusive_same_inbound; [apply inbound_GetLatestSession|exact Hinv].
Qed.

(** C3: given that a successful [Pickle] never returns a nil slice, the
    exclusivity invariant (ratchet state non-null iff withheld code null)
    holds of an empty table, is preserved by every store operation and so by
    every sequence of them; a successful [PutGroupSession] leaves a row with
    non-null state and null withheld code and reason; and every row that
    [RedactGroupSession] changes has the redaction code and a null state. *)
Theorem withheld_present_exclusivity :
  Pickle_not_nil ->
  (forall store, inbound store = ∅ -> store_exclusive store) /\
  (forall store op, store_exclusive store -> store_exclusive (apply_op store op)) /\
  (forall ops store,
      store_exclusive store -> store_exclusive (fold_left apply_op ops store)) /\
  (forall store igs store',
      PutGroupSession store igs = (None, store') ->
      exists row,
        inbound store' !! (InboundGroupSession_ID igs, AccountID store) = Some row /\
        session row <> None /\ withheld_code row = None /\ withheld_reason row = None) /\
  (forall store roomID sessionID reason k row',
      inbound (RedactGroupSession store roomID sessionID reason).2 !! k = Some row' ->
      inbound store !! k = Some row' \/
      (withheld_code row' = Some RoomKeyWithheldBeeperRedacted /\
       withheld_reason row' = Some ("Session redacted: " ++ reason)%string /\
       session row' = None)).
Proof.
  intros Hpickle.
  assert (Hstep : forall store op,
             store_exclusive store -> store_exclusive (apply_op store op)).
  { intros store op. apply store_exclusive_apply_op. exact Hpickle. }
  split; [|split; [exact Hstep|split; [|split]]].
  - intros store Hempty k row. rewrite Hempty, lookup_empty. discriminate.
  - induction ops as [|op ops IH]; intros store Hinv; [exact Hinv|].
    simpl. apply IH, Hstep, Hinv.
  - intros store igs store' Hput.
    destruct (PutGroupSession_stored _ _ _ Hpickle Hput) as (row & Heq & Hrow).
    exists row. split; [|exact Hrow]. rewrite Heq. apply lookup_insert_eq.
  - intros store roomID sessionID reason k row'.
    unfold RedactGroupSession, inbound at 1. simpl.
    rewrite lookup_sql_update. fold (inbound store).
    destruct (inbound store !! k) as [row|]; [|discriminate]. simpl.
    destruct (redact_where store sessionID k row); intros [= <-].
    + right. simpl. repeat split; reflexivity.
    + left. reflexivity.
Qed.

(** *** Redaction is idempotent *)

Lemma redact_where_set_withheld store sessionID k code reason row :
  redact_where store sessionID k (set_withheld code reason row) = false.
Proof. unfold redact_where. simpl. apply andb_false_r. Qed.

Lemma RedactGroupSession_redacts store roomID sessionID reason row :
  inbound store !! (sessionID, AccountID store) = Some row ->
  session row <> None ->
  inbound (RedactGroupSession store roomID sessionID reason).2
    !! (sessionID, AccountID store) =
  Some (set_withheld RoomKeyWithheldBeeperRedacted
          ("Session redacted: " ++ reason) row).
Proof.
  intros Hk Hs. unfold RedactGroupSession, inbound at 1. simpl.
  rewrite lookup_sql_update. fold (inbound store). rewrite Hk. simpl.
  unfold redact_where. simpl. rewrite !bool_decide_eq_true_2 by reflexivity.
  destruct (session row); [reflexivity|contradiction].
Qed.

Lemma RedactGroupSession_again store roomID sessionID reason roomID' reason' :
  (RedactGroupSession
     (RedactGroupSession store roomID sessionID reason).2
     roomID' sessionID reason').2 =
  (RedactGroupSession store roomID sessionID reason).2.
Proof.
  unfold RedactGroupSession. simpl. unfold with_inbound, with_DB. simpl.
  f_equal. unfold set_megolm_inbound_session. simpl. f_equal.
  apply map_eq. intros k. rewrite !lookup_sql_update.
  destruct (crypto_megolm_inbound_session (DB store) !! k) as [row|];
    [|reflexivity].
  simpl. f_equal.
  destruct (redact_where store sessionID k row) eqn:Hw.
  - unfold redact_where. simpl. rewrite andb_false_r. reflexivity.
  - unfold redact_where in *. simpl. rewrite Hw. reflexivity.
Qed.

(** C7: a second [RedactGroupSession] for the same session-id reports no
    error and leaves the store exactly as the first call left it; for a row
    that held a session this is the withheld state with the redaction code,
    the first call's reason and a null session. *)
Theorem RedactGroupSession_idempotent store roomID sessionID reason :
  let once := RedactGroupSession store roomID sessionID reason in
  let twice := RedactGroupSession once.2 roomID sessionID reason in
  once.1 = None /\ twice.1 = None /\ twice.2 = once.2 /\
  forall row,
    inbound store !! (sessionID, AccountID store) = Some row ->
    session row <> None ->
    exists row',
      inbound once.2 !! (sessionID, AccountID store) = Some row' /\
      inbound twice.2 !! (sessionID, AccountID store) = Some row' /\
      withheld_code row' = Some RoomKeyWithheldBeeperRedacted /\
      withheld_reason row' = Some ("Session redacted: " ++ reason)%string /\
      session row' = None.
Proof.
  cbv zeta. split; [reflexivity|]. split; [reflexivity|].
  split; [apply RedactGroupSession_again|].
  intros row Hk Hs.
  exists (set_withheld RoomKeyWithheldBeeperRedacted ("Session redacted: " ++ reason) row).
  rewrite RedactGroupSession_again.
  rewrite (RedactGroupSession_redacts _ _ _ _ _ Hk Hs).
  repeat split; reflexivity.
Qed.

(** *** The three answers of GetGroupSession *)

(** The row that [GetGroupSession] selects:
    [WHERE room_id=$1 AND session_id=$2 AND account_id=$3]. *)
Definition group_session_row (store : SQLCryptoStore) (roomID sessionID : string)
  : option MegolmInboundRow :=
  match inbound store !! (sessionID, AccountID store) with
  | Some row => if bool_decide (room_id row = roomID) then Some row else None
  | None => None
  end.

Lemma GetGroupSession_no_row store roomID sessionID :
  group_session_row store roomID sessionID = None ->
  GetGroupSession store roomID sessionID = Ok None.
Proof.
  unfold group_session_row, GetGroupSession. fold (inbound store).
  destruct (inbound store !! _) as [row|]; [|reflexivity].
  destruct (bool_decide (room_id row = roomID)); [discriminate|reflexivity].
Qed.

Lemma GetGroupSession_withheld store roomID sessionID row code :
  group_session_row store roomID sessionID = Some row ->
  withheld_code row = Some code ->
  GetGroupSession store roomID sessionID =
  Err (Withheld
         {| wh_RoomID := roomID;
            wh_Algorithm := AlgorithmMegolmV1;
            wh_SessionID := sessionID;
            wh_SenderKey := NullString_String (sender_key row);
            wh_Code := code;
            wh_Reason := NullString_String (withheld_reason row) |}).
Proof.
  unfold group_session_row, GetGroupSession. fold (inbound store).
  destruct (inbound store !! _) as [row0|]; [|discriminate].
  destruct (bool_decide (room_id row0 = roomID)); [|discriminate].
  intros [= ->] Hcode. simpl. rewrite Hcode. reflexivity.
Qed.

Lemma GetGroupSession_session store roomID sessionID igs :
  GetGroupSession store roomID sessionID = Ok (Some igs) ->
  exists row,
    group_session_row store roomID sessionID = Some row /\
    withheld_code row = None /\
    IGS_Unpickle (session row) (PickleKey store) = Ok (igs_Internal igs).
Proof.
  unfold group_session_row, GetGroupSession. fold (inbound store).
  destruct (inbound store !! _) as [row|]; [|discriminate].
  destruct (bool_decide (room_id row = roomID)); [|discriminate]. simpl.
  destruct (withheld_code row) eqn:Hcode; [discriminate|].
  unfold postScanInboundGroupSession.
  destruct (IGS_Unpickle _ _) as [g|e] eqn:Hun; [|discriminate].
  intros Hget.
  assert (Hg : igs_Internal igs = g).
  { destruct (ratchet_safety row) as [[|b bs]|];
      [| destruct (RatchetSafety_Unmarshal _); [|discriminate] |];
      injection Hget as <-; reflexivity. }
  exists row. rewrite Hg. split; [reflexivity|]. split; [exact Hcode|exact Hun].
Qed.

(** C10: with no row for the (room, session-id) pair the result is a nil
    session and a nil error; with a row that has a withheld code it is a nil
    session and an error carrying the stored code and reason; and, in a store
    that satisfies the exclusivity invariant, a non-nil session comes only
    from a row whose ratchet state is non-null (and whose withheld code is
    null). *)
Theorem GetGroupSession_three_states store roomID sessionID :
  (group_session_row store roomID sessionID = None ->
   GetGroupSession store roomID sessionID = Ok None) /\
  (forall row code,
      group_session_row store roomID sessionID = Some row ->
      withheld_code row = Some code ->
      exists content,
        GetGroupSession store roomID sessionID = Err (Withheld content) /\
        wh_Code content = code /\
        wh_Reason content = NullString_String (withheld_reason row) /\
        wh_RoomID content = roomID /\ wh_SessionID content = sessionID) /\
  (forall igs,
      store_exclusive store ->
      GetGroupSession store roomID sessionID = Ok (Some igs) ->
      exists row,
        group_session_row store roomID sessionID = Some row /\
        session row <> None /\ withheld_code row = None).
Proof.
  split; [apply GetGroupSession_no_row|]. split.
  - intros row code Hrow Hcode.
    eexists. split; [apply (GetGroupSession_withheld _ _ _ _ _ Hrow Hcode)|].
    repeat split; reflexivity.
  - intros igs Hinv Hget.
    destruct (GetGroupSession_session _ _ _ _ Hget) as (row & Hrow & Hcode & _).
    exists row. split; [exact Hrow|]. split; [|exact Hcode].
    assert (Hk : inbound store !! (sessionID, AccountID store) = Some row).
    { unfold group_session_row in Hrow.
      destruct (inbound store !! _) as [row0|]; [|discriminate].
      destruct (bool_decide _); [congruence|discriminate]. }
    apply (Hinv _ _ Hk). exact Hcode.
Qed.

(** *** Which sessions the sweeping redactions take *)

(** The expiry tests as propositions, times in microseconds and [max_age] in
    milliseconds. *)
Definition dialect_expiry (d : Dialect) (now recv maxage : Z) : Prop :=
  match d with
  | Postgres => recv + 2 * (maxage * 1000) < now
  | SQLite =>
      recv / 1000000 + Z.quot (2 * maxage) 1000
      < now / 86400000000 * 86400000000 / 1000000
  | UnknownDialect => False
  end.

(** A row that [RedactExpiredGroupSessions] selects within its account. *)
Definition expired_row (d : Dialect) (now : Z) (row : MegolmInboundRow) : Prop :=
  session row <> None /\ is_scheduled row = false /\
  exists recv maxage,
    received_at row = Some recv /\ max_age row = Some maxage /\
    dialect_expiry d now recv maxage.

(** A row that [RedactOutdatedGroupSessions] selects within its account. *)
Definition outdated_row (row : MegolmInboundRow) : Prop :=
  session row <> None /\ received_at row = None.

(** [store'] is [store] with exactly the rows of the store's account that
    satisfy [P] turned into withheld records, and [ids] are their session
    IDs. *)
Definition redacts_exactly (store store' : SQLCryptoStore) (ids : list string)
    (reason : string) (P : MegolmInboundRow -> Prop) : Prop :=
  NoDup ids /\
  (forall sid,
      sid ∈ ids <->
      exists row, inbound store !! (sid, AccountID store) = Some row /\ P row) /\
  (forall k row,
      inbound store !! k = Some row -> k.2 = AccountID store -> P row ->
      inbound store' !! k =
      Some (set_withheld RoomKeyWithheldBeeperRedacted reason row)) /\
  (forall k row,
      inbound store !! k = Some row -> ~ (k.2 = AccountID store /\ P row) ->
      inbound store' !! k = Some row) /\
  (forall k, inbound store !! k = None -> inbound store' !! k = None).

Lemma is_not_null_true {A} (c : option A) : is_not_null c = true <-> c <> None.
Proof. destruct c; simpl; split; congruence. Qed.

Lemma is_null_true {A} (c : option A) : is_null c = true <-> c = None.
Proof. unfold is_null. destruct c; simpl; split; intros; congruence. Qed.

Lemma redact_statement_exact store where_ reason (P : MegolmInboundRow -> Prop) :
  (forall k row, where_ k row = true <-> k.2 = AccountID store /\ P row) ->
  redacts_exactly store
    (with_inbound store
       (sql_update where_ (set_withheld RoomKeyWithheldBeeperRedacted reason)
          (inbound store)))
    (sql_returning where_ (fun k _ => k.1) (inbound store))
    reason P.
Proof.
  intros Hw. unfold redacts_exactly. split; [|split; [|split; [|split]]].
  - apply NoDup_sql_returning. intros [s1 a1] v1 [s2 a2] v2 H1 H2 Hs.
    apply Hw in H1 as [H1 _]. apply Hw in H2 as [H2 _]. simpl in *. congruence.
  - intros sid. rewrite elem_of_sql_returning. split.
    + intros ([s a] & row & Hk & Hsel & Hcol). simpl in Hcol. subst s.
      apply Hw in Hsel as [Ha HP]. simpl in Ha. subst a. exists row. auto.
    + intros (row & Hk & HP). exists (sid, AccountID store), row.
      split; [exact Hk|]. split; [|reflexivity]. apply Hw. auto.
  - intros k row Hk Ha HP. unfold inbound at 1. simpl.
    rewrite lookup_sql_update, Hk. simpl.
    rewrite (proj2 (Hw k row) (conj Ha HP)). reflexivity.
  - intros k row Hk Hnot. unfold inbound at 1. simpl.
    rewrite lookup_sql_update, Hk. simpl.
    destruct (where_ k row) eqn:Hsel; [|reflexivity].
    apply Hw in Hsel. contradiction.
  - intros k Hk. unfold inbound at 1. simpl.
    rewrite lookup_sql_update, Hk. reflexivity.
Qed.

Lemma expired_where_iff store now expired d k row :
  (forall recv maxage, expired recv maxage = true <-> dialect_expiry d now recv maxage) ->
  expired_where store expired k row = true <->
  k.2 = AccountID store /\ expired_row d now row.
Proof.
  intros Hexp. unfold expired_where, expired_row.
  rewrite !andb_true_iff, bool_decide_eq_true, is_not_null_true, negb_true_iff.
  destruct (received_at row) as [recv|], (max_age row) as [maxage|].
  - rewrite Hexp. split.
    + intros [[[Ha Hs] Hsch] He]. repeat split; try assumption.
      exists recv, maxage. auto.
    + intros [Ha [Hs [Hsch (r & m & [= <-] & [= <-] & He)]]]. auto.
  - split; [intros [_ ?]; discriminate|].
    intros [_ [_ [_ (r & m & _ & ? & _)]]]. discriminate.
  - split; [intros [_ ?]; discriminate|].
    intros [_ [_ [_ (r & m & ? & _)]]]. discriminate.
  - split; [intros [_ ?]; discriminate|].
    intros [_ [_ [_ (r & m & ? & _)]]]. discriminate.
Qed.

Lemma outdated_where_iff store k row :
  outdated_where store k row = true <-> k.2 = AccountID store /\ outdated_row row.
Proof.
  unfold outdated_where, outdated_row.
  rewrite !andb_true_iff, bool_decide_eq_true, is_not_null_true, is_null_true.
  tauto.
Qed.

(** C5, as the code has it: [RedactExpiredGroupSessions] turns into withheld
    records exactly those inbound group sessions of the store's account that
    have non-null state, are not scheduled, have both a receipt timestamp
    and a max_age recorded and pass the dialect's expiry test; on a dialect
    it does not know it fails and changes nothing.
    [RedactOutdatedGroupSessions] turns into withheld records exactly those
    of the store's account with non-null state and no receipt timestamp.
    Each returns the session IDs it redacted, once each. *)
Theorem sweeping_redactions_exact store now :
  (DB_Dialect (DB store) <> UnknownDialect ->
   exists ids store',
     RedactExpiredGroupSessions store now = (Ok ids, store') /\
     redacts_exactly store store' ids "Session redacted: expired"
       (expired_row (DB_Dialect (DB store)) now)) /\
  (DB_Dialect (DB store) = UnknownDialect ->
   exists err, RedactExpiredGroupSessions store now = (Err err, store)) /\
  (exists ids store',
     RedactOutdatedGroupSessions store = (Ok ids, store') /\
     redacts_exactly store store' ids "Session redacted: outdated" outdated_row).
Proof.
  split; [|split].
  - intros Hd. unfold RedactExpiredGroupSessions.
    destruct (DB_Dialect (DB store)) eqn:Hdialect; [| |contradiction].
    + eexists _, _. split; [reflexivity|].
      apply redact_statement_exact. intros k row.
      apply expired_where_iff. intros recv maxage.
      unfold postgres_expired. simpl. apply Z.ltb_lt.
    + eexists _, _. split; [reflexivity|].
      apply redact_statement_exact. intros k row.
      apply expired_where_iff. intros recv maxage.
      unfold sqlite_expired, sqlite_unixepoch, sqlite_date. simpl. apply Z.ltb_lt.
  - intros Hd. unfold RedactExpiredGroupSessions. rewrite Hd. eexists. reflexivity.
  - eexists _, _. split; [reflexivity|].
    apply redact_statement_exact. intros k row. apply outdated_where_iff.
Qed.

(** *** The order of the Olm sessions *)

#[local] Instance last_decrypted_desc_total : Total last_decrypted_desc.
Proof. intros a b. unfold last_decrypted_desc. lia. Qed.

#[local] Instance last_decrypted_desc_trans : Transitive last_decrypted_desc.
Proof. intros a b c. unfold last_decrypted_desc. lia. Qed.

Lemma elem_of_select_olm_sessions store key sid row :
  (sid, row) ∈ select_olm_sessions store key <->
  crypto_olm_session (DB store) !! (AccountID store, sid) = Some row /\
  os_sender_key row = key.
Proof.
  unfold select_olm_sessions. rewrite merge_sort_Permutation, list_elem_of_omap.
  split.
  - intros ([[acct sid'] row'] & Hin & Hsel).
    apply elem_of_map_to_list in Hin. unfold olm_session_matches in Hsel.
    simpl in Hsel.
    destruct (bool_decide_reflect (os_sender_key row' = key)) as [Hkey|];
      [|discriminate].
    destruct (bool_decide_reflect (acct = AccountID store)) as [->|];
      [|discriminate].
    simpl in Hsel. injection Hsel as -> ->. auto.
  - intros [Hk Hkey]. exists (AccountID store, sid, row).
    split; [apply elem_of_map_to_list; exact Hk|].
    unfold olm_session_matches. simpl.
    rewrite !bool_decide_eq_true_2 by auto. reflexivity.
Qed.

Lemma NoDup_matching_session_ids store key (l : list (string * string * OlmSessionRow)) :
  NoDup l.*1 -> NoDup (omap (olm_session_matches store key) l).*1.
Proof.
  induction l as [|[[acct sid] row] l IH]; [constructor|].
  simpl. intros Hnd. apply NoDup_cons in Hnd as [Hnotin Hnd].
  unfold olm_session_matches at 1. simpl.
  destruct (bool_decide (os_sender_key row = key)); [|apply IH; exact Hnd].
  destruct (bool_decide_reflect (acct = AccountID store)) as [->|];
    [|apply IH; exact Hnd].
  simpl. apply NoDup_cons. split; [|apply IH; exact Hnd].
  intros Hin. apply list_elem_of_fmap in Hin as ([sid' row'] & Hsid & Hin).
  simpl in Hsid. subst sid'.
  apply list_elem_of_omap in Hin as ([[acct' sid'] row''] & Hin & Hsel).
  unfold olm_session_matches in Hsel. simpl in Hsel.
  destruct (bool_decide (os_sender_key row'' = key)); [|discriminate].
  destruct (bool_decide_reflect (acct' = AccountID store)) as [->|];
    [|discriminate].
  simpl in Hsel. injection Hsel as -> ->.
  apply Hnotin. apply list_elem_of_fmap.
  exists (AccountID store, sid, row'). split; [reflexivity|exact Hin].
Qed.

Lemma NoDup_select_olm_sessions store key :
  NoDup (select_olm_sessions store key).*1.
Proof.
  unfold select_olm_sessions. rewrite merge_sort_Permutation.
  apply NoDup_matching_session_ids, NoDup_fst_map_to_list.
Qed.

(** Where a returned session comes from: the cache entry for the row's
    session ID or, without one, the row itself. *)
Definition origin (store : SQLCryptoStore) (cache : gmap string OlmSession)
    (r : string * OlmSessionRow) (sess : OlmSession) : Prop :=
  cache !! r.1 = Some sess \/
  (cache !! r.1 = None /\ scan_olm_session store r.2 = Ok sess).

Definition sender_cache (store : SQLCryptoStore) (key : string) : gmap string OlmSession :=
  default ∅ (olmSessionCache store !! key).

Definition cached_or_scanned (store : SQLCryptoStore) (key : string)
    (r : string * OlmSessionRow) (sess : OlmSession) : Prop :=
  origin store (sender_cache store key) r sess.

(** Every pickle of the sender unpickles to a session with the ID the row is
    stored under. *)
Definition pickles_coherent (store : SQLCryptoStore) (key : string) : Prop :=
  forall sid row sess,
    (sid, row) ∈ select_olm_sessions store key ->
    scan_olm_session store row = Ok sess -> OlmSession_ID sess = sid.

Lemma GetSessions_loop_head store rows : forall cache acc l cache',
  GetSessions_loop store rows cache acc = (Ok l, cache') ->
  exists l',
    l = acc ++ l' /\ length l' = length rows /\
    match rows, l' with
    | r :: _, sess :: _ => origin store cache r sess
    | [], [] => True
    | _, _ => False
    end.
Proof.
  induction rows as [|[sid row] rows IH]; intros cache acc l cache' Hloop.
  - injection Hloop as <- <-. exists []. rewrite app_nil_r. auto.
  - simpl in Hloop. destruct (cache !! sid) as [existing|] eqn:Hc.
    + apply IH in Hloop as (l' & -> & Hlen & _).
      exists (existing :: l'). rewrite <- app_assoc. simpl.
      split; [reflexivity|]. split; [lia|]. left. exact Hc.
    + destruct (scan_olm_session store row) as [sess|e] eqn:Hscan; [|discriminate].
      apply IH in Hloop as (l' & -> & Hlen & _).
      exists (sess :: l'). rewrite <- app_assoc. simpl.
      split; [reflexivity|]. split; [lia|]. right. auto.
Qed.

Lemma Forall2_origin_agree store c1 c2 rows l :
  (forall sid, sid ∈ rows.*1 -> c1 !! sid = c2 !! sid) ->
  Forall2 (origin store c1) rows l -> Forall2 (origin store c2) rows l.
Proof.
  intros Hagree HF. induction HF as [|r sess rows l Ho HF IH]; [constructor|].
  constructor.
  - unfold origin in *. rewrite <- (Hagree r.1) by (simpl; left). exact Ho.
  - apply IH. intros sid Hin. apply Hagree. simpl. right. exact Hin.
Qed.

Lemma GetSessions_loop_origin store rows : forall cache acc l cache',
  NoDup rows.*1 ->
  (forall sid row sess, (sid, row) ∈ rows ->
     scan_olm_session store row = Ok sess -> OlmSession_ID sess = sid) ->
  GetSessions_loop store rows cache acc = (Ok l, cache') ->
  exists l', l = acc ++ l' /\ Forall2 (origin store cache) rows l'.
Proof.
  induction rows as [|[sid row] rows IH]; intros cache acc l cache' Hnd Hid Hloop.
  - injection Hloop as <- <-. exists []. rewrite app_nil_r. auto.
  - simpl in Hnd. apply NoDup_cons in Hnd as [Hnotin Hnd].
    assert (Hid' : forall sid' row' sess, (sid', row') ∈ rows ->
              scan_olm_session store row' = Ok sess -> OlmSession_ID sess = sid').
    { intros sid' row' sess Hin. apply Hid. right. exact Hin. }
    simpl in Hloop. destruct (cache !! sid) as [existing|] eqn:Hc.
    + apply (IH _ _ _ _ Hnd Hid') in Hloop as (l' & -> & HF).
      exists (existing :: l'). rewrite <- app_assoc. simpl.
      split; [reflexivity|]. constructor; [left; exact Hc|exact HF].
    + destruct (scan_olm_session store row) as [sess|e] eqn:Hscan; [|discriminate].
      rewrite (Hid sid row sess) in Hloop by (auto; left).
      apply (IH _ _ _ _ Hnd Hid') in Hloop as (l' & -> & HF).
      exists (sess :: l'). rewrite <- app_assoc. simpl.
      split; [reflexivity|]. constructor; [right; auto|].
      apply (Forall2_origin_agree store (<[sid:=sess]> cache)); [|exact HF].
      intros sid' Hin. apply lookup_insert_ne. intros ->. contradiction.
Qed.

Lemma getOlmSessionCache_cache store key :
  (getOlmSessionCache store key).1 = sender_cache store key.
Proof.
  unfold getOlmSessionCache, sender_cache.
  destruct (olmSessionCache store !! key); reflexivity.
Qed.

Lemma scan_olm_session_getOlmSessionCache store key row :
  scan_olm_session (getOlmSessionCache store key).2 row = scan_olm_session store row.
Proof.
  unfold getOlmSessionCache. destruct (olmSessionCache store !! key); reflexivity.
Qed.

Lemma GetSessions_loop_store store store' rows :
  PickleKey store' = PickleKey store ->
  forall cache acc,
    GetSessions_loop store' rows cache acc = GetSessions_loop store rows cache acc.
Proof.
  intros Hpk. induction rows as [|[sid row] rows IH]; intros cache acc; [reflexivity|].
  simpl. unfold scan_olm_session. rewrite Hpk.
  destruct (cache !! sid); [apply IH|].
  destruct (Session_Unpickle _ _); [|reflexivity]. simpl. apply IH.
Qed.

Lemma GetSessions_result store key :
  (GetSessions store key).1 =
  (GetSessions_loop store (select_olm_sessions store key) (sender_cache store key) []).1.
Proof.
  unfold GetSessions. rewrite <- getOlmSessionCache_cache.
  assert (Hpk : PickleKey (getOlmSessionCache store key).2 = PickleKey store).
  { unfold getOlmSessionCache. destruct (_ !! key); reflexivity. }
  destruct (getOlmSessionCache store key) as [cache store1]. simpl in *.
  rewrite (GetSessions_loop_store store store1 _ Hpk).
  destruct (GetSessions_loop _ _ _ _). reflexivity.
Qed.

Lemma GetLatestSession_head store key l :
  (GetSessions store key).1 = Ok l ->
  (GetLatestSession store key).1 = Ok (head l).
Proof.
  rewrite GetSessions_result. unfold GetLatestSession.
  destruct (GetSessions_loop _ _ _ _) as [res cache'] eqn:Hloop. simpl.
  intros ->. apply GetSessions_loop_head in Hloop as (l' & -> & Hlen & Hhead).
  simpl. destruct (select_olm_sessions store key) as [|[sid row] rows].
  - destruct l'; [reflexivity|contradiction].
  - destruct l' as [|sess l']; [contradiction|]. simpl.
    pose proof (getOlmSessionCache_cache store key) as Hc.
    pose proof (scan_olm_session_getOlmSessionCache store key row) as Hs.
    destruct (getOlmSessionCache store key) as [cache store1]. simpl in *.
    subst cache. destruct Hhead as [Hhit|[Hmiss Hscan]]; simpl in *.
    + rewrite Hhit. reflexivity.
    + rewrite Hmiss, Hs, Hscan. reflexivity.
Qed.

(** C4: the rows [GetSessions] reads are exactly the stored sessions of the
    sender key in the store's account, each once, in descending order of
    their stored last-decrypted time; a successful [GetSessions] returns one
    session per row, in that order (the cached session of the row's ID, or
    the row unpickled, when every pickle carries the ID it is stored under);
    and [GetLatestSession] returns the head of that list, or no session and
    no error when there is no row. *)
Theorem GetSessions_order_GetLatestSession_head store key :
  let rows := select_olm_sessions store key in
  StronglySorted last_decrypted_desc rows /\
  NoDup rows.*1 /\
  (forall sid row,
      (sid, row) ∈ rows <->
      crypto_olm_session (DB store) !! (AccountID store, sid) = Some row /\
      os_sender_key row = key) /\
  (rows = [] -> GetLatestSession store key = (Ok None, store)) /\
  (forall l,
      (GetSessions store key).1 = Ok l ->
      length l = length rows /\
      (GetLatestSession store key).1 = Ok (head l) /\
      (pickles_coherent store key ->
       Forall2 (cached_or_scanned store key) rows l)).
Proof.
  cbv zeta. split; [|split; [|split; [|split]]].
  - unfold select_olm_sessions. apply StronglySorted_merge_sort; apply _.
  - apply NoDup_select_olm_sessions.
  - intros sid row. apply elem_of_select_olm_sessions.
  - intros Hrows. unfold GetLatestSession. rewrite Hrows. reflexivity.
  - intros l Hget. split; [|split].
    + rewrite GetSessions_result in Hget.
      destruct (GetSessions_loop _ _ _ _) as [res cache'] eqn:Hloop.
      simpl in Hget. subst res.
      apply GetSessions_loop_head in Hloop as (l' & -> & Hlen & _). exact Hlen.
    + apply GetLatestSession_head. exact Hget.
    + intros Hcoh. rewrite GetSessions_result in Hget.
      destruct (GetSessions_loop _ _ _ _) as [res cache'] eqn:Hloop.
      simpl in Hget. subst res.
      apply GetSessions_loop_origin in Hloop as (l' & -> & HF);
        [exact HF|apply NoDup_select_olm_sessions|exact Hcoh].
Qed.

End SQLCryptoStore.

(** *** A test backend and a small store

    In the test backend a session is its ID and pickles as the characters of
    the ID; an empty pickle key is refused, as the olm backends do. *)

Definition bytes_of_string (s : string) : list Z :=
  map (fun c => Z.of_nat (nat_of_ascii c)) (list_ascii_of_string s).

Definition string_of_bytes (b : list Z) : string :=
  string_of_list_ascii (map (fun z => ascii_of_nat (Z.to_nat z)) b).

Definition test_Pickle (s : string) (key : list Z) : Result error GoBytes :=
  match key with
  | [] => Err (BackendError "NO_KEY_PROVIDED")
  | _ => Ok (Some (bytes_of_string s))
  end.

#[local] Instance test_Session : olm_Session string := {|
  Session_ID := fun s => s;
  Session_Unpickle := fun b key =>
    match key with
    | [] => Err (BackendError "NO_KEY_PROVIDED")
    | _ => Ok (string_of_bytes b)
    end
|}.

#[local] Instance test_InboundGroupSession : olm_InboundGroupSession string := {|
  IGS_ID := fun s => s;
  IGS_Pickle := test_Pickle;
  IGS_Unpickle := fun b key =>
    match key, b with
    | [], _ => Err (BackendError "NO_KEY_PROVIDED")
    | _, None => Err (BackendError "INPUT_BUFFER_TOO_SMALL")
    | _, Some b => Ok (string_of_bytes b)
    end
|}.

#[local] Instance test_RatchetSafety : RatchetSafetyJSON unit := {|
  RatchetSafety_zero := tt;
  RatchetSafety_Marshal := fun _ => Ok (bytes_of_string "{}");
  RatchetSafety_Unmarshal := fun _ => Ok tt
|}.

Definition test_olm_row (sid : string) (last_decrypted : Z) : OlmSessionRow :=
  {| os_sender_key := "senderA";
     os_session := bytes_of_string sid;
     os_created_at := 10;
     os_last_encrypted := 20;
     os_last_decrypted := last_decrypted |}.

Definition test_inbound_row (sid : string) (scheduled : bool)
    (received maxage : option Z) : MegolmInboundRow :=
  {| sender_key := Some "senderA"%string;
     signing_key := Some "signA"%string;
     room_id := "!room";
     session := Some (bytes_of_string sid);
     forwarding_chains := Some EmptyString;
     withheld_code := None;
     withheld_reason := None;
     ratchet_safety := Some (bytes_of_string "{}");
     received_at := received;
     max_age := maxage;
     max_messages := Some 100;
     is_scheduled := scheduled;
     key_backup_version := EmptyString |}.

(** Three Olm sessions of one sender, and three inbound group sessions: an
    old one that is scheduled, an old one that is not, and one without a
    receipt time. *)
Definition test_db : Database :=
  {| DB_Dialect := Postgres;
     crypto_olm_session :=
       <[("acct", "s1")%string := test_olm_row "s1" 30]>
       (<[("acct", "s2")%string := test_olm_row "s2" 50]>
       (<[("acct", "s3")%string := test_olm_row "s3" 40]> ∅));
     crypto_megolm_inbound_session :=
       <[("g1", "acct")%string := test_inbound_row "g1" true (Some 0) (Some 1000)]>
       (<[("g2", "acct")%string := test_inbound_row "g2" false (Some 0) (Some 1000)]>
       (<[("g3", "acct")%string := test_inbound_row "g3" false None (Some 1000)]> ∅));
     crypto_message_index := ∅ |}.

Definition test_store : @SQLCryptoStore string :=
  {| DB := test_db;
     AccountID := "acct";
     PickleKey := [1; 2; 3];
     olmSessionCache := ∅ |}.

Definition test_session (sid : string) (last_decrypted : Z) : @OlmSession string :=
  {| Internal := sid; CreationTime := 10; LastEncryptedTime := 20;
     LastDecryptedTime := last_decrypted |}.

Example test_GetSessions :
  (GetSessions test_store "senderA").1 =
  Ok [test_session "s2" 50; test_session "s3" 40; test_session "s1" 30].
Proof. vm_compute. reflexivity. Qed.

Definition test_redacted_code : string := "com.beeper.redacted".
Definition test_algorithm : string := "m.megolm.v1.aes-sha2".

Lemma test_Pickle_not_nil : Pickle_not_nil (G := string).
Proof.
  intros g key b. simpl. unfold test_Pickle.
  destruct key; [discriminate|]. intros [= <-]. discriminate.
Qed.

Lemma store_exclusive_test_store : store_exclusive test_store.
Proof.
  intros k row Hk. apply elem_of_map_to_list in Hk.
  vm_compute in Hk. apply list_elem_of_In in Hk. simpl in Hk.
  destruct Hk as [Hk|[Hk|[Hk|[]]]]; injection Hk as <- <-;
    split; [reflexivity|discriminate|reflexivity|discriminate|reflexivity|discriminate].
Qed.

Lemma ValidateMessageIndex_first_binding_wins_witness :
  ledger test_store !! ("senderA", "sess7", 3)%string = None /\
  let first := ValidateMessageIndex test_store "senderA" "sess7" "$eventA" 3 1000 in
  first.1 = Ok true /\
  (ValidateMessageIndex first.2 "senderA" "sess7" "$eventB" 3 2000).1 = Ok false /\
  (ValidateMessageIndex first.2 "senderA" "sess7" "$eventA" 3 1000).1 = Ok true.
Proof.
  assert (Hnone : ledger test_store !! ("senderA", "sess7", 3)%string = None)
    by reflexivity.
  split; [exact Hnone|].
  pose proof (ValidateMessageIndex_first_binding_wins
                test_store "senderA" "sess7" 3 "$eventA" 1000 Hnone) as Hthm.
  cbv zeta in *. destruct Hthm as (Hfirst & _ & Hlater).
  split; [exact Hfirst|]. split.
  - destruct (Hlater [] "$eventB"%string 2000) as (_ & Hagain & _).
    exact Hagain.
  - destruct (Hlater [] "$eventA"%string 1000) as (_ & Hagain & _).
    exact Hagain.
Defined.

Definition test_group_session : @InboundGroupSession string unit :=
  {| igs_Internal := "g2"; SigningKey := "signA"; SenderKey := "senderA";
     RoomID := "!room"; ForwardingChains := []; RatchetSafety := tt;
     ReceivedAt := 5000; MaxAge := 1000; MaxMessages := 100;
     IsScheduled := false; KeyBackupVersion := EmptyString |}.

Definition test_ops : list (@StoreOp string unit) :=
  [OpRedactGroupSession "!room" "g2" "requested";
   OpPutGroupSession test_group_session;
   OpRedactExpiredGroupSessions 10000000000;
   OpRedactOutdatedGroupSessions;
   OpPutWithheldGroupSession
     {| wh_RoomID := "!room"; wh_Algorithm := test_algorithm;
        wh_SessionID := "g4"; wh_SenderKey := "senderA";
        wh_Code := "m.unverified"; wh_Reason := "not verified" |} 7000].

Lemma withheld_present_exclusivity_witness :
  Pickle_not_nil (G := string) /\
  store_exclusive (fold_left (apply_op test_redacted_code) test_ops test_store) /\
  exists row,
    inbound (PutGroupSession test_store test_group_session).2
      !! ("g2", "acct")%string = Some row /\
    session row <> None /\ withheld_code row = None /\ withheld_reason row = None.
Proof.
  split; [exact test_Pickle_not_nil|].
  destruct (withheld_present_exclusivity test_redacted_code test_Pickle_not_nil)
    as (_ & _ & Hops & Hput & _).
  split.
  - apply Hops. exact store_exclusive_test_store.
  - apply (Hput test_store test_group_session _ eq_refl).
Defined.

Lemma RedactGroupSession_idempotent_witness :
  let once := RedactGroupSession test_redacted_code test_store "!room" "g2" "requested" in
  let twice := RedactGroupSession test_redacted_code once.2 "!room" "g2" "requested" in
  twice.2 = once.2 /\
  exists row',
    inbound twice.2 !! ("g2", "acct")%string = Some row' /\
    withheld_code row' = Some test_redacted_code /\ session row' = None.
Proof.
  pose proof (RedactGroupSession_idempotent test_redacted_code
                test_store "!room" "g2" "requested") as Hthm.
  cbv zeta in *. destruct Hthm as (_ & _ & Hsame & Hrow).
  split; [exact Hsame|].
  destruct (Hrow (test_inbound_row "g2" false (Some 0) (Some 1000)) eq_refl)
    as (row' & _ & Htwice & Hcode & _ & Hsession); [discriminate|].
  exists row'. auto.
Defined.

Lemma GetGroupSession_three_states_witness :
  store_exclusive test_store /\
  (exists igs, GetGroupSession test_algorithm test_store "!room" "g1" = Ok (Some igs)) /\
  exists row,
    group_session_row test_store "!room" "g1" = Some row /\
    session row <> None /\ withheld_code row = None.
Proof.
  split; [exact store_exclusive_test_store|].
  split; [eexists; vm_compute; reflexivity|].
  destruct (GetGroupSession_three_states test_algorithm test_store "!room" "g1")
    as (_ & _ & Hsession).
  eapply Hsession; [exact store_exclusive_test_store|].
  vm_compute. reflexivity.
Defined.

(** The reading of C5 that asks for non-null state and age only: a receipt
    time more than twice [max_age] in the past. *)
Definition claimed_expired (now : Z) (row : MegolmInboundRow) : Prop :=
  session row <> None /\
  exists recv maxage,
    received_at row = Some recv /\ max_age row = Some maxage /\
    recv + 2 * (maxage * 1000) < now.

(** The scheduled session "g1" has non-null state and was received far more
    than twice its max_age ago, yet [RedactExpiredGroupSessions] neither
    returns it nor touches its row. *)
Lemma RedactExpiredGroupSessions_skips_scheduled :
  let row := test_inbound_row "g1" true (Some 0) (Some 1000) in
  let r := RedactExpiredGroupSessions test_redacted_code test_store 10000000000 in
  inbound test_store !! ("g1", "acct")%string = Some row /\
  claimed_expired 10000000000 row /\
  r.1 = Ok ["g2"%string] /\
  inbound r.2 !! ("g1", "acct")%string = Some row.
Proof.
  cbv zeta. split; [reflexivity|]. split.
  - split; [discriminate|]. exists 0, 1000. repeat split; reflexivity.
  - split; vm_compute; reflexivity.
Qed.

Lemma sweeping_redactions_exact_witness :
  DB_Dialect (DB test_store) <> UnknownDialect /\
  (exists ids store',
     RedactExpiredGroupSessions test_redacted_code test_store 10000000000
     = (Ok ids, store') /\
     redacts_exactly test_redacted_code test_store store' ids
       "Session redacted: expired" (expired_row Postgres 10000000000)) /\
  (exists ids store',
     RedactOutdatedGroupSessions test_redacted_code test_store = (Ok ids, store') /\
     redacts_exactly test_redacted_code test_store store' ids
       "Session redacted: outdated" outdated_row).
Proof.
  assert (Hd : DB_Dialect (DB test_store) <> UnknownDialect) by discriminate.
  split; [exact Hd|].
  destruct (sweeping_redactions_exact test_redacted_code test_store 10000000000)
    as (Hexpired & _ & Houtdated).
  split; [exact (Hexpired Hd)|exact Houtdated].
Defined.

Lemma GetSessions_order_GetLatestSession_head_witness :
  (GetSessions test_store "senderA").1 =
  Ok [test_session "s2" 50; test_session "s3" 40; test_session "s1" 30] /\
  pickles_coherent test_store "senderA" /\
  (GetLatestSession test_store "senderA").1 = Ok (Some (test_session "s2" 50)) /\
  Forall2 (cached_or_scanned test_store "senderA")
    (select_olm_sessions test_store "senderA")
    [test_session "s2" 50; test_session "s3" 40; test_session "s1" 30].
Proof.
  assert (Hget : (GetSessions test_store "senderA").1 =
                 Ok [test_session "s2" 50; test_session "s3" 40; test_session "s1" 30])
    by (vm_compute; reflexivity).
  assert (Hcoh : pickles_coherent test_store "senderA").
  { intros sid row sess Hin Hscan.
    assert (Hrows : select_olm_sessions test_store "senderA" =
                    [("s2"%string, test_olm_row "s2" 50);
                     ("s3"%string, test_olm_row "s3" 40);
                     ("s1"%string, test_olm_row "s1" 30)])
      by (vm_compute; reflexivity).
    rewrite Hrows in Hin. apply list_elem_of_In in Hin. simpl in Hin.
    destruct Hin as [Hin|[Hin|[Hin|[]]]]; injection Hin as <- <-;
      vm_compute in Hscan; injection Hscan as <-; reflexivity. }
  split; [exact Hget|]. split; [exact Hcoh|].
  pose proof (GetSessions_order_GetLatestSession_head test_store "senderA") as Hthm.
  cbv zeta in Hthm. destruct Hthm as (_ & _ & _ & _ & Hl).
  destruct (Hl _ Hget) as (_ & Hhead & Horigin).
  split; [exact Hhead|exact (Horigin Hcoh)].
Defined.

End Store.

(** ** crypto/goolm/pk signing keys and crypto/cross_sign_key.go *)

Module CrossSign.

(** The alphabet of [base64.RawURLEncoding]. *)
Definition base64url_alphabet : list ascii :=
  list_ascii_of_string
    "ABCDEFGHIJKLMNOPQRSTUVWXYZabcdefghijklmnopqrstuvwxyz0123456789-_".

Definition base64url_char (i : Z) : ascii :=
  nth (Z.to_nat (Z.land i 63)) base64url_alphabet "A"%char.

(** [base64.RawURLEncoding.Encode]: three bytes give four characters and a
    tail of one or two bytes gives two or three, with no padding. *)
Fixpoint base64url_encode (src : list Z) : list ascii :=
  match src with
  | [] => []
  | [x] =>
      [base64url_char (Z.shiftr x 2); base64url_char (Z.shiftl x 4)]
  | [x; y] =>
      [base64url_char (Z.shiftr x 2);
       base64url_char (Z.lor (Z.shiftl x 4) (Z.shiftr y 4));
       base64url_char (Z.shiftl y 2)]
  | x :: y :: z :: rest =>
      base64url_char (Z.shiftr x 2)
      :: base64url_char (Z.lor (Z.shiftl x 4) (Z.shiftr y 4))
      :: base64url_char (Z.lor (Z.shiftl y 2) (Z.shiftr z 6))
      :: base64url_char z
      :: base64url_encode rest
  end.

(** Modelled from the spec: [jsonbytes.UnpaddedURLBytes] is declared outside
    the sources at hand; the spec's export format has each seed serialised as
    unpadded base64url text. *)
Definition UnpaddedURLBytes_MarshalJSON (b : list Z) : string :=
  string_of_list_ascii (base64url_encode b).

Section Signing.
(** [crypto.Ed25519KeyPair], [crypto.Ed25519GenerateFromSeed] and
    [Ed25519KeyPair.B64Encoded]. *)
Variable Ed25519KeyPair : Type.
Variable Ed25519GenerateFromSeed : list Z -> Ed25519KeyPair.
Variable B64Encoded : Ed25519KeyPair -> string.

Inductive error : Type :=
| BackendError (msg : string).

(** [pk.Signing]. *)
Record Signing : Type := {
  keyPair : Ed25519KeyPair;
  seed : list Z
}.

Definition NewSigningFromSeed (seed : list Z) : Result error Signing :=
  let s := {| seed := seed; keyPair := Ed25519GenerateFromSeed seed |} in
  Ok s.

Definition Seed (s : Signing) : list Z := seed s.

Definition PublicKey (s : Signing) : string := B64Encoded (keyPair s).

(** The only way to a [Signing] with its unexported fields set is
    [NewSigningFromSeed] ([NewSigning] calls it on a random seed). *)
Definition constructed (s : Signing) : Prop :=
  NewSigningFromSeed (Seed s) = Ok s.

Record CrossSigningKeysCache : Type := {
  MasterKey : Signing;
  SelfSigningKey : Signing;
  UserSigningKey : Signing
}.

Record CrossSigningPublicKeysCache : Type := {
  pub_MasterKey : string;
  pub_SelfSigningKey : string;
  pub_UserSigningKey : string
}.

Definition PublicKeys (cskc : CrossSigningKeysCache) : CrossSigningPublicKeysCache :=
  {| pub_MasterKey := PublicKey (MasterKey cskc);
     pub_SelfSigningKey := PublicKey (SelfSigningKey cskc);
     pub_UserSigningKey := PublicKey (UserSigningKey cskc) |}.

Record CrossSigningSeeds : Type := {
  seeds_MasterKey : list Z;
  seeds_SelfSigningKey : list Z;
  seeds_UserSigningKey : list Z
}.

(** [json.Marshal] of a [CrossSigningSeeds]: the fields under their JSON
    names, in the order of the struct. *)
Definition CrossSigningSeeds_MarshalJSON (keys : CrossSigningSeeds)
  : list (string * string) :=
  [("m.cross_signing.master"%string,
    UnpaddedURLBytes_MarshalJSON (seeds_MasterKey keys));
   ("m.cross_signing.self_signing"%string,
    UnpaddedURLBytes_MarshalJSON (seeds_SelfSigningKey keys));
   ("m.cross_signing.user_signing"%string,
    UnpaddedURLBytes_MarshalJSON (seeds_UserSigningKey keys))].

(** The two fields of [OlmMachine] that the functions below touch; both are
    pointers and may be nil. *)
Record OlmMachine : Type := {
  CrossSigningKeys : option CrossSigningKeysCache;
  crossSigningPubkeys : option CrossSigningPublicKeysCache
}.

(** [None] stands for the nil-pointer panic of a machine without keys. *)
Definition ExportCrossSigningKeys (mach : OlmMachine) : option CrossSigningSeeds :=
  match CrossSigningKeys mach with
  | None => None
  | Some keys =>
      Some {| seeds_MasterKey := Seed (MasterKey keys);
              seeds_SelfSigningKey := Seed (SelfSigningKey keys);
              seeds_UserSigningKey := Seed (UserSigningKey keys) |}
  end.

Definition ImportCrossSigningKeys (mach : OlmMachine) (keys : CrossSigningSeeds)
  : option error * OlmMachine :=
  match NewSigningFromSeed (seeds_MasterKey keys) with
  | Err err => (Some err, mach)
  | Ok master =>
      match NewSigningFromSeed (seeds_SelfSigningKey keys) with
      | Err err => (Some err, mach)
      | Ok selfSigning =>
          match NewSigningFromSeed (seeds_UserSigningKey keys) with
          | Err err => (Some err, mach)
          | Ok userSigning =>
              let keysCache :=
                {| MasterKey := master; SelfSigningKey := selfSigning;
                   UserSigningKey := userSigning |} in
              (None,
               {| CrossSigningKeys := Some keysCache;
                  crossSigningPubkeys := Some (PublicKeys keysCache) |})
          end
      end
  end.

(** *** The export format and the round trip *)

Lemma base64url_char_alphabet i : In (base64url_char i) base64url_alphabet.
Proof.
  unfold base64url_char. apply nth_In.
  change (length base64url_alphabet) with 64%nat.
  change 63 with (Z.ones 6). rewrite Z.land_ones by lia.
  pose proof (Z.mod_pos_bound i (2 ^ 6) ltac:(lia)). lia.
Qed.

Lemma base64url_encode_alphabet_upto n : forall src,
  (length src <= n)%nat ->
  Forall (fun c => In c base64url_alphabet) (base64url_encode src).
Proof.
  induction n as [|n IH]; intros src Hlen.
  - destruct src; [constructor|simpl in Hlen; lia].
  - destruct src as [|x [|y [|z rest]]]; simpl;
      repeat (constructor; [apply base64url_char_alphabet|]);
      try constructor.
    apply IH. simpl in Hlen. lia.
Qed.

Lemma base64url_encode_alphabet src :
  Forall (fun c => In c base64url_alphabet) (base64url_encode src).
Proof. apply (base64url_encode_alphabet_upto (length src)). lia. Qed.

Lemma base64url_alphabet_no_padding : ~ In "="%char base64url_alphabet.
Proof.
  intros Hin. apply list_elem_of_In in Hin.
  revert Hin. apply (bool_decide_unpack _).
  vm_compute. exact I.
Qed.

Lemma base64url_encode_unpadded src : ~ In "="%char (base64url_encode src).
Proof.
  intros Hin. apply base64url_alphabet_no_padding.
  pose proof (base64url_encode_alphabet src) as Hall.
  rewrite List.Forall_forall in Hall. apply Hall. exact Hin.
Qed.

Lemma length_base64url_encode_upto n : forall src,
  (length src <= n)%nat ->
  Z.of_nat (length (base64url_encode src)) = (4 * Z.of_nat (length src) + 2) / 3.
Proof.
  induction n as [|n IH]; intros src Hlen.
  - destruct src; [reflexivity|simpl in Hlen; lia].
  - destruct src as [|x [|y [|z rest]]]; try reflexivity.
    cbn [base64url_encode length]. rewrite !Nat2Z.inj_succ.
    rewrite IH by (simpl in Hlen; lia).
    replace (4 * Z.succ (Z.succ (Z.succ (Z.of_nat (length rest)))) + 2)
      with (4 * Z.of_nat (length rest) + 2 + 4 * 3) by lia.
    rewrite Z.div_add by lia. lia.
Qed.

Lemma length_base64url_encode src :
  Z.of_nat (length (base64url_encode src)) = (4 * Z.of_nat (length src) + 2) / 3.
Proof. apply (length_base64url_encode_upto (length src)). lia. Qed.

Lemma ImportCrossSigningKeys_Export mach keys :
  CrossSigningKeys mach = Some keys ->
  constructed (MasterKey keys) -> constructed (SelfSigningKey keys) ->
  constructed (UserSigningKey keys) ->
  exists seeds,
    ExportCrossSigningKeys mach = Some seeds /\
    ImportCrossSigningKeys mach seeds =
    (None,
     {| CrossSigningKeys := Some keys;
        crossSigningPubkeys := Some (PublicKeys keys) |}).
Proof.
  intros Hkeys Hm Hs Hu. unfold ExportCrossSigningKeys. rewrite Hkeys.
  eexists. split; [reflexivity|].
  unfold ImportCrossSigningKeys. cbn [seeds_MasterKey seeds_SelfSigningKey seeds_UserSigningKey].
  rewrite Hm, Hs, Hu. destruct keys. reflexivity.
Qed.

(** C8: the export of a machine that holds cross-signing keys has exactly
    three seeds, serialised under the names m.cross_signing.master,
    m.cross_signing.self_signing and m.cross_signing.user_signing as
    base64url text without padding; importing the exported seeds succeeds
    and installs keys whose public keys are those of the exported keys. *)
Theorem ExportCrossSigningKeys_ImportCrossSigningKeys_roundtrip mach keys :
  CrossSigningKeys mach = Some keys ->
  constructed (MasterKey keys) -> constructed (SelfSigningKey keys) ->
  constructed (UserSigningKey keys) ->
  exists seeds,
    ExportCrossSigningKeys mach = Some seeds /\
    CrossSigningSeeds_MarshalJSON seeds =
    [("m.cross_signing.master"%string,
      string_of_list_ascii (base64url_encode (Seed (MasterKey keys))));
     ("m.cross_signing.self_signing"%string,
      string_of_list_ascii (base64url_encode (Seed (SelfSigningKey keys))));
     ("m.cross_signing.user_signing"%string,
      string_of_list_ascii (base64url_encode (Seed (UserSigningKey keys))))] /\
    (forall b,
        Forall (fun c => In c base64url_alphabet) (base64url_encode b) /\
        ~ In "="%char (base64url_encode b) /\
        Z.of_nat (length (base64url_encode b)) = (4 * Z.of_nat (length b) + 2) / 3) /\
    exists mach',
      ImportCrossSigningKeys mach seeds = (None, mach') /\
      exists keys',
        CrossSigningKeys mach' = Some keys' /\
        PublicKeys keys' = PublicKeys keys /\
        crossSigningPubkeys mach' = Some (PublicKeys keys).
Proof.
  intros Hkeys Hm Hs Hu.
  destruct (ImportCrossSigningKeys_Export mach keys Hkeys Hm Hs Hu)
    as (seeds & Hexport & Himport).
  exists seeds. split; [exact Hexport|]. split.
  { unfold ExportCrossSigningKeys in Hexport. rewrite Hkeys in Hexport.
    injection Hexport as <-. reflexivity. }
  split.
  { intros b. split; [apply base64url_encode_alphabet|].
    split; [apply base64url_encode_unpadded|apply length_base64url_encode]. }
  eexists. split; [exact Himport|].
  exists keys. repeat split; reflexivity.
Qed.

End Signing.

Arguments ExportCrossSigningKeys {Ed25519KeyPair} mach.
Arguments CrossSigningKeys {Ed25519KeyPair} o.
Arguments crossSigningPubkeys {Ed25519KeyPair} o.
Arguments MasterKey {Ed25519KeyPair} c.
Arguments SelfSigningKey {Ed25519KeyPair} c.
Arguments UserSigningKey {Ed25519KeyPair} c.
Arguments PublicKeys {Ed25519KeyPair} B64Encoded cskc.
Arguments constructed {Ed25519KeyPair} Ed25519GenerateFromSeed s.
Arguments ImportCrossSigningKeys {Ed25519KeyPair} Ed25519GenerateFromSeed
  B64Encoded mach keys.

(** A test key generator: the key pair is the seed, bytes reversed. *)
Definition test_generate (seed : list Z) : list Z := rev seed.
Definition test_encode (kp : list Z) : string := UnpaddedURLBytes_MarshalJSON kp.

Definition test_key (first : Z) : Signing (list Z) :=
  {| seed := map (fun i => first + Z.of_nat i) (seq 0 32);
     keyPair := test_generate (map (fun i => first + Z.of_nat i) (seq 0 32)) |}.

Definition test_keys : CrossSigningKeysCache (list Z) :=
  {| MasterKey := test_key 1; SelfSigningKey := test_key 50;
     UserSigningKey := test_key 100 |}.

Definition test_machine : OlmMachine (list Z) :=
  {| CrossSigningKeys := Some test_keys; crossSigningPubkeys := None |}.

Example test_export_json :
  (fun seeds => CrossSigningSeeds_MarshalJSON <$> seeds)
    (ExportCrossSigningKeys test_machine) =
  Some [("m.cross_signing.master"%string,
         "AQIDBAUGBwgJCgsMDQ4PEBESExQVFhcYGRobHB0eHyA"%string);
        ("m.cross_signing.self_signing"%string,
         "MjM0NTY3ODk6Ozw9Pj9AQUJDREVGR0hJSktMTU5PUFE"%string);
        ("m.cross_signing.user_signing"%string,
         "ZGVmZ2hpamtsbW5vcHFyc3R1dnd4eXp7fH1-f4CBgoM"%string)].
Proof. vm_compute. reflexivity. Qed.

Lemma ExportCrossSigningKeys_ImportCrossSigningKeys_roundtrip_witness :
  CrossSigningKeys test_machine = Some test_keys /\
  constructed test_generate (MasterKey test_keys) /\
  constructed test_generate (SelfSigningKey test_keys) /\
  constructed test_generate (UserSigningKey test_keys) /\
  exists seeds mach',
    ExportCrossSigningKeys test_machine = Some seeds /\
    ImportCrossSigningKeys test_generate test_encode test_machine seeds = (None, mach') /\
    crossSigningPubkeys mach' = Some (PublicKeys test_encode test_keys).
Proof.
  split; [reflexivity|]. repeat (split; [reflexivity|]).
  destruct (ExportCrossSigningKeys_ImportCrossSigningKeys_roundtrip
              (list Z) test_generate test_encode test_machine test_keys
              eq_refl eq_refl eq_refl eq_refl)
    as (seeds & Hexport & _ & _ & mach' & Himport & keys' & _ & _ & Hpub).
  exists seeds, mach'. auto.
Defined.

End CrossSign.

(** ** hicli/sync.go: decryption failures and the session request queue *)

Module HiSync.

(** The sentinel errors that the code tests for, and any other one by name. *)
Inductive sentinel : Type :=
| NoSessionFound
| UnknownMessageIndex
| ErrGroupSessionWithheld
| ErrContentAlreadyParsed
| OtherError (name : string).

#[local] Instance sentinel_eq_dec : EqDecision sentinel.
Proof. solve_decision. Defined.

(** A Go [error]: a sentinel, or an error that wraps another one
    ([fmt.Errorf] with [%w]). *)
Inductive error : Type :=
| Sentinel (s : sentinel)
| Wrap (msg : string) (inner : error).

(** [errors.Is(err, target)] for a sentinel target: the chain of wrapped
    errors is searched. *)
Fixpoint errors_Is (err : error) (target : sentinel) : bool :=
  match err with
  | Sentinel s => bool_decide (s = target)
  | Wrap _ inner => errors_Is inner target
  end.

Definition sentinel_name (s : sentinel) : string :=
  match s with
  | NoSessionFound => "failed to find session"
  | UnknownMessageIndex => "UNKNOWN_MESSAGE_INDEX"
  | ErrGroupSessionWithheld => "group session has been withheld"
  | ErrContentAlreadyParsed => "content is already parsed"
  | OtherError name => name
  end.

(** [err.Error()]. *)
Fixpoint error_Error (err : error) : string :=
  match err with
  | Sentinel s => sentinel_name s
  | Wrap msg inner => msg ++ ": " ++ error_Error inner
  end.

Definition isDecryptionErrorRetryable (err : error) : bool :=
  errors_Is err NoSessionFound || errors_Is err UnknownMessageIndex
  || errors_Is err ErrGroupSessionWithheld.

Inductive EventType : Type :=
| EventEncrypted
| EventRedaction
| OtherEventType (name : string).

#[local] Instance EventType_eq_dec : EqDecision EventType.
Proof. solve_decision. Defined.

(** [event.Event], with the fields [processEvent] reads. *)
Record Event : Type := {
  ID : string;
  Type_ : EventType;
  RoomID : string;
  Sender : string;
  Redacts : string;
  VeryRaw : list Z;
  MegolmCiphertext : list Z
}.

(** [database.Event]. *)
Record DBEvent : Type := {
  RowID : Z;
  EventID : string;
  Content : list Z;
  Decrypted : list Z;
  DecryptedType : string;
  DecryptionError : string;
  MegolmSessionID : string;
  RedactedBy : string
}.

Definition with_Content (e : DBEvent) (c : list Z) : DBEvent :=
  {| RowID := RowID e; EventID := EventID e; Content := c;
     Decrypted := Decrypted e; DecryptedType := DecryptedType e;
     DecryptionError := DecryptionError e;
     MegolmSessionID := MegolmSessionID e; RedactedBy := RedactedBy e |}.

Definition with_Decrypted (e : DBEvent) (d : list Z) (t : string) : DBEvent :=
  {| RowID := RowID e; EventID := EventID e; Content := Content e;
     Decrypted := d; DecryptedType := t;
     DecryptionError := DecryptionError e;
     MegolmSessionID := MegolmSessionID e; RedactedBy := RedactedBy e |}.

Definition with_DecryptionError (e : DBEvent) (msg : string) : DBEvent :=
  {| RowID := RowID e; EventID := EventID e; Content := Content e;
     Decrypted := Decrypted e; DecryptedType := DecryptedType e;
     DecryptionError := msg;
     MegolmSessionID := MegolmSessionID e; RedactedBy := RedactedBy e |}.

(** [database.SessionRequest]; [MinIndex] is a [uint32]. *)
Record SessionRequest : Type := {
  req_RoomID : string;
  req_SessionID : string;
  req_Sender : string;
  MinIndex : Z
}.

Definition with_MinIndex (req : SessionRequest) (i : Z) : SessionRequest :=
  {| req_RoomID := req_RoomID req; req_SessionID := req_SessionID req;
     req_Sender := req_Sender req; MinIndex := i |}.

Section HiClient.
(** What [processEvent] calls outside this file: the event table of the
    client database [HDB], the conversion to a database event, the crypto
    machine, the JSON helpers, and the media cache. *)
Variable HDB : Type.
Variable Event_GetByID : HDB -> string -> Result error (option DBEvent).
Variable Event_Upsert : HDB -> DBEvent -> Result error DBEvent * HDB.
Variable MautrixToEvent : Event -> DBEvent.
Variable ParseRaw : Event -> option error.
Variable DecryptMegolmEvent : Event -> Result error Event.
Variable Event_TypeName : Event -> string.
Variable removeReplyFallback : Event -> option (list Z).
Variable set_redacts : Event -> Result error Event.
Variable needs_redacts : Event -> bool.
Variable cacheMedia : HDB -> Event -> Z -> HDB.
(** [crypto.ParseMegolmMessageIndex]: the index (a [uint]) and an error. *)
Variable ParseMegolmMessageIndex : list Z -> Z * option error.

Definition decryptEvent (evt : Event) : Result error (Event * list Z * string) :=
  let decrypt :=
    bindR (DecryptMegolmEvent evt) (fun decrypted =>
    match removeReplyFallback decrypted with
    | Some withoutFallback =>
        Ok (decrypted, withoutFallback, Event_TypeName decrypted)
    | None => Ok (decrypted, VeryRaw decrypted, Event_TypeName decrypted)
    end) in
  match ParseRaw evt with
  | Some err =>
      if negb (errors_Is err ErrContentAlreadyParsed) then Err err else decrypt
  | None => decrypt
  end.

(** The last block of [processEvent]: a retryable failure creates or updates
    the request of the session. *)
Definition enqueue_request (evt : Event) (dbEvt : DBEvent)
    (decryptionQueue : gmap string SessionRequest) : gmap string SessionRequest :=
  let req :=
    match decryptionQueue !! MegolmSessionID dbEvt with
    | Some req => req
    | None =>
        {| req_RoomID := RoomID evt;
           req_SessionID := MegolmSessionID dbEvt;
           req_Sender := Sender evt;
           MinIndex := 0 |}
    end in
  let minIndex := (ParseMegolmMessageIndex (MegolmCiphertext evt)).1 in
  let req := with_MinIndex req (Z.min (uint32_of minIndex) (MinIndex req)) in
  <[MegolmSessionID dbEvt := req]> decryptionQueue.

(** The result of [processEvent]: the returned pair, the queue and the
    database as the call leaves them. *)
Record Processed : Type := {
  returned : option DBEvent * option error;
  queue : gmap string SessionRequest;
  db : HDB
}.

Definition processEvent (h : HDB) (evt : Event)
    (decryptionQueue : gmap string SessionRequest) (checkDB : bool) : Processed :=
  let existing := if checkDB then Event_GetByID h (ID evt) else Ok None in
  match existing with
  | Err err =>
      {| returned := (None, Some (Wrap "failed to check if event exists" err));
         queue := decryptionQueue; db := h |}
  | Ok (Some dbEvt) =>
      {| returned := (Some dbEvt, None); queue := decryptionQueue; db := h |}
  | Ok None =>
      let dbEvt := MautrixToEvent evt in
      let dbEvt :=
        match removeReplyFallback evt with
        | Some contentWithoutFallback => with_Content dbEvt contentWithoutFallback
        | None => dbEvt
        end in
      let attempt : Result error (option error * option Event * DBEvent * Event) :=
        if bool_decide (Type_ evt = EventEncrypted)
           && bool_decide (RedactedBy dbEvt = EmptyString)
        then
          match decryptEvent evt with
          | Ok (decrypted, bytes, typ) =>
              Ok (None, Some decrypted, with_Decrypted dbEvt bytes typ, evt)
          | Err decryptionErr =>
              Ok (Some decryptionErr, None,
                  with_DecryptionError (with_Decrypted dbEvt [] EmptyString)
                    (error_Error decryptionErr),
                  evt)
          end
        else if bool_decide (Type_ evt = EventRedaction)
        then
          if negb (bool_decide (Redacts evt = EmptyString)) && needs_redacts evt
          then
            match set_redacts evt with
            | Ok evt' => Ok (None, None, dbEvt, evt')
            | Err err => Err (Wrap "failed to set redacts field" err)
            end
          else Ok (None, None, dbEvt, evt)
        else Ok (None, None, dbEvt, evt) in
      match attempt with
      | Err err =>
          {| returned := (Some dbEvt, Some err); queue := decryptionQueue; db := h |}
      | Ok (decryptionErr, decryptedMautrixEvt, dbEvt, evt) =>
          match Event_Upsert h dbEvt with
          | (Err err, h) =>
              {| returned := (Some dbEvt, Some (Wrap "failed to save event" err));
                 queue := decryptionQueue; db := h |}
          | (Ok dbEvt, h) =>
              let h :=
                match decryptedMautrixEvt with
                | Some decrypted => cacheMedia h decrypted (RowID dbEvt)
                | None => cacheMedia h evt (RowID dbEvt)
                end in
              match decryptionErr with
              | Some err =>
                  if isDecryptionErrorRetryable err
                  then {| returned := (Some dbEvt, None);
                          queue := enqueue_request evt dbEvt decryptionQueue;
                          db := h |}
                  else {| returned := (Some dbEvt, None);
                          queue := decryptionQueue; db := h |}
              | None =>
                  {| returned := (Some dbEvt, None);
                     queue := decryptionQueue; db := h |}
              end
          end
      end
  end.

(** *** Which failures reach the queue *)

Lemma isDecryptionErrorRetryable_iff err :
  isDecryptionErrorRetryable err = true <->
  errors_Is err NoSessionFound = true \/
  errors_Is err UnknownMessageIndex = true \/
  errors_Is err ErrGroupSessionWithheld = true.
Proof.
  unfold isDecryptionErrorRetryable. rewrite !orb_true_iff. tauto.
Qed.

(** The event goes through decryption and decryption fails with [err]. *)
Definition decryption_fails (h : HDB) (evt : Event) (checkDB : bool) (err : error)
  : Prop :=
  (checkDB = false \/ Event_GetByID h (ID evt) = Ok None) /\
  Type_ evt = EventEncrypted /\
  RedactedBy (MautrixToEvent evt) = EmptyString /\
  decryptEvent evt = Err err.

(** The database event that [processEvent] saves after that failure. *)
Definition failed_event (evt : Event) (err : error) : DBEvent :=
  let dbEvt := MautrixToEvent evt in
  let dbEvt :=
    match removeReplyFallback evt with
    | Some contentWithoutFallback => with_Content dbEvt contentWithoutFallback
    | None => dbEvt
    end in
  with_DecryptionError (with_Decrypted dbEvt [] EmptyString) (error_Error err).

Lemma processEvent_decryption_fails h evt decryptionQueue checkDB err dbEvt h' :
  decryption_fails h evt checkDB err ->
  Event_Upsert h (failed_event evt err) = (Ok dbEvt, h') ->
  processEvent h evt decryptionQueue checkDB =
  {| returned := (Some dbEvt, None);
     queue := if isDecryptionErrorRetryable err
              then enqueue_request evt dbEvt decryptionQueue
              else decryptionQueue;
     db := cacheMedia h' evt (RowID dbEvt) |}.
Proof.
  intros (Hcheck & Htype & Hred & Hdec) Hupsert. unfold processEvent.
  assert (Hexisting :
    (if checkDB then Event_GetByID h (ID evt) else Ok None) = Ok None).
  { destruct Hcheck as [->|Hget]; [reflexivity|].
    destruct checkDB; [exact Hget|reflexivity]. }
  rewrite Hexisting.
  assert (Hred' : RedactedBy
            match removeReplyFallback evt with
            | Some c => with_Content (MautrixToEvent evt) c
            | None => MautrixToEvent evt
            end = EmptyString).
  { destruct (removeReplyFallback evt); exact Hred. }
  rewrite Htype, Hred', Hdec.
  rewrite !bool_decide_eq_true_2 by reflexivity. cbn [andb].
  unfold failed_event in Hupsert. rewrite Hupsert.
  destruct (isDecryptionErrorRetryable err); reflexivity.
Qed.

(** C6: a decryption error counts as retryable exactly when it is (or
    wraps) NoSessionFound, UnknownMessageIndex or ErrGroupSessionWithheld.
    When the decryption of an event fails and the event is saved, the saved
    event records the error text; a retryable error puts a request for the
    session into the queue, and any other error leaves the queue as it
    was. *)
Theorem retryable_errors_reach_the_queue :
  (forall err,
      isDecryptionErrorRetryable err = true <->
      errors_Is err NoSessionFound = true \/
      errors_Is err UnknownMessageIndex = true \/
      errors_Is err ErrGroupSessionWithheld = true) /\
  (forall h evt decryptionQueue checkDB err dbEvt h',
      decryption_fails h evt checkDB err ->
      Event_Upsert h (failed_event evt err) = (Ok dbEvt, h') ->
      let r := processEvent h evt decryptionQueue checkDB in
      DecryptionError (failed_event evt err) = error_Error err /\
      returned r = (Some dbEvt, None) /\
      (isDecryptionErrorRetryable err = true ->
       exists req,
         queue r !! MegolmSessionID dbEvt = Some req /\
         forall sid, sid <> MegolmSessionID dbEvt ->
                     queue r !! sid = decryptionQueue !! sid) /\
      (isDecryptionErrorRetryable err = false -> queue r = decryptionQueue)).
Proof.
  split; [exact isDecryptionErrorRetryable_iff|].
  intros h evt decryptionQueue checkDB err dbEvt h' Hfails Hupsert. cbv zeta.
  rewrite (processEvent_decryption_fails _ _ _ _ _ _ _ Hfails Hupsert).
  cbn [returned queue]. split; [reflexivity|]. split; [reflexivity|]. split.
  - intros ->. unfold enqueue_request. eexists. split.
    + apply lookup_insert_eq.
    + intros sid Hne. apply lookup_insert_ne. congruence.
  - intros ->. reflexivity.
Qed.

(** *** The minimum index of a request *)

(** A request that [enqueue_request] creates or updates ends with the
    smaller of the ciphertext's index and the index it had, and a request
    that is created starts from the zero value of [MinIndex]. *)
Lemma enqueue_request_MinIndex evt dbEvt decryptionQueue :
  exists req,
    enqueue_request evt dbEvt decryptionQueue !! MegolmSessionID dbEvt = Some req /\
    MinIndex req =
    Z.min (uint32_of (ParseMegolmMessageIndex (MegolmCiphertext evt)).1)
          (match decryptionQueue !! MegolmSessionID dbEvt with
           | Some old => MinIndex old
           | None => 0
           end).
Proof.
  unfold enqueue_request. eexists. split; [apply lookup_insert_eq|].
  destruct (decryptionQueue !! MegolmSessionID dbEvt); reflexivity.
Qed.

Lemma uint32_of_nonneg v : 0 <= uint32_of v.
Proof. unfold uint32_of. apply Z.mod_pos_bound. lia. Qed.

(** So every request of a queue that starts empty has [MinIndex] zero. *)
Lemma enqueue_request_zero evt dbEvt (decryptionQueue : gmap string SessionRequest) :
  map_Forall (fun _ req => MinIndex req = 0) decryptionQueue ->
  map_Forall (fun _ req => MinIndex req = 0)
    (enqueue_request evt dbEvt decryptionQueue).
Proof.
  intros Hq. unfold enqueue_request. apply map_Forall_insert_2; [|exact Hq].
  simpl. pose proof (uint32_of_nonneg (ParseMegolmMessageIndex (MegolmCiphertext evt)).1).
  destruct (decryptionQueue !! MegolmSessionID dbEvt) as [old|] eqn:Hold; simpl.
  - rewrite (Hq _ _ Hold). lia.
  - lia.
Qed.

(** *** What [processEvent] does to the queue *)

Lemma processEvent_queue_cases h evt decryptionQueue checkDB :
  let r := processEvent h evt decryptionQueue checkDB in
  queue r = decryptionQueue \/
  exists err dbEvt h',
    decryption_fails h evt checkDB err /\
    isDecryptionErrorRetryable err = true /\
    Event_Upsert h (failed_event evt err) = (Ok dbEvt, h') /\
    returned r = (Some dbEvt, None) /\
    queue r = enqueue_request evt dbEvt decryptionQueue.
Proof.
  cbv zeta. unfold processEvent.
  destruct (if checkDB then Event_GetByID h (ID evt) else Ok None)
    as [[existing|]|err] eqn:Hexisting; [left; reflexivity| |left; reflexivity].
  assert (Hred : RedactedBy
            match removeReplyFallback evt with
            | Some c => with_Content (MautrixToEvent evt) c
            | None => MautrixToEvent evt
            end = RedactedBy (MautrixToEvent evt)).
  { destruct (removeReplyFallback evt); reflexivity. }
  rewrite Hred.
  destruct (bool_decide_reflect (Type_ evt = EventEncrypted)) as [Htype|Htype];
    [destruct (bool_decide_reflect (RedactedBy (MautrixToEvent evt) = EmptyString))
       as [Hnot|Hnot]|]; cbn [andb].
  - destruct (decryptEvent evt) as [[[decrypted bytes] typ]|err] eqn:Hdec.
    + destruct (Event_Upsert h _) as [[dbEvt|err] h']; left; reflexivity.
    + destruct (Event_Upsert h _) as [[dbEvt|err'] h'] eqn:Hupsert;
        [|left; reflexivity].
      destruct (isDecryptionErrorRetryable err) eqn:Hretry; [|left; reflexivity].
      right. exists err, dbEvt, h'. split.
      { split; [|split; [exact Htype|split; [exact Hnot|exact Hdec]]].
        destruct checkDB; [right; exact Hexisting|left; reflexivity]. }
      split; [exact Hretry|]. split; [exact Hupsert|]. split; reflexivity.
  - left. destruct (bool_decide (Type_ evt = EventRedaction));
      [destruct (negb (bool_decide (Redacts evt = EmptyString)) && needs_redacts evt);
       [destruct (set_redacts evt)|]|];
      try reflexivity;
      destruct (Event_Upsert h _) as [[dbEvt|err] h']; reflexivity.
  - left. destruct (bool_decide (Type_ evt = EventRedaction));
      [destruct (negb (bool_decide (Redacts evt = EmptyString)) && needs_redacts evt);
       [destruct (set_redacts evt)|]|];
      try reflexivity;
      destruct (Event_Upsert h _) as [[dbEvt|err] h']; reflexivity.
Qed.

(** X25: [processEvent] changes the decryption queue in one situation only:
    the event was not already stored (or the store was not consulted), it is
    an encrypted event that is not redacted, its decryption failed with a
    retryable error, and the failed event was saved; then the call returns
    the saved event without an error.  So a call that returns an error, or
    that finds the event in the store, leaves the queue as it was, and a
    stored event is returned as it is, with the database untouched. *)
Theorem processEvent_queue_only_on_retryable h evt decryptionQueue checkDB :
  let r := processEvent h evt decryptionQueue checkDB in
  (queue r = decryptionQueue \/
   exists err dbEvt h',
     decryption_fails h evt checkDB err /\
     isDecryptionErrorRetryable err = true /\
     Event_Upsert h (failed_event evt err) = (Ok dbEvt, h') /\
     returned r = (Some dbEvt, None) /\
     queue r = enqueue_request evt dbEvt decryptionQueue) /\
  ((returned r).2 <> None -> queue r = decryptionQueue) /\
  (forall existing,
     checkDB = true -> Event_GetByID h (ID evt) = Ok (Some existing) ->
     r = {| returned := (Some existing, None); queue := decryptionQueue; db := h |}).
Proof.
  cbv zeta. split; [apply processEvent_queue_cases|]. split.
  - intros Herr.
    destruct (processEvent_queue_cases h evt decryptionQueue checkDB)
      as [Hsame|(err & dbEvt & h' & _ & _ & _ & Hret & _)]; [exact Hsame|].
    rewrite Hret in Herr. contradiction Herr. reflexivity.
  - intros existing -> Hget. unfold processEvent. rewrite Hget. reflexivity.
Qed.

(** X26: [processEvent] never removes a request from the decryption queue
    and never raises its minimum index: a request that was queued for a
    session is still queued afterwards with the same room, session and
    sender and a minimum index that is not larger, also when the failing
    event comes from another room or sender.  A request that the call adds
    is for the session of the saved event, carries the room and sender of
    the event, and has minimum index zero. *)
Theorem processEvent_keeps_requests h evt decryptionQueue checkDB :
  let r := processEvent h evt decryptionQueue checkDB in
  (forall sid req, decryptionQueue !! sid = Some req ->
     exists req',
       queue r !! sid = Some req' /\
       MinIndex req' <= MinIndex req /\
       req_RoomID req' = req_RoomID req /\
       req_SessionID req' = req_SessionID req /\
       req_Sender req' = req_Sender req) /\
  (forall sid req', decryptionQueue !! sid = None -> queue r !! sid = Some req' ->
     req' = {| req_RoomID := RoomID evt; req_SessionID := sid;
               req_Sender := Sender evt; MinIndex := 0 |} /\
     exists dbEvt, returned r = (Some dbEvt, None) /\ MegolmSessionID dbEvt = sid).
Proof.
  cbv zeta.
  destruct (processEvent_queue_cases h evt decryptionQueue checkDB)
    as [Hsame|(err & dbEvt & h' & _ & _ & _ & Hret & Hqueue)].
  - rewrite Hsame. split.
    + intros sid req Hreq. exists req. split; [exact Hreq|]. repeat split; lia.
    + intros sid req' Hnone Hsome. congruence.
  - rewrite Hqueue. pose proof (uint32_of_nonneg
                      (ParseMegolmMessageIndex (MegolmCiphertext evt)).1) as Hidx.
    unfold enqueue_request. split.
    + intros sid req Hreq.
      destruct (decide (sid = MegolmSessionID dbEvt)) as [->|Hne].
      * rewrite lookup_insert_eq, Hreq. eexists. split; [reflexivity|].
        cbn [with_MinIndex MinIndex req_RoomID req_SessionID req_Sender].
        repeat split; lia.
      * rewrite lookup_insert_ne by congruence. exists req.
        split; [exact Hreq|]. repeat split; lia.
    + intros sid req' Hnone Hsome.
      destruct (decide (sid = MegolmSessionID dbEvt)) as [->|Hne].
      * rewrite lookup_insert_eq, Hnone in Hsome. injection Hsome as <-.
        cbn [with_MinIndex MinIndex req_RoomID req_SessionID req_Sender].
        split; [f_equal; lia|]. exists dbEvt. split; [exact Hret|reflexivity].
      * rewrite lookup_insert_ne in Hsome by congruence. congruence.
Qed.

End HiClient.

Arguments returned {HDB} p.
Arguments queue {HDB} p.
Arguments db {HDB} p.

(** *** A test client

    The client database is the list of saved events, the machine holds no
    session (every decryption fails with a wrapped [NoSessionFound], or with
    a bad-MAC error for the event "$corrupt"), and the message index of a
    ciphertext is its first byte. *)

Definition test_GetByID (h : list DBEvent) (id : string)
  : Result error (option DBEvent) :=
  Ok (List.find (fun e => bool_decide (EventID e = id)) h).

Definition test_Upsert (h : list DBEvent) (e : DBEvent)
  : Result error DBEvent * list DBEvent :=
  let e := {| RowID := Z.of_nat (length h) + 1; EventID := EventID e;
              Content := Content e; Decrypted := Decrypted e;
              DecryptedType := DecryptedType e;
              DecryptionError := DecryptionError e;
              MegolmSessionID := MegolmSessionID e;
              RedactedBy := RedactedBy e |} in
  (Ok e, e :: h).

Definition test_MautrixToEvent (evt : Event) : DBEvent :=
  {| RowID := 0; EventID := ID evt; Content := VeryRaw evt; Decrypted := [];
     DecryptedType := EmptyString; DecryptionError := EmptyString;
     MegolmSessionID := "sessionS"; RedactedBy := EmptyString |}.

Definition test_Decrypt (evt : Event) : Result error Event :=
  if bool_decide (ID evt = "$corrupt"%string)
  then Err (Wrap "failed to decrypt megolm event" (Sentinel (OtherError "BAD_MESSAGE_MAC")))
  else Err (Wrap "failed to decrypt megolm event" (Sentinel NoSessionFound)).

Definition test_ParseIndex (ciphertext : list Z) : Z * option error :=
  match ciphertext with
  | i :: _ => (i, None)
  | [] => (0, Some (Sentinel (OtherError "empty ciphertext")))
  end.

Definition test_processEvent :=
  processEvent (list DBEvent) test_GetByID test_Upsert test_MautrixToEvent
    (fun _ => None) test_Decrypt (fun _ => "m.room.message"%string)
    (fun _ => None) (fun evt => Ok evt) (fun _ => false) (fun h _ _ => h)
    test_ParseIndex.

Definition test_event (id : string) (index : Z) : Event :=
  {| ID := id; Type_ := EventEncrypted; RoomID := "!room"; Sender := "@alice";
     Redacts := EmptyString; VeryRaw := []; MegolmCiphertext := [index] |}.

(** C2 on the code: the first retryable failure of session "sessionS" is a
    ciphertext with message index 5, and the request that [processEvent]
    creates for the session records minimum index 0. *)
Theorem first_failure_records_MinIndex_zero :
  let evt := test_event "$first" 5 in
  let r := test_processEvent [] evt ∅ false in
  test_Decrypt evt = Err (Wrap "failed to decrypt megolm event" (Sentinel NoSessionFound)) /\
  isDecryptionErrorRetryable
    (Wrap "failed to decrypt megolm event" (Sentinel NoSessionFound)) = true /\
  test_ParseIndex (MegolmCiphertext evt) = (5, None) /\
  queue r !! "sessionS"%string =
  Some {| req_RoomID := "!room"; req_SessionID := "sessionS";
          req_Sender := "@alice"; MinIndex := 0 |}.
Proof. cbv zeta. repeat split; vm_compute; reflexivity. Qed.

Lemma retryable_errors_reach_the_queue_witness :
  let missing := Wrap "failed to decrypt megolm event" (Sentinel NoSessionFound) in
  let corrupt :=
    Wrap "failed to decrypt megolm event" (Sentinel (OtherError "BAD_MESSAGE_MAC")) in
  isDecryptionErrorRetryable missing = true /\
  isDecryptionErrorRetryable corrupt = false /\
  (exists req,
     queue (test_processEvent [] (test_event "$first" 5) ∅ false)
       !! "sessionS"%string = Some req) /\
  queue (test_processEvent [] (test_event "$corrupt" 5) ∅ false) = ∅.
Proof.
  cbv zeta. split; [reflexivity|]. split; [reflexivity|].
  pose proof (retryable_errors_reach_the_queue (list DBEvent) test_GetByID test_Upsert
                test_MautrixToEvent (fun _ => None) test_Decrypt
                (fun _ => "m.room.message"%string) (fun _ => None)
                (fun evt => Ok evt) (fun _ => false) (fun h _ _ => h)
                test_ParseIndex) as [_ Hthm].
  split.
  - destruct (Hthm [] (test_event "$first" 5) ∅ false
                (Wrap "failed to decrypt megolm event" (Sentinel NoSessionFound))
                _ _ ltac:(repeat split; auto) eq_refl)
      as (_ & _ & Hretry & _).
    destruct (Hretry eq_refl) as (req & Hreq & _). exists req. exact Hreq.
  - destruct (Hthm [] (test_event "$corrupt" 5) ∅ false
                (Wrap "failed to decrypt megolm event"
                   (Sentinel (OtherError "BAD_MESSAGE_MAC")))
                _ _ ltac:(repeat split; auto) eq_refl)
      as (_ & _ & _ & Hterminal).
    exact (Hterminal eq_refl).
Defined.

End HiSync.

(** ** crypto/sql_store.go: the other reads and writes of inbound group
    sessions *)

Module GroupSessions.
Import Store.

(** [SELECT ... FROM t WHERE ...]: the selected rows with their keys. *)
Definition sql_select {K V} `{Countable K}
    (where_ : K -> V -> bool) (t : gmap K V) : list (K * V) :=
  filter (fun kv => where_ kv.1 kv.2 = true) (map_to_list t).

Section GroupSessions.
Context {S G R : Type}.
Context `{!olm_InboundGroupSession G, !RatchetSafetyJSON R}.
Variable RoomKeyWithheldBeeperRedacted : string.
Variable AlgorithmMegolmV1 : string.

Abbreviation SQLCryptoStore := (@SQLCryptoStore S).
Abbreviation InboundGroupSession := (@InboundGroupSession G R).

Definition GetWithheldGroupSession (store : SQLCryptoStore) (roomID sessionID : string)
  : Result error (option RoomKeyWithheldEventContent) :=
  match inbound store !! (sessionID, AccountID store) with
  | None => Ok None
  | Some row =>
      if negb (bool_decide (room_id row = roomID)) then Ok None
      else
        match withheld_code row with
        | None => Ok None
        | Some code =>
            Ok (Some
                  {| wh_RoomID := roomID;
                     wh_Algorithm := AlgorithmMegolmV1;
                     wh_SessionID := sessionID;
                     wh_SenderKey := NullString_String (sender_key row);
                     wh_Code := code;
                     wh_Reason := NullString_String (withheld_reason row) |})
        end
  end.

Definition scanInboundGroupSession (store : SQLCryptoStore) (row : MegolmInboundRow)
  : Result error InboundGroupSession :=
  match postScanInboundGroupSession store (session row) (ratchet_safety row)
          (NullString_String (forwarding_chains row)) with
  | Err err => Err err
  | Ok (igs, chains, rs) =>
      Ok {| igs_Internal := igs;
            SigningKey := NullString_String (signing_key row);
            SenderKey := NullString_String (sender_key row);
            RoomID := room_id row;
            ForwardingChains := chains;
            RatchetSafety := rs;
            ReceivedAt := NullTime_Time (received_at row);
            MaxAge := NullInt64_Int64 (max_age row);
            MaxMessages := NullInt64_Int64 (max_messages row);
            IsScheduled := is_scheduled row;
            KeyBackupVersion := key_backup_version row |}
  end.

(** [WHERE room_id=$1 AND account_id=$2 AND session IS NOT NULL]. *)
Definition room_sessions_where (store : SQLCryptoStore) (roomID : string)
    (k : string * string) (row : MegolmInboundRow) : bool :=
  bool_decide (room_id row = roomID) && bool_decide (k.2 = AccountID store)
  && is_not_null (session row).

(** The row iterator of [GetGroupSessionsForRoom], as the list of what
    [scanInboundGroupSession] makes of each selected row. *)
Definition GetGroupSessionsForRoom (store : SQLCryptoStore) (roomID : string)
  : list (Result error InboundGroupSession) :=
  map (fun kv => scanInboundGroupSession store kv.2)
      (sql_select (room_sessions_where store roomID) (inbound store)).

(** [WHERE account_id=$1 AND session IS NOT NULL]. *)
Definition all_sessions_where (store : SQLCryptoStore)
    (k : string * string) (row : MegolmInboundRow) : bool :=
  bool_decide (k.2 = AccountID store) && is_not_null (session row).

Definition GetAllGroupSessions (store : SQLCryptoStore)
  : list (Result error InboundGroupSession) :=
  map (fun kv => scanInboundGroupSession store kv.2)
      (sql_select (all_sessions_where store) (inbound store)).

(** [WHERE account_id=$1 AND session IS NOT NULL AND key_backup_version != $2]. *)
Definition without_version_where (store : SQLCryptoStore) (version : string)
    (k : string * string) (row : MegolmInboundRow) : bool :=
  bool_decide (k.2 = AccountID store) && is_not_null (session row)
  && negb (bool_decide (key_backup_version row = version)).

Definition GetGroupSessionsWithoutKeyBackupVersion (store : SQLCryptoStore)
    (version : string) : list (Result error InboundGroupSession) :=
  map (fun kv => scanInboundGroupSession store kv.2)
      (sql_select (without_version_where store version) (inbound store)).

(** *** Joining and splitting the forwarding chain *)

Definition no_comma (s : string) : Prop :=
  ~ In ","%char (list_ascii_of_string s).

Lemma app_String c (a b : string) : (String c a ++ b = String c (a ++ b))%string.
Proof. reflexivity. Qed.

Lemma app_EmptyString (b : string) : ("" ++ b = b)%string.
Proof. reflexivity. Qed.

Lemma string_app_nil_r (a : string) : (a ++ "" = a)%string.
Proof.
  induction a as [|x a IH]; [reflexivity|]. rewrite app_String, IH. reflexivity.
Qed.

Lemma rev_app_rev_app s : forall acc t,
  String.rev_app (String.rev_app s acc) t = String.rev_app acc (s ++ t)%string.
Proof.
  induction s as [|c s IH]; intros acc t; [reflexivity|].
  rewrite app_String. cbn [String.rev_app]. rewrite IH. reflexivity.
Qed.

Lemma rev_rev_app s : String.rev (String.rev_app s EmptyString) = s.
Proof.
  unfold String.rev. rewrite rev_app_rev_app. cbn [String.rev_app].
  apply string_app_nil_r.
Qed.

Lemma no_comma_String c s : no_comma (String c s) -> c <> ","%char /\ no_comma s.
Proof. unfold no_comma. simpl. intros H. split; intros ?; apply H; auto. Qed.

Lemma split_from_no_comma s : forall acc rest,
  no_comma s ->
  split_from acc (s ++ rest) = split_from (String.rev_app s acc) rest.
Proof.
  induction s as [|c s IH]; intros acc rest Hs; [reflexivity|].
  apply no_comma_String in Hs as [Hc Hs].
  rewrite app_String. cbn [split_from String.rev_app].
  destruct (Ascii.eqb_spec c ","%char); [contradiction|].
  apply IH. exact Hs.
Qed.

Lemma strings_Split_Join chains :
  chains <> [] -> Forall no_comma chains ->
  strings_Split (strings_Join chains) = chains.
Proof.
  unfold strings_Split, strings_Join.
  induction chains as [|c chains IH]; intros Hne Hall; [contradiction|].
  apply Forall_cons in Hall as [Hc Hall].
  destruct chains as [|c' chains].
  - cbn [String.concat]. rewrite <- (string_app_nil_r c) at 1.
    rewrite split_from_no_comma by exact Hc. cbn [split_from].
    rewrite rev_rev_app. reflexivity.
  - change (String.concat "," (c :: c' :: chains))
      with (c ++ String ","%char (String.concat "," (c' :: chains)))%string.
    rewrite split_from_no_comma by exact Hc.
    cbn [split_from]. rewrite Ascii.eqb_refl.
    rewrite rev_rev_app. f_equal.
    apply IH; [discriminate|exact Hall].
Qed.

Lemma strings_Join_empty chains :
  strings_Join chains = EmptyString -> chains = [] \/ chains = [EmptyString].
Proof.
  unfold strings_Join. destruct chains as [|c [|c' chains]]; cbn [String.concat].
  - auto.
  - intros ->. auto.
  - destruct c; [rewrite app_EmptyString|rewrite app_String]; discriminate.
Qed.

(** The chain that comes back from the column [PutGroupSession] writes. *)
Definition stored_chains (chains : list string) : list string :=
  if bool_decide (strings_Join chains = EmptyString) then []
  else strings_Split (strings_Join chains).

Lemma stored_chains_same chains :
  Forall no_comma chains -> chains <> [EmptyString] ->
  stored_chains chains = chains.
Proof.
  intros Hall Hne. unfold stored_chains. case_bool_decide as Hj.
  - apply strings_Join_empty in Hj as [->| ->]; [reflexivity|contradiction].
  - apply strings_Split_Join; [|exact Hall]. intros ->. apply Hj. reflexivity.
Qed.

(** *** A withheld notice never replaces a record *)

Definition withheld_answer (roomID sessionID : string) (row : MegolmInboundRow)
    (code : string) : RoomKeyWithheldEventContent :=
  {| wh_RoomID := roomID;
     wh_Algorithm := AlgorithmMegolmV1;
     wh_SessionID := sessionID;
     wh_SenderKey := NullString_String (sender_key row);
     wh_Code := code;
     wh_Reason := NullString_String (withheld_reason row) |}.

Lemma GetWithheldGroupSession_row (store : SQLCryptoStore) roomID sessionID row :
  inbound store !! (sessionID, AccountID store) = Some row ->
  room_id row = roomID ->
  GetWithheldGroupSession store roomID sessionID =
  Ok (withheld_answer roomID sessionID row <$> withheld_code row).
Proof.
  intros Hk Hroom. unfold GetWithheldGroupSession. rewrite Hk.
  rewrite bool_decide_eq_true_2 by exact Hroom. simpl.
  destruct (withheld_code row); reflexivity.
Qed.

Lemma GetGroupSession_row_withheld (store : SQLCryptoStore) roomID sessionID row code :
  inbound store !! (sessionID, AccountID store) = Some row ->
  room_id row = roomID -> withheld_code row = Some code ->
  GetGroupSession AlgorithmMegolmV1 store roomID sessionID =
  Err (Withheld (withheld_answer roomID sessionID row code)).
Proof.
  intros Hk Hroom Hcode. unfold GetGroupSession. fold (inbound store).
  rewrite Hk. rewrite bool_decide_eq_true_2 by exact Hroom. simpl.
  rewrite Hcode. reflexivity.
Qed.

(** X1: [PutWithheldGroupSession] changes nothing when the store already has
    a record for the session-id, present or withheld; otherwise the notice is
    stored, and both [GetWithheldGroupSession] and the error of
    [GetGroupSession] give back its room, session, sender key, code and
    reason, with the algorithm set to Megolm. *)
Theorem PutWithheldGroupSession_never_overwrites (store : SQLCryptoStore) content now :
  let k := (wh_SessionID content, AccountID store) in
  let store' := (PutWithheldGroupSession store content now).2 in
  let answer :=
    {| wh_RoomID := wh_RoomID content;
       wh_Algorithm := AlgorithmMegolmV1;
       wh_SessionID := wh_SessionID content;
       wh_SenderKey := wh_SenderKey content;
       wh_Code := wh_Code content;
       wh_Reason := wh_Reason content |} in
  (is_Some (inbound store !! k) ->
   PutWithheldGroupSession store content now = (None, store)) /\
  (inbound store !! k = None ->
   GetWithheldGroupSession store' (wh_RoomID content) (wh_SessionID content)
   = Ok (Some answer) /\
   GetGroupSession AlgorithmMegolmV1 store' (wh_RoomID content) (wh_SessionID content)
   = Err (Withheld answer) /\
   forall k', k' <> k -> inbound store' !! k' = inbound store !! k').
Proof.
  cbv zeta. unfold PutWithheldGroupSession. fold (inbound store). split.
  - intros [row Hrow]. rewrite Hrow. reflexivity.
  - intros Hnone. rewrite Hnone. cbn [snd].
    set (row := {| sender_key := Some (wh_SenderKey content); signing_key := None;
                   room_id := wh_RoomID content; session := None;
                   forwarding_chains := None;
                   withheld_code := Some (wh_Code content);
                   withheld_reason := Some (wh_Reason content);
                   ratchet_safety := None; received_at := Some now;
                   max_age := None; max_messages := None; is_scheduled := false;
                   key_backup_version := EmptyString |}).
    assert (Hk : inbound (with_inbound store
                   (<[(wh_SessionID content, AccountID store) := row]> (inbound store)))
                 !! (wh_SessionID content, AccountID store) = Some row).
    { unfold inbound at 1. simpl. apply lookup_insert_eq. }
    split; [|split].
    + rewrite (GetWithheldGroupSession_row _ (wh_RoomID content) _ row Hk eq_refl).
      reflexivity.
    + rewrite (GetGroupSession_row_withheld _ (wh_RoomID content) _ row
                 (wh_Code content) Hk eq_refl eq_refl).
      reflexivity.
    + intros k' Hne. unfold inbound at 1. simpl. apply lookup_insert_ne. congruence.
Qed.

(** *** Storing a session and reading it back *)

Lemma NullTime_datePtr t : NullTime_Time (datePtr t) = t.
Proof.
  unfold datePtr, IsZero. destruct (Z.eqb_spec t zero_time) as [->|]; reflexivity.
Qed.

Lemma NullInt64_NumPtr v : NullInt64_Int64 (NumPtr v) = v.
Proof. unfold NumPtr. destruct (Z.eqb_spec v 0) as [->|]; reflexivity. Qed.

(** X2: after [PutGroupSession] has stored a session, whatever record the
    session-id had before (none, a session, or a withheld notice),
    [GetGroupSession] for its room and ID returns the session with the same
    ratchet state (when the backend unpickles what it pickled), keys, room,
    receipt time, limits, flags and backup version, and
    [GetWithheldGroupSession] returns nothing.  The forwarding chain comes
    back unchanged when no entry contains a comma and the chain is not the
    single empty string.  The ratchet safety data does not come back: the
    returned session always carries the zero value. *)
Theorem PutGroupSession_GetGroupSession_roundtrip (store : SQLCryptoStore) igs sessionBytes ratchetSafety :
  IGS_Pickle (igs_Internal igs) (PickleKey store) = Ok sessionBytes ->
  IGS_Unpickle sessionBytes (PickleKey store) = Ok (igs_Internal igs) ->
  RatchetSafety_Marshal (RatchetSafety igs) = Ok ratchetSafety ->
  (ratchetSafety = [] \/ exists rs, RatchetSafety_Unmarshal ratchetSafety = Ok rs) ->
  let store' := (PutGroupSession store igs).2 in
  GetGroupSession AlgorithmMegolmV1 store' (RoomID igs) (InboundGroupSession_ID igs) =
  Ok (Some {| igs_Internal := igs_Internal igs;
              SigningKey := SigningKey igs;
              SenderKey := SenderKey igs;
              RoomID := RoomID igs;
              ForwardingChains := stored_chains (ForwardingChains igs);
              RatchetSafety := RatchetSafety_zero;
              ReceivedAt := ReceivedAt igs;
              MaxAge := MaxAge igs;
              MaxMessages := MaxMessages igs;
              IsScheduled := IsScheduled igs;
              KeyBackupVersion := KeyBackupVersion igs |}) /\
  GetWithheldGroupSession store' (RoomID igs) (InboundGroupSession_ID igs) = Ok None /\
  (Forall no_comma (ForwardingChains igs) ->
   ForwardingChains igs <> [EmptyString] ->
   stored_chains (ForwardingChains igs) = ForwardingChains igs).
Proof.
  intros Hpickle Hunpickle Hmarshal Hunmarshal. cbv zeta.
  assert (Hstore :
    exists row,
      (PutGroupSession store igs).2 =
      with_inbound store
        (<[(InboundGroupSession_ID igs, AccountID store) := row]> (inbound store)) /\
      (row = inserted_row igs sessionBytes ratchetSafety \/
       exists old, row = on_conflict_update old (inserted_row igs sessionBytes ratchetSafety))).
  { unfold PutGroupSession. rewrite Hpickle, Hmarshal. fold (inbound store).
    destruct (inbound store !! _) as [old|].
    - exists (on_conflict_update old (inserted_row igs sessionBytes ratchetSafety)).
      split; [reflexivity|]. right. exists old. reflexivity.
    - exists (inserted_row igs sessionBytes ratchetSafety).
      split; [reflexivity|]. left. reflexivity. }
  destruct Hstore as (row & -> & Hrow).
  assert (Hk : inbound (with_inbound store
                 (<[(InboundGroupSession_ID igs, AccountID store) := row]> (inbound store)))
               !! (InboundGroupSession_ID igs, AccountID store) = Some row).
  { unfold inbound at 1. simpl. apply lookup_insert_eq. }
  assert (Hfields :
    room_id row = RoomID igs /\ withheld_code row = None /\
    session row = sessionBytes /\ ratchet_safety row = Some ratchetSafety /\
    forwarding_chains row = Some (strings_Join (ForwardingChains igs)) /\
    signing_key row = Some (SigningKey igs) /\ sender_key row = Some (SenderKey igs) /\
    received_at row = datePtr (ReceivedAt igs) /\ max_age row = NumPtr (MaxAge igs) /\
    max_messages row = NumPtr (MaxMessages igs) /\
    is_scheduled row = IsScheduled igs /\ key_backup_version row = KeyBackupVersion igs).
  { destruct Hrow as [->|[old ->]]; repeat split; reflexivity. }
  destruct Hfields as (Hroom & Hcode & Hs & Hrs & Hfc & Hsk & Hsend & Hrecv & Hma & Hmm & Hsch & Hkb).
  split; [|split].
  - unfold GetGroupSession. fold (inbound (with_inbound store
      (<[(InboundGroupSession_ID igs, AccountID store) := row]> (inbound store)))).
    change (AccountID (with_inbound store
      (<[(InboundGroupSession_ID igs, AccountID store) := row]> (inbound store))))
      with (AccountID store).
    rewrite Hk. rewrite bool_decide_eq_true_2 by exact Hroom. cbn [negb].
    rewrite Hcode. unfold postScanInboundGroupSession.
    change (PickleKey (with_inbound store
      (<[(InboundGroupSession_ID igs, AccountID store) := row]> (inbound store))))
      with (PickleKey store).
    rewrite Hs, Hunpickle, Hrs, Hfc, Hsk, Hsend, Hrecv, Hma, Hmm, Hsch, Hkb.
    cbn [NullString_String default].
    rewrite NullTime_datePtr, !NullInt64_NumPtr.
    fold (stored_chains (ForwardingChains igs)).
    destruct Hunmarshal as [->|[rs Hrs']]; [reflexivity|].
    destruct ratchetSafety as [|x xs]; [reflexivity|].
    rewrite Hrs'. reflexivity.
  - rewrite (GetWithheldGroupSession_row _ _ _ row Hk Hroom). rewrite Hcode. reflexivity.
  - apply stored_chains_same.
Qed.

(** *** Redacting by room or sender *)

(** A row that [RedactGroupSessions] selects within its account. *)
Definition room_sender_row (roomID senderKey : string) (row : MegolmInboundRow) : Prop :=
  (room_id row = roomID \/ roomID = EmptyString) /\
  (sender_key row = Some senderKey \/ senderKey = EmptyString) /\
  session row <> None /\ is_scheduled row = false /\ received_at row <> None.

Lemma redact_many_where_iff (store : SQLCryptoStore) roomID senderKey k row :
  redact_many_where store roomID senderKey k row = true <->
  k.2 = AccountID store /\ room_sender_row roomID senderKey row.
Proof.
  unfold redact_many_where, room_sender_row.
  rewrite !andb_true_iff, !orb_true_iff, !bool_decide_eq_true,
    !is_not_null_true, negb_true_iff.
  tauto.
Qed.

(** X3: [RedactGroupSessions] refuses to run without a room or a sender key
    and then changes nothing; otherwise it turns into withheld records
    exactly the sessions of the store's account in that room (any room when
    the room is empty) from that sender (any sender when the key is empty)
    that have non-null state, are not scheduled and have a receipt time, and
    returns their session IDs, once each. *)
Theorem RedactGroupSessions_exact (store : SQLCryptoStore) roomID senderKey reason :
  (roomID = EmptyString -> senderKey = EmptyString ->
   exists err,
     RedactGroupSessions RoomKeyWithheldBeeperRedacted store roomID senderKey reason
     = (Err err, store)) /\
  (~ (roomID = EmptyString /\ senderKey = EmptyString) ->
   exists ids store',
     RedactGroupSessions RoomKeyWithheldBeeperRedacted store roomID senderKey reason
     = (Ok ids, store') /\
     redacts_exactly RoomKeyWithheldBeeperRedacted store store' ids
       ("Session redacted: " ++ reason) (room_sender_row roomID senderKey)).
Proof.
  unfold RedactGroupSessions. split.
  - intros -> ->. eexists. reflexivity.
  - intros Hsome.
    destruct (bool_decide_reflect (roomID = EmptyString)) as [Hr|Hr];
      destruct (bool_decide_reflect (senderKey = EmptyString)) as [Hs|Hs];
      cbn [andb]; try (exfalso; apply Hsome; split; assumption);
      (eexists _, _; split; [reflexivity|];
       apply redact_statement_exact; intros k row; apply redact_many_where_iff).
Qed.

(** *** Reading a redacted session *)

Lemma sql_update_none {K V} `{Countable K}
    (where_ : K -> V -> bool) (set_ : V -> V) (t : gmap K V) :
  (forall k v, t !! k = Some v -> where_ k v = false) ->
  sql_update where_ set_ t = t.
Proof.
  intros Hnone. apply map_eq. intros k. rewrite lookup_sql_update.
  destruct (t !! k) as [v|] eqn:Hk; [|reflexivity].
  simpl. rewrite (Hnone k v Hk). reflexivity.
Qed.

Lemma with_inbound_same (store : SQLCryptoStore) : with_inbound store (inbound store) = store.
Proof. destruct store as [[d o i m] a p c]. reflexivity. Qed.

(** X4: [RedactGroupSession] finds the record by session-id and account
    alone, whatever room it is given.  For a record with non-null state,
    [GetGroupSession] and [GetWithheldGroupSession] afterwards answer with the
    redaction code and the reason "Session redacted: <reason>"; a session-id
    whose record is already withheld, or that has no record, leaves the store
    unchanged, so a withheld record keeps the code and reason it had. *)
Theorem RedactGroupSession_then_GetGroupSession
    (store : SQLCryptoStore) anyRoom sessionID reason :
  let store' := (RedactGroupSession RoomKeyWithheldBeeperRedacted store
                   anyRoom sessionID reason).2 in
  (forall row,
      inbound store !! (sessionID, AccountID store) = Some row ->
      session row <> None ->
      let answer :=
        {| wh_RoomID := room_id row;
           wh_Algorithm := AlgorithmMegolmV1;
           wh_SessionID := sessionID;
           wh_SenderKey := NullString_String (sender_key row);
           wh_Code := RoomKeyWithheldBeeperRedacted;
           wh_Reason := "Session redacted: " ++ reason |} in
      GetGroupSession AlgorithmMegolmV1 store' (room_id row) sessionID
      = Err (Withheld answer) /\
      GetWithheldGroupSession store' (room_id row) sessionID = Ok (Some answer)) /\
  ((forall row, inbound store !! (sessionID, AccountID store) = Some row ->
                session row = None) ->
   store' = store).
Proof.
  cbv zeta. split.
  - intros row Hk Hs.
    pose proof (RedactGroupSession_redacts RoomKeyWithheldBeeperRedacted
                  store anyRoom sessionID reason row Hk Hs) as Hk'.
    change (AccountID store) with
      (AccountID (RedactGroupSession RoomKeyWithheldBeeperRedacted store
                    anyRoom sessionID reason).2) in Hk'.
    split.
    + rewrite (GetGroupSession_row_withheld _ (room_id row) _ _
                 RoomKeyWithheldBeeperRedacted Hk' eq_refl eq_refl).
      reflexivity.
    + rewrite (GetWithheldGroupSession_row _ (room_id row) _ _ Hk' eq_refl).
      reflexivity.
  - intros Hnull. unfold RedactGroupSession. cbn [snd].
    fold (inbound store). rewrite sql_update_none; [apply with_inbound_same|].
    intros [sid acct] row Hk. unfold redact_where. cbn [fst snd].
    destruct (bool_decide_reflect (sid = sessionID)) as [->|]; [|reflexivity].
    destruct (bool_decide_reflect (acct = AccountID store)) as [->|]; [|reflexivity].
    rewrite (Hnull row Hk). reflexivity.
Qed.

(** *** The two read paths agree *)

Lemma elem_of_sql_select {K V} `{Countable K}
    (where_ : K -> V -> bool) (t : gmap K V) k v :
  (k, v) ∈ sql_select where_ t <-> t !! k = Some v /\ where_ k v = true.
Proof.
  unfold sql_select. rewrite list_elem_of_filter, elem_of_map_to_list. simpl. tauto.
Qed.

Lemma GetGroupSession_scan (store : SQLCryptoStore) roomID sessionID row :
  inbound store !! (sessionID, AccountID store) = Some row ->
  room_id row = roomID -> withheld_code row = None ->
  GetGroupSession AlgorithmMegolmV1 store roomID sessionID =
  match scanInboundGroupSession store row with
  | Ok igs => Ok (Some igs)
  | Err err => Err err
  end.
Proof.
  intros Hk Hroom Hcode. unfold GetGroupSession, scanInboundGroupSession.
  fold (inbound store). rewrite Hk.
  rewrite bool_decide_eq_true_2 by exact Hroom. cbn [negb]. rewrite Hcode, Hroom.
  destruct (postScanInboundGroupSession _ _ _ _) as [[[g chains] rs]|e]; reflexivity.
Qed.

(** X5: in a store that satisfies the exclusivity invariant, the sessions
    that [GetGroupSessionsForRoom] yields for a room are exactly the sessions
    that [GetGroupSession] returns for that room under some session-id: a
    withheld or redacted record is never listed, and every readable session
    is. *)
Theorem GetGroupSessionsForRoom_agrees (store : SQLCryptoStore) roomID igs :
  store_exclusive store ->
  (Ok igs ∈ GetGroupSessionsForRoom store roomID <->
   exists sessionID,
     GetGroupSession AlgorithmMegolmV1 store roomID sessionID = Ok (Some igs)).
Proof.
  intros Hinv. unfold GetGroupSessionsForRoom. rewrite list_elem_of_fmap. split.
  - intros ([[sid acct] row] & Hscan & Hin).
    apply elem_of_sql_select in Hin as [Hk Hw]. cbn [fst snd] in *.
    unfold room_sessions_where in Hw. cbn [fst snd] in Hw.
    rewrite !andb_true_iff, !bool_decide_eq_true, is_not_null_true in Hw.
    destruct Hw as [[Hroom ->] Hs].
    exists sid.
    rewrite (GetGroupSession_scan _ _ _ row Hk Hroom (proj1 (Hinv _ _ Hk) Hs)).
    rewrite <- Hscan. reflexivity.
  - intros (sid & Hget).
    destruct (GetGroupSession_session _ _ _ _ _ Hget) as (row & Hrow & Hcode & _).
    assert (Hk : inbound store !! (sid, AccountID store) = Some row /\
                 room_id row = roomID).
    { unfold group_session_row in Hrow.
      destruct (inbound store !! _) as [row0|]; [|discriminate].
      destruct (bool_decide_reflect (room_id row0 = roomID)); [|discriminate].
      injection Hrow as ->. auto. }
    destruct Hk as [Hk Hroom].
    exists (sid, AccountID store, row). split.
    + rewrite (GetGroupSession_scan _ _ _ row Hk Hroom Hcode) in Hget. cbn [snd].
      destruct (scanInboundGroupSession store row); congruence.
    + apply elem_of_sql_select. split; [exact Hk|].
      unfold room_sessions_where. cbn [fst snd].
      rewrite !andb_true_iff, !bool_decide_eq_true, is_not_null_true.
      split; [split; [exact Hroom|reflexivity]|].
      apply (Hinv _ _ Hk). exact Hcode.
Qed.

End GroupSessions.

#[local] Existing Instance test_InboundGroupSession.
#[local] Existing Instance test_RatchetSafety.

Definition test_notice (sessionID : string) : RoomKeyWithheldEventContent :=
  {| wh_RoomID := "!room"; wh_Algorithm := "m.megolm.v1.aes-sha2";
     wh_SessionID := sessionID; wh_SenderKey := "senderA";
     wh_Code := "m.unverified"; wh_Reason := "not verified" |}.

Lemma PutWithheldGroupSession_never_overwrites_witness :
  is_Some (inbound test_store !! ("g1", "acct")%string) /\
  PutWithheldGroupSession test_store (test_notice "g1") 7000 = (None, test_store) /\
  inbound test_store !! ("g9", "acct")%string = None /\
  GetWithheldGroupSession test_algorithm
    (PutWithheldGroupSession test_store (test_notice "g9") 7000).2 "!room" "g9"
  = Ok (Some (test_notice "g9")).
Proof.
  assert (H1 : is_Some (inbound test_store !! ("g1", "acct")%string)) by (eexists; reflexivity).
  assert (H9 : inbound test_store !! ("g9", "acct")%string = None) by reflexivity.
  split; [exact H1|].
  split; [exact (proj1 (PutWithheldGroupSession_never_overwrites (G := string) (R := unit)
                          test_algorithm test_store (test_notice "g1") 7000) H1)|].
  split; [exact H9|].
  exact (proj1 (proj2 (PutWithheldGroupSession_never_overwrites (G := string) (R := unit)
                         test_algorithm test_store (test_notice "g9") 7000) H9)).
Defined.

Lemma PutGroupSession_GetGroupSession_roundtrip_witness :
  exists igs,
    GetGroupSession test_algorithm (PutGroupSession test_store test_group_session).2
      "!room" "g2" = Ok (Some igs) /\
    igs_Internal igs = "g2"%string /\ MaxAge igs = 1000 /\ ReceivedAt igs = 5000.
Proof.
  destruct (PutGroupSession_GetGroupSession_roundtrip test_algorithm
              test_store test_group_session
              (Some (bytes_of_string "g2")) (bytes_of_string "{}"))
    as (Hget & _ & _); [reflexivity..| right; exists tt; reflexivity |].
  eexists. split; [exact Hget|]. repeat split; reflexivity.
Defined.

Lemma RedactGroupSessions_exact_witness :
  ~ ("!room"%string = EmptyString /\ "senderA"%string = EmptyString) /\
  exists ids store',
    RedactGroupSessions test_redacted_code test_store "!room" "senderA" "left"
    = (Ok ids, store') /\
    redacts_exactly test_redacted_code test_store store' ids
      "Session redacted: left" (room_sender_row "!room" "senderA").
Proof.
  assert (Hne : ~ ("!room"%string = EmptyString /\ "senderA"%string = EmptyString))
    by (intros [? _]; discriminate).
  split; [exact Hne|].
  exact (proj2 (RedactGroupSessions_exact test_redacted_code test_store
                  "!room" "senderA" "left") Hne).
Defined.

Lemma RedactGroupSession_then_GetGroupSession_witness :
  inbound test_store !! ("g2", "acct")%string
  = Some (test_inbound_row "g2" false (Some 0) (Some 1000)) /\
  GetWithheldGroupSession test_algorithm
    (RedactGroupSession test_redacted_code test_store "!elsewhere" "g2" "requested").2
    "!room" "g2"
  = Ok (Some {| wh_RoomID := "!room"; wh_Algorithm := test_algorithm;
                wh_SessionID := "g2"; wh_SenderKey := "senderA";
                wh_Code := test_redacted_code;
                wh_Reason := "Session redacted: requested" |}).
Proof.
  split; [reflexivity|].
  pose proof (RedactGroupSession_then_GetGroupSession (G := string) (R := unit)
                test_redacted_code test_algorithm test_store
                "!elsewhere" "g2" "requested") as Hthm.
  cbv zeta in Hthm. destruct Hthm as [Hrow _].
  destruct (Hrow (test_inbound_row "g2" false (Some 0) (Some 1000)) eq_refl)
    as [_ Hwithheld]; [discriminate|].
  exact Hwithheld.
Defined.

Lemma GetGroupSessionsForRoom_agrees_witness :
  store_exclusive test_store /\
  exists igs,
    GetGroupSession test_algorithm test_store "!room" "g3" = Ok (Some igs) /\
    Ok igs ∈ GetGroupSessionsForRoom test_store "!room".
Proof.
  split; [exact store_exclusive_test_store|].
  eexists. split; [vm_compute; reflexivity|].
  apply (GetGroupSessionsForRoom_agrees test_algorithm test_store "!room" _
           store_exclusive_test_store).
  exists "g3"%string. vm_compute. reflexivity.
Defined.

End GroupSessions.

(** ** crypto/sql_store.go: adding, updating and deleting Olm sessions *)

Module OlmSessions.
Import Store.

#[local] Existing Instance last_decrypted_desc_dec.
#[local] Existing Instance last_decrypted_desc_total.
#[local] Existing Instance last_decrypted_desc_trans.

Section OlmSessions.
Context {S : Type} `{!olm_Session S}.
(** [olm.Session.Pickle]. *)
Variable Session_Pickle : S -> list Z -> Result error (list Z).

Abbreviation SQLCryptoStore := (@SQLCryptoStore S).
Abbreviation OlmSession := (@OlmSession S).

Definition olm_sessions (store : SQLCryptoStore) : gmap (string * string) OlmSessionRow :=
  crypto_olm_session (DB store).

Definition with_olm_sessions (store : SQLCryptoStore)
    (t : gmap (string * string) OlmSessionRow) : SQLCryptoStore :=
  with_DB store
    {| DB_Dialect := DB_Dialect (DB store);
       crypto_olm_session := t;
       crypto_megolm_inbound_session := crypto_megolm_inbound_session (DB store);
       crypto_message_index := crypto_message_index (DB store) |}.

(** [SELECT session_id ... WHERE sender_key=$1 AND account_id=$2 LIMIT 1]:
    some matching row, here the first in the table's order. *)
Definition any_olm_session (store : SQLCryptoStore) (key : string)
  : option (string * OlmSessionRow) :=
  head (omap (olm_session_matches store key) (map_to_list (olm_sessions store))).

Definition HasSession (store : SQLCryptoStore) (key : string) : bool :=
  let cached :=
    match olmSessionCache store !! key with
    | Some cache => negb (bool_decide (cache = ∅))
    | None => false
    end in
  if cached then true
  else
    match any_olm_session store key with
    | None => false
    | Some (sessionID, _) => negb (bool_decide (sessionID = EmptyString))
    end.

(** The [INSERT] of [AddSession] has no conflict clause: a second row under
    the key of the table is refused and the statement fails. *)
Definition insert_olm_session (t : gmap (string * string) OlmSessionRow)
    (k : string * string) (row : OlmSessionRow)
  : option error * gmap (string * string) OlmSessionRow :=
  match t !! k with
  | Some _ => (Some (BackendError "UNIQUE constraint failed"), t)
  | None => (None, <[k := row]> t)
  end.

Definition AddSession (store : SQLCryptoStore) (key : string) (session : OlmSession)
  : option error * SQLCryptoStore :=
  match Session_Pickle (Internal session) (PickleKey store) with
  | Err err => (Some err, store)
  | Ok sessionBytes =>
      let '(err, t) :=
        insert_olm_session (olm_sessions store)
          (AccountID store, OlmSession_ID session)
          {| os_sender_key := key;
             os_session := sessionBytes;
             os_created_at := CreationTime session;
             os_last_encrypted := LastEncryptedTime session;
             os_last_decrypted := LastDecryptedTime session |} in
      let store := with_olm_sessions store t in
      let '(cache, store) := getOlmSessionCache store key in
      (err,
       with_cache store
         (<[key := <[OlmSession_ID session := session]> cache]> (olmSessionCache store)))
  end.

(** [UPDATE ... SET session=$1, last_encrypted=$2, last_decrypted=$3 WHERE
    session_id=$4 AND account_id=$5]; the sender key argument is unused. *)
Definition UpdateSession (store : SQLCryptoStore) (key : string) (session : OlmSession)
  : option error * SQLCryptoStore :=
  match Session_Pickle (Internal session) (PickleKey store) with
  | Err err => (Some err, store)
  | Ok sessionBytes =>
      (None,
       with_olm_sessions store
         (sql_update
            (fun k _ =>
               bool_decide (k.2 = OlmSession_ID session)
               && bool_decide (k.1 = AccountID store))
            (fun row =>
               {| os_sender_key := os_sender_key row;
                  os_session := sessionBytes;
                  os_created_at := os_created_at row;
                  os_last_encrypted := LastEncryptedTime session;
                  os_last_decrypted := LastDecryptedTime session |})
            (olm_sessions store)))
  end.

(** [DELETE ... WHERE session_id=$1 AND account_id=$2]; the sender key
    argument is unused. *)
Definition DeleteSession (store : SQLCryptoStore) (key : string) (session : OlmSession)
  : option error * SQLCryptoStore :=
  (None,
   with_olm_sessions store
     (delete (AccountID store, OlmSession_ID session) (olm_sessions store))).

(** [ORDER BY created_at DESC]. *)
Definition created_at_desc (a b : string * OlmSessionRow) : Prop :=
  os_created_at b.2 <= os_created_at a.2.

#[local] Instance created_at_desc_dec a b : Decision (created_at_desc a b).
Proof. unfold created_at_desc. apply _. Defined.

(** No row leaves the result at the zero time, with no error. *)
Definition GetNewestSessionCreationTS (store : SQLCryptoStore) (key : string)
  : Z * option error :=
  match head (merge_sort created_at_desc
                (omap (olm_session_matches store key)
                      (map_to_list (olm_sessions store)))) with
  | Some (_, row) => (os_created_at row, None)
  | None => (zero_time, None)
  end.

(** *** A session that was added is found again *)

Lemma HasSession_cached (store : SQLCryptoStore) key cache :
  olmSessionCache store !! key = Some cache -> cache <> ∅ ->
  HasSession store key = true.
Proof.
  intros Hc Hne. unfold HasSession. rewrite Hc.
  rewrite bool_decide_eq_false_2 by exact Hne. reflexivity.
Qed.

Lemma AddSession_pickled (store : SQLCryptoStore) key session sessionBytes :
  Session_Pickle (Internal session) (PickleKey store) = Ok sessionBytes ->
  let row := {| os_sender_key := key;
                os_session := sessionBytes;
                os_created_at := CreationTime session;
                os_last_encrypted := LastEncryptedTime session;
                os_last_decrypted := LastDecryptedTime session |} in
  let ins := insert_olm_session (olm_sessions store)
               (AccountID store, OlmSession_ID session) row in
  AddSession store key session =
  (ins.1,
   with_cache (with_olm_sessions store ins.2)
     (<[key := <[OlmSession_ID session := session]> (sender_cache store key)]>
        (olmSessionCache store))).
Proof.
  intros Hp. cbv zeta. unfold AddSession. rewrite Hp.
  destruct (insert_olm_session _ _ _) as [err t]. cbn [fst snd].
  unfold getOlmSessionCache, sender_cache. cbn [olmSessionCache with_olm_sessions with_DB].
  destruct (olmSessionCache store !! key) as [cache|]; cbn [default].
  - reflexivity.
  - unfold with_cache. cbn. rewrite insert_insert_eq. reflexivity.
Qed.

Lemma Forall2_origin_cached (store : SQLCryptoStore) cache rows l sid row session :
  Forall2 (origin store cache) rows l ->
  (sid, row) ∈ rows -> cache !! sid = Some session -> session ∈ l.
Proof.
  intros HF Hin Hc. induction HF as [|r s rows l Ho HF IH].
  - apply not_elem_of_nil in Hin. contradiction.
  - apply elem_of_cons in Hin as [<-|Hin].
    + destruct Ho as [Hhit|[Hmiss _]]; cbn [fst] in *.
      * replace s with session by congruence. left.
      * congruence.
    + right. apply IH. exact Hin.
Qed.

(** X6: once the session pickles, [AddSession] caches it under its ID, so
    [HasSession] is true afterwards, also when the insert is refused because
    the store already has a row under that ID (the error is returned and the
    table is as before).  When the ID is new the row is stored with the
    session's times, and a [GetSessions] that succeeds on coherent pickles
    returns the very session that was added.  A session that fails to pickle
    changes nothing. *)
Theorem AddSession_then_found (store : SQLCryptoStore) key session :
  let r := AddSession store key session in
  (forall err, Session_Pickle (Internal session) (PickleKey store) = Err err ->
               r = (Some err, store)) /\
  (forall sessionBytes,
      Session_Pickle (Internal session) (PickleKey store) = Ok sessionBytes ->
      HasSession r.2 key = true /\
      sender_cache r.2 key !! OlmSession_ID session = Some session /\
      (is_Some (olm_sessions store !! (AccountID store, OlmSession_ID session)) ->
       is_Some r.1 /\ olm_sessions r.2 = olm_sessions store) /\
      (olm_sessions store !! (AccountID store, OlmSession_ID session) = None ->
       r.1 = None /\
       (OlmSession_ID session,
        {| os_sender_key := key;
           os_session := sessionBytes;
           os_created_at := CreationTime session;
           os_last_encrypted := LastEncryptedTime session;
           os_last_decrypted := LastDecryptedTime session |})
       ∈ select_olm_sessions r.2 key /\
       forall l, (GetSessions r.2 key).1 = Ok l -> pickles_coherent r.2 key ->
                 session ∈ l)).
Proof.
  cbv zeta. split.
  - intros err Hp. unfold AddSession. rewrite Hp. reflexivity.
  - intros sessionBytes Hp. rewrite (AddSession_pickled _ _ _ _ Hp). cbn [fst snd].
    set (row := {| os_sender_key := key; os_session := sessionBytes;
                   os_created_at := CreationTime session;
                   os_last_encrypted := LastEncryptedTime session;
                   os_last_decrypted := LastDecryptedTime session |}).
    set (ins := insert_olm_session (olm_sessions store)
                  (AccountID store, OlmSession_ID session) row).
    set (store' := with_cache (with_olm_sessions store ins.2) _).
    assert (Hcache : olmSessionCache store' !! key =
                     Some (<[OlmSession_ID session := session]> (sender_cache store key))).
    { unfold store'. cbn [olmSessionCache with_cache]. apply lookup_insert_eq. }
    assert (Hsc : sender_cache store' key !! OlmSession_ID session = Some session).
    { unfold sender_cache at 1. rewrite Hcache. cbn [default]. apply lookup_insert_eq. }
    split; [|split; [exact Hsc|split]].
    + apply (HasSession_cached _ _ _ Hcache). apply insert_non_empty.
    + intros [old Hold]. unfold ins, insert_olm_session. rewrite Hold. cbn [fst snd].
      split; [eexists; reflexivity|].
      unfold store', ins, insert_olm_session. rewrite Hold. reflexivity.
    + intros Hnone.
      assert (Hins : ins = (None, <[(AccountID store, OlmSession_ID session) := row]>
                                    (olm_sessions store))).
      { unfold ins, insert_olm_session. rewrite Hnone. reflexivity. }
      rewrite Hins. cbn [fst]. split; [reflexivity|].
      assert (Hin : (OlmSession_ID session, row) ∈ select_olm_sessions store' key).
      { apply elem_of_select_olm_sessions. split; [|reflexivity].
        unfold store'. rewrite Hins. cbn. apply lookup_insert_eq. }
      split; [exact Hin|].
      intros l Hget Hcoh. rewrite GetSessions_result in Hget.
      destruct (GetSessions_loop _ _ _ _) as [res cache'] eqn:Hloop.
      cbn [fst] in Hget. subst res.
      apply GetSessions_loop_origin in Hloop as (l' & -> & HF);
        [|apply NoDup_select_olm_sessions|exact Hcoh].
      cbn [app]. exact (Forall2_origin_cached _ _ _ _ _ _ _ HF Hin Hsc).
Qed.

(** *** Deleting leaves the cache behind *)

(** X7: [DeleteSession] removes the row of the session (under any sender
    key), leaves every other row alone and leaves the session cache
    untouched: no [GetSessions] query reads the session any more, yet
    [HasSession] stays true for a sender whose cache holds a session, even
    when the deleted row was the sender's last one. *)
Theorem DeleteSession_keeps_cache (store : SQLCryptoStore) anyKey session :
  let r := DeleteSession store anyKey session in
  r.1 = None /\
  olmSessionCache r.2 = olmSessionCache store /\
  (forall key row, (OlmSession_ID session, row) ∉ select_olm_sessions r.2 key) /\
  (forall key sid row,
      sid <> OlmSession_ID session ->
      ((sid, row) ∈ select_olm_sessions r.2 key <->
       (sid, row) ∈ select_olm_sessions store key)) /\
  (forall key, sender_cache store key <> ∅ -> HasSession r.2 key = true).
Proof.
  cbv zeta. unfold DeleteSession. cbn [fst snd].
  split; [reflexivity|]. split; [reflexivity|]. split; [|split].
  - intros key row Hin. apply elem_of_select_olm_sessions in Hin as [Hk _].
    cbn in Hk. rewrite lookup_delete_eq in Hk. discriminate.
  - intros key sid row Hne. rewrite !elem_of_select_olm_sessions. cbn.
    rewrite lookup_delete_ne by congruence. reflexivity.
  - intros key Hne. unfold sender_cache in Hne.
    destruct (olmSessionCache store !! key) as [cache|] eqn:Hc; cbn [default] in Hne.
    + apply (HasSession_cached _ key cache); [exact Hc|exact Hne].
    + contradiction.
Qed.

(** *** The session decrypted last is the latest session *)

Lemma head_of_sorted_newest (rows : list (string * OlmSessionRow)) sid row :
  StronglySorted last_decrypted_desc rows -> NoDup rows.*1 ->
  (sid, row) ∈ rows ->
  (forall sid' row', (sid', row') ∈ rows -> sid' <> sid ->
                     os_last_decrypted row' < os_last_decrypted row) ->
  head rows = Some (sid, row).
Proof.
  intros Hsorted Hnd Hin Hnewest.
  destruct rows as [|[sid0 row0] rows]; [apply not_elem_of_nil in Hin; contradiction|].
  cbn [head]. apply elem_of_cons in Hin as [Heq|Hin]; [congruence|].
  apply StronglySorted_inv in Hsorted as [_ Hall].
  rewrite List.Forall_forall in Hall.
  pose proof (Hall _ (proj1 (list_elem_of_In _ _) Hin)) as Hge.
  unfold last_decrypted_desc in Hge. cbn [snd] in Hge.
  destruct (decide (sid0 = sid)) as [->|Hne].
  - cbn [fmap list_fmap fst] in Hnd. apply NoDup_cons in Hnd as [Hnotin _].
    exfalso. apply Hnotin. apply list_elem_of_fmap. exists (sid, row). auto.
  - pose proof (Hnewest sid0 row0 ltac:(left) Hne). lia.
Qed.

(** X8: [UpdateSession] rewrites the pickle and the last-encrypted and
    last-decrypted times of the row with the session's ID, whatever sender
    key it is given, and keeps the row's sender key and creation time.  When
    the session's last-decrypted time is later than that of every other
    session of the row's sender, the row becomes the head of the sender's
    sessions, so [GetLatestSession] reads that row next. *)
Theorem UpdateSession_makes_latest
    (store : SQLCryptoStore) anyKey session sessionBytes row :
  Session_Pickle (Internal session) (PickleKey store) = Ok sessionBytes ->
  olm_sessions store !! (AccountID store, OlmSession_ID session) = Some row ->
  (forall sid' row',
      (sid', row') ∈ select_olm_sessions store (os_sender_key row) ->
      sid' <> OlmSession_ID session ->
      os_last_decrypted row' < LastDecryptedTime session) ->
  let r := UpdateSession store anyKey session in
  let row' := {| os_sender_key := os_sender_key row;
                 os_session := sessionBytes;
                 os_created_at := os_created_at row;
                 os_last_encrypted := LastEncryptedTime session;
                 os_last_decrypted := LastDecryptedTime session |} in
  r.1 = None /\
  olm_sessions r.2 !! (AccountID store, OlmSession_ID session) = Some row' /\
  (forall k, k <> (AccountID store, OlmSession_ID session) ->
             olm_sessions r.2 !! k = olm_sessions store !! k) /\
  head (select_olm_sessions r.2 (os_sender_key row)) = Some (OlmSession_ID session, row').
Proof.
  intros Hp Hk Hnewest. cbv zeta. unfold UpdateSession. rewrite Hp. cbn [fst snd].
  set (row' := {| os_sender_key := os_sender_key row; os_session := sessionBytes;
                  os_created_at := os_created_at row;
                  os_last_encrypted := LastEncryptedTime session;
                  os_last_decrypted := LastDecryptedTime session |}).
  set (store' := with_olm_sessions store _).
  assert (Hself : olm_sessions store' !! (AccountID store, OlmSession_ID session)
                  = Some row').
  { unfold store'. cbn. rewrite lookup_sql_update. fold (olm_sessions store).
    rewrite Hk. cbn. rewrite !bool_decide_eq_true_2 by reflexivity. reflexivity. }
  assert (Hother : forall k, k <> (AccountID store, OlmSession_ID session) ->
                             olm_sessions store' !! k = olm_sessions store !! k).
  { intros [acct sid] Hne. unfold store'. cbn. rewrite lookup_sql_update.
    fold (olm_sessions store).
    destruct (olm_sessions store !! (acct, sid)) as [v|]; [|reflexivity]. cbn.
    destruct (bool_decide_reflect (sid = OlmSession_ID session)) as [->|]; [|reflexivity].
    destruct (bool_decide_reflect (acct = AccountID store)) as [->|]; [|reflexivity].
    contradiction. }
  split; [reflexivity|]. split; [exact Hself|]. split; [exact Hother|].
  apply head_of_sorted_newest.
  - unfold select_olm_sessions. apply StronglySorted_merge_sort; apply _.
  - apply NoDup_select_olm_sessions.
  - apply elem_of_select_olm_sessions. split; [exact Hself|reflexivity].
  - intros sid' r' Hin Hne. cbn [os_last_decrypted row'].
    apply (Hnewest sid' r'); [|exact Hne].
    apply elem_of_select_olm_sessions in Hin as [Hk' Hsender].
    apply elem_of_select_olm_sessions. split; [|exact Hsender].
    change (AccountID store') with (AccountID store) in Hk'.
    rewrite <- Hother by congruence. exact Hk'.
Qed.

(** *** The newest creation time *)

#[local] Instance created_at_desc_total : Total created_at_desc.
Proof. intros a b. unfold created_at_desc. lia. Qed.

#[local] Instance created_at_desc_trans : Transitive created_at_desc.
Proof. intros a b c. unfold created_at_desc. lia. Qed.

(** X9: [GetNewestSessionCreationTS] returns, without error, the zero time
    when the sender has no session in the store's account, and otherwise the
    creation time of one of the sender's sessions that no other of them
    exceeds. *)
Theorem GetNewestSessionCreationTS_is_maximum (store : SQLCryptoStore) key :
  let r := GetNewestSessionCreationTS store key in
  r.2 = None /\
  (select_olm_sessions store key = [] -> r.1 = zero_time) /\
  (select_olm_sessions store key <> [] ->
   exists sid row, (sid, row) ∈ select_olm_sessions store key /\
                   r.1 = os_created_at row) /\
  (forall sid row, (sid, row) ∈ select_olm_sessions store key ->
                   os_created_at row <= r.1).
Proof.
  cbv zeta. unfold GetNewestSessionCreationTS.
  set (matching := omap (olm_session_matches store key) (map_to_list (olm_sessions store))).
  assert (Hsel : select_olm_sessions store key ≡ₚ merge_sort created_at_desc matching).
  { unfold select_olm_sessions. fold (olm_sessions store). fold matching.
    rewrite !merge_sort_Permutation. reflexivity. }
  pose proof (StronglySorted_merge_sort created_at_desc matching) as Hsorted.
  destruct (merge_sort created_at_desc matching) as [|[sid0 row0] rest] eqn:Hrows;
    cbn [head fst snd].
  - split; [reflexivity|]. split; [reflexivity|]. split.
    + intros Hne. apply Permutation_nil_r in Hsel. contradiction.
    + intros sid row Hin. rewrite Hsel in Hin.
      apply not_elem_of_nil in Hin. contradiction.
  - split; [reflexivity|]. split.
    + intros Hnil. rewrite Hnil in Hsel. apply Permutation_nil_l in Hsel. discriminate.
    + split.
      * intros _. exists sid0, row0. split; [|reflexivity]. rewrite Hsel. left.
      * intros sid row Hin. rewrite Hsel in Hin.
        apply elem_of_cons in Hin as [[= -> ->]|Hin]; [lia|].
        apply StronglySorted_inv in Hsorted as [_ Hall].
        rewrite List.Forall_forall in Hall.
        exact (Hall _ (proj1 (list_elem_of_In _ _) Hin)).
Qed.

(** *** HasSession and the reads *)

(** X10: when no session of the store has an empty ID, [HasSession] is true
    exactly when the sender's cache holds a session or the store's account
    has a row for the sender; so it is true whenever [GetLatestSession]
    returns a session. *)
Theorem HasSession_iff (store : SQLCryptoStore) key :
  (forall k row, olm_sessions store !! k = Some row -> k.2 <> EmptyString) ->
  (HasSession store key = true <->
   sender_cache store key <> ∅ \/ select_olm_sessions store key <> []) /\
  (forall session, (GetLatestSession store key).1 = Ok (Some session) ->
                   HasSession store key = true).
Proof.
  intros Hids.
  assert (Hany : any_olm_session store key = None <-> select_olm_sessions store key = []).
  { unfold any_olm_session, select_olm_sessions. fold (olm_sessions store).
    set (matching := omap _ _). split.
    - intros Hhead.
      assert (matching = []) as -> by (destruct matching; [reflexivity|discriminate]).
      apply Permutation_nil_r. apply merge_sort_Permutation.
    - intros Hnil. assert (matching = []) as ->; [|reflexivity].
      apply Permutation_nil_r. rewrite <- Hnil. symmetry.
      apply merge_sort_Permutation. }
  assert (Hiff : HasSession store key = true <->
                 sender_cache store key <> ∅ \/ select_olm_sessions store key <> []).
  { unfold HasSession, sender_cache.
    destruct (olmSessionCache store !! key) as [cache|]; cbn [default].
    - destruct (bool_decide_reflect (cache = ∅)) as [->|Hne]; cbn [negb].
      + rewrite <- Hany.
        destruct (any_olm_session store key) as [[sid row]|] eqn:Hhead.
        * assert (Hsid : sid <> EmptyString).
          { unfold any_olm_session in Hhead.
            apply head_Some_elem_of, list_elem_of_omap in Hhead
              as ([[acct sid'] row'] & Hin & Hm).
            apply elem_of_map_to_list in Hin. unfold olm_session_matches in Hm.
            destruct (_ && _); [|discriminate]. injection Hm as <- <-.
            exact (Hids _ _ Hin). }
          rewrite bool_decide_eq_false_2 by exact Hsid. split; [|reflexivity].
          intros _. right. discriminate.
        * split; [discriminate|]. intros [Hc|Hs]; contradiction.
      + split; [|reflexivity]. intros _. left. exact Hne.
    - rewrite <- Hany.
      destruct (any_olm_session store key) as [[sid row]|] eqn:Hhead.
      + assert (Hsid : sid <> EmptyString).
        { unfold any_olm_session in Hhead.
          apply head_Some_elem_of, list_elem_of_omap in Hhead
            as ([[acct sid'] row'] & Hin & Hm).
          apply elem_of_map_to_list in Hin. unfold olm_session_matches in Hm.
          destruct (_ && _); [|discriminate]. injection Hm as <- <-.
          exact (Hids _ _ Hin). }
        rewrite bool_decide_eq_false_2 by exact Hsid. split; [|reflexivity].
        intros _. right. discriminate.
      + split; [discriminate|]. intros [Hc|Hs]; contradiction. }
  split; [exact Hiff|].
  intros session Hget. apply Hiff. right. intros Hnil.
  unfold GetLatestSession in Hget. rewrite Hnil in Hget. discriminate.
Qed.

End OlmSessions.

#[local] Existing Instance test_Session.

Definition test_Session_Pickle (s : string) (key : list Z) : Result error (list Z) :=
  match key with
  | [] => Err (BackendError "NO_KEY_PROVIDED")
  | _ => Ok (bytes_of_string s)
  end.

Lemma test_select_olm_sessions :
  select_olm_sessions test_store "senderA" =
  [("s2"%string, test_olm_row "s2" 50); ("s3"%string, test_olm_row "s3" 40);
   ("s1"%string, test_olm_row "s1" 30)].
Proof. vm_compute. reflexivity. Qed.

Lemma AddSession_then_found_witness :
  let r := AddSession test_Session_Pickle test_store "senderA" (test_session "s4" 45) in
  olm_sessions test_store !! ("acct", "s4")%string = None /\
  r.1 = None /\ HasSession r.2 "senderA" = true /\
  ("s4"%string, test_olm_row "s4" 45) ∈ select_olm_sessions r.2 "senderA".
Proof.
  cbv zeta.
  assert (Hnone : olm_sessions test_store !! ("acct", "s4")%string = None) by reflexivity.
  split; [exact Hnone|].
  pose proof (AddSession_then_found test_Session_Pickle test_store "senderA"
                (test_session "s4" 45)) as Hthm.
  cbv zeta in Hthm. destruct Hthm as [_ Hok].
  destruct (Hok (bytes_of_string "s4") eq_refl) as (Hhas & _ & _ & Hnew).
  destruct (Hnew Hnone) as (Herr & Hin & _).
  split; [exact Herr|]. split; [exact Hhas|exact Hin].
Defined.

Lemma DeleteSession_keeps_cache_witness :
  let cached := (GetLatestSession test_store "senderA").2 in
  let r := DeleteSession cached "senderA" (test_session "s2" 50) in
  sender_cache cached "senderA" <> ∅ /\
  HasSession r.2 "senderA" = true /\
  head (select_olm_sessions r.2 "senderA") = Some ("s3"%string, test_olm_row "s3" 40).
Proof.
  cbv zeta.
  assert (Hne : sender_cache (GetLatestSession test_store "senderA").2 "senderA" <> ∅).
  { intros Hempty.
    assert (Hs2 : sender_cache (GetLatestSession test_store "senderA").2 "senderA"
                  !! "s2"%string = Some (test_session "s2" 50))
      by (vm_compute; reflexivity).
    rewrite Hempty, lookup_empty in Hs2. discriminate. }
  split; [exact Hne|].
  pose proof (DeleteSession_keeps_cache (GetLatestSession test_store "senderA").2
                "senderA" (test_session "s2" 50)) as Hthm.
  cbv zeta in Hthm. destruct Hthm as (_ & _ & _ & _ & Hhas).
  split; [exact (Hhas _ Hne)|]. vm_compute. reflexivity.
Defined.

Lemma UpdateSession_makes_latest_witness :
  let r := UpdateSession test_Session_Pickle test_store "anyone" (test_session "s1" 60) in
  head (select_olm_sessions r.2 "senderA") =
  Some ("s1"%string, test_olm_row "s1" 60).
Proof.
  cbv zeta.
  pose proof (UpdateSession_makes_latest test_Session_Pickle test_store "anyone"
                (test_session "s1" 60) (bytes_of_string "s1") (test_olm_row "s1" 30)
                eq_refl eq_refl) as Hthm.
  cbv zeta in Hthm.
  destruct Hthm as (_ & _ & _ & Hhead); [|exact Hhead].
  intros sid' row' Hin Hne.
  change (os_sender_key (test_olm_row "s1" 30)) with "senderA"%string in Hin.
  rewrite test_select_olm_sessions in Hin.
  apply list_elem_of_In in Hin. simpl in Hin.
  destruct Hin as [Hin|[Hin|[Hin|[]]]]; injection Hin as <- <-;
    first [contradiction Hne; reflexivity | cbn; lia].
Defined.

Lemma GetNewestSessionCreationTS_is_maximum_witness :
  select_olm_sessions test_store "senderA" <> [] /\
  GetNewestSessionCreationTS test_store "senderA" = (10, None) /\
  select_olm_sessions test_store "nobody" = [] /\
  (GetNewestSessionCreationTS test_store "nobody").1 = zero_time.
Proof.
  assert (Hnil : select_olm_sessions test_store "nobody" = [])
    by (vm_compute; reflexivity).
  split; [rewrite test_select_olm_sessions; discriminate|].
  split; [vm_compute; reflexivity|]. split; [exact Hnil|].
  pose proof (GetNewestSessionCreationTS_is_maximum test_store "nobody") as Hthm.
  cbv zeta in Hthm. destruct Hthm as (_ & Hzero & _). exact (Hzero Hnil).
Defined.

Lemma test_store_ids_not_empty k row :
  olm_sessions test_store !! k = Some row -> k.2 <> EmptyString.
Proof.
  intros Hk. apply elem_of_map_to_list in Hk. vm_compute in Hk.
  apply list_elem_of_In in Hk. simpl in Hk.
  destruct Hk as [Hk|[Hk|[Hk|[]]]]; injection Hk as <- <-; discriminate.
Qed.

Lemma HasSession_iff_witness :
  (forall k row, olm_sessions test_store !! k = Some row -> k.2 <> EmptyString) /\
  HasSession test_store "senderA" = true /\
  HasSession test_store "nobody" = false.
Proof.
  split; [exact test_store_ids_not_empty|].
  destruct (HasSession_iff test_store "senderA" test_store_ids_not_empty) as [Hiff _].
  split.
  - apply Hiff. right. rewrite test_select_olm_sessions. discriminate.
  - vm_compute. reflexivity.
Defined.

End OlmSessions.

(** * Further tables of the SQL crypto store

    The tables below are keyed by the columns of their [ON CONFLICT] clause
    (or of the [WHERE] clause that addresses one row).  Each module models the
    fields of [SQLCryptoStore] that its functions read or write. *)

Module SQL.

(** [DELETE FROM t WHERE ...]: the rows the condition selects are removed. *)
Definition sql_delete {K V} `{Countable K}
    (where_ : K -> V -> bool) (t : gmap K V) : gmap K V :=
  filter (fun kv => where_ kv.1 kv.2 = false) t.

(** [RowsAffected] of that [DELETE]. *)
Definition rows_affected {K V} `{Countable K}
    (where_ : K -> V -> bool) (t : gmap K V) : Z :=
  Z.of_nat (length (GroupSessions.sql_select where_ t)).

(** [INSERT ... ON CONFLICT (key) DO UPDATE SET ...]: [update old excluded]
    is the row that replaces [old]. *)
Definition sql_upsert {K V} `{Countable K}
    (k : K) (excluded : V) (update : V -> V -> V) (t : gmap K V) : gmap K V :=
  match t !! k with
  | Some old => <[k := update old excluded]> t
  | None => <[k := excluded]> t
  end.

Lemma lookup_sql_delete {K V} `{Countable K}
    (where_ : K -> V -> bool) (t : gmap K V) k :
  sql_delete where_ t !! k =
  match t !! k with
  | Some v => if where_ k v then None else Some v
  | None => None
  end.
Proof.
  unfold sql_delete. destruct (t !! k) as [v|] eqn:Hk.
  - destruct (where_ k v) eqn:Hw.
    + apply map_lookup_filter_None. right. intros v' Hv'.
      rewrite Hk in Hv'. injection Hv' as <-. simpl. rewrite Hw. discriminate.
    + apply map_lookup_filter_Some. split; [exact Hk|exact Hw].
  - apply map_lookup_filter_None. left. exact Hk.
Qed.

Lemma lookup_sql_upsert {K V} `{Countable K}
    (k : K) (excluded : V) update (t : gmap K V) k' :
  sql_upsert k excluded update t !! k' =
  if decide (k' = k) then
    Some (match t !! k with Some old => update old excluded | None => excluded end)
  else t !! k'.
Proof.
  unfold sql_upsert. destruct (decide (k' = k)) as [->|Hne].
  - destruct (t !! k); apply lookup_insert_eq.
  - destruct (t !! k); apply lookup_insert_ne; congruence.
Qed.

Lemma sql_delete_none {K V} `{Countable K} (where_ : K -> V -> bool) (t : gmap K V) :
  (forall k v, t !! k = Some v -> where_ k v = false) ->
  sql_delete where_ t = t.
Proof. intros Hnone. apply map_filter_id. intros k v Hk. exact (Hnone k v Hk). Qed.

(** The rows a [DELETE] removes are the rows it counts. *)
Lemma size_sql_delete {K V} `{Countable K} (where_ : K -> V -> bool) (t : gmap K V) :
  Z.of_nat (size t) = Z.of_nat (size (sql_delete where_ t)) + rows_affected where_ t.
Proof.
  unfold rows_affected, sql_delete, GroupSessions.sql_select.
  rewrite map_filter_alt, map_size_list_to_map.
  - rewrite <- (length_map_to_list t).
    pose proof (filter_app_complement
                  (fun kv : K * V => where_ kv.1 kv.2 = true) (map_to_list t)) as Hperm.
    apply Permutation_length in Hperm. rewrite length_app in Hperm.
    rewrite (list_filter_iff (fun kv : K * V => where_ kv.1 kv.2 = false)
               (fun kv => ~ where_ kv.1 kv.2 = true)).
    + lia.
    + intros [k v]. cbn [fst snd]. destruct (where_ k v); split; congruence.
  - apply NoDup_fmap_fst.
    + intros k v1 v2 H1 H2. apply list_elem_of_filter in H1 as [_ H1], H2 as [_ H2].
      apply elem_of_map_to_list in H1, H2. congruence.
    + apply NoDup_filter, NoDup_map_to_list.
Qed.

(** The loop [for rows.Next() { ...; data[k] = v }] over the selected rows. *)
Definition scan_into {A V} (key : A -> string) (val : A -> V) (rows : list A)
  : gmap string V :=
  foldl (fun data row => <[key row := val row]> data) ∅ rows.

Lemma scan_into_foldl_miss {A V} (key : A -> string) (val : A -> V) (rows : list A) :
  forall (init : gmap string V) k,
  (forall row, row ∈ rows -> key row <> k) ->
  foldl (fun data row => <[key row := val row]> data) init rows !! k = init !! k.
Proof.
  induction rows as [|a rows IH]; intros init k Hmiss; [reflexivity|].
  cbn [foldl]. rewrite IH.
  - apply lookup_insert_ne. apply Hmiss. left.
  - intros row Hrow. apply Hmiss. right. exact Hrow.
Qed.

Lemma scan_into_foldl_hit {A V} (key : A -> string) (val : A -> V) (rows : list A) :
  forall (init : gmap string V) row,
  NoDup (key <$> rows) -> row ∈ rows ->
  foldl (fun data row => <[key row := val row]> data) init rows !! key row =
  Some (val row).
Proof.
  induction rows as [|a rows IH]; intros init row Hnd Hrow.
  - apply elem_of_nil in Hrow. contradiction.
  - cbn [fmap list_fmap] in Hnd. apply NoDup_cons in Hnd as [Ha Hnd].
    cbn [foldl]. apply elem_of_cons in Hrow as [->|Hrow].
    + rewrite scan_into_foldl_miss; [apply lookup_insert_eq|].
      intros row Hrow Heq. apply Ha. rewrite <- Heq.
      apply list_elem_of_fmap. exists row. split; [reflexivity|exact Hrow].
    + apply IH; assumption.
Qed.

Lemma NoDup_sql_select {K V} `{Countable K} (where_ : K -> V -> bool) (t : gmap K V) :
  NoDup (GroupSessions.sql_select where_ t).
Proof. apply NoDup_filter, NoDup_map_to_list. Qed.

(** When the selected rows differ in the column [col] of their key, the map
    that the loop builds is the table read through that column. *)
Lemma scan_into_select {K V W} `{Countable K}
    (where_ : K -> V -> bool) (col : K -> string) (val : K * V -> W)
    (t : gmap K V) (back : string -> K) c :
  (forall k v, where_ k v = true -> back (col k) = k) ->
  scan_into (fun row => col row.1) val (GroupSessions.sql_select where_ t) !! c =
  match t !! back c with
  | Some v => if where_ (back c) v && bool_decide (col (back c) = c)
              then Some (val (back c, v)) else None
  | None => None
  end.
Proof.
  intros Hback. unfold scan_into.
  assert (Hnd : NoDup ((fun row : K * V => col row.1) <$>
                         GroupSessions.sql_select where_ t)).
  { apply NoDup_fmap_2_strong; [|apply NoDup_sql_select].
    intros [k1 v1] [k2 v2] H1 H2 Hcol.
    apply GroupSessions.elem_of_sql_select in H1 as [H1 Hw1].
    apply GroupSessions.elem_of_sql_select in H2 as [H2 Hw2].
    cbn [fst] in Hcol.
    assert (k1 = k2) as -> by (rewrite <- (Hback k1 v1 Hw1), <- (Hback k2 v2 Hw2);
                               congruence).
    congruence. }
  destruct (t !! back c) as [v|] eqn:Hk.
  - destruct (where_ (back c) v) eqn:Hw.
    + cbn [andb]. case_bool_decide as Hc.
      * rewrite <- Hc at 1.
        apply (scan_into_foldl_hit (fun row : K * V => col row.1) val _ ∅ (back c, v) Hnd).
        apply GroupSessions.elem_of_sql_select. split; assumption.
      * rewrite scan_into_foldl_miss; [apply lookup_empty|].
        intros [k' v'] Hin Hcol. cbn [fst] in Hcol.
        apply GroupSessions.elem_of_sql_select in Hin as [Hin Hw'].
        apply Hc. assert (back c = k') as -> by (rewrite <- Hcol; eauto).
        exact Hcol.
    + cbn [andb]. rewrite scan_into_foldl_miss; [apply lookup_empty|].
      intros [k' v'] Hin Hcol. cbn [fst] in Hcol.
      apply GroupSessions.elem_of_sql_select in Hin as [Hin Hw'].
      assert (k' = back c) as -> by (rewrite <- Hcol; symmetry; eapply Hback; eauto).
      congruence.
  - rewrite scan_into_foldl_miss; [apply lookup_empty|].
    intros [k' v'] Hin Hcol. cbn [fst] in Hcol.
    apply GroupSessions.elem_of_sql_select in Hin as [Hin Hw'].
    assert (k' = back c) as -> by (rewrite <- Hcol; symmetry; eapply Hback; eauto).
    congruence.
Qed.

End SQL.

Module OlmHashes.

(** [Time.UnixMilli] and [time.UnixMilli], with times in microseconds since
    the Unix epoch. *)
Definition Time_UnixMilli (t : Z) : Z := t / 1000.
Definition time_UnixMilli (msec : Z) : Z := msec * 1000.

(** Rows of [crypto_olm_message_hash]; the key is [message_hash]. *)
Record HashRow : Type := {
  mh_account_id : string;
  mh_received_at : Z
}.

Record SQLCryptoStore : Type := {
  AccountID : string;
  crypto_olm_message_hash : gmap (list Z) HashRow
}.

Definition with_hashes (store : SQLCryptoStore) t : SQLCryptoStore :=
  {| AccountID := AccountID store; crypto_olm_message_hash := t |}.

(** A second store object on the same database, for another account. *)
Definition for_account (store : SQLCryptoStore) (accountID : string) : SQLCryptoStore :=
  {| AccountID := accountID;
     crypto_olm_message_hash := crypto_olm_message_hash store |}.

(** [INSERT ... ON CONFLICT (message_hash) DO NOTHING]. *)
Definition PutOlmHash (store : SQLCryptoStore) (messageHash : list Z) (receivedAt : Z)
  : option Store.error * SQLCryptoStore :=
  match crypto_olm_message_hash store !! messageHash with
  | Some _ => (None, store)
  | None =>
      (None,
       with_hashes store
         (<[messageHash := {| mh_account_id := AccountID store;
                              mh_received_at := Time_UnixMilli receivedAt |}]>
            (crypto_olm_message_hash store)))
  end.

Definition GetOlmHash (store : SQLCryptoStore) (messageHash : list Z)
  : Z * option Store.error :=
  match crypto_olm_message_hash store !! messageHash with
  | None => (Store.zero_time, None)
  | Some row => (time_UnixMilli (mh_received_at row), None)
  end.

Definition old_hash_where (store : SQLCryptoStore) (beforeTS : Z)
    (k : list Z) (row : HashRow) : bool :=
  bool_decide (mh_account_id row = AccountID store) &&
  (mh_received_at row <? Time_UnixMilli beforeTS).

Definition DeleteOldOlmHashes (store : SQLCryptoStore) (beforeTS : Z)
  : option Store.error * SQLCryptoStore :=
  (None,
   with_hashes store
     (SQL.sql_delete (old_hash_where store beforeTS) (crypto_olm_message_hash store))).

(** X11: [PutOlmHash] never fails in the model and never replaces a stored
    hash: when the hash is already stored, by this or by another account, the
    store is unchanged; when it is new, [GetOlmHash] afterwards returns the
    receipt time cut down to whole milliseconds, which is less than a
    millisecond before the time given.  The answers for other hashes do not
    change, and a hash that is not stored reads as the zero time without an
    error. *)
Theorem PutOlmHash_first_wins (store : SQLCryptoStore) messageHash receivedAt :
  let r := PutOlmHash store messageHash receivedAt in
  r.1 = None /\
  (is_Some (crypto_olm_message_hash store !! messageHash) -> r.2 = store) /\
  (crypto_olm_message_hash store !! messageHash = None ->
   GetOlmHash store messageHash = (Store.zero_time, None) /\
   GetOlmHash r.2 messageHash = (receivedAt / 1000 * 1000, None) /\
   receivedAt - 1000 < receivedAt / 1000 * 1000 <= receivedAt /\
   forall accountID t,
     GetOlmHash (PutOlmHash (for_account r.2 accountID) messageHash t).2 messageHash =
     (receivedAt / 1000 * 1000, None)) /\
  (forall h, h <> messageHash -> GetOlmHash r.2 h = GetOlmHash store h).
Proof.
  cbv zeta. unfold PutOlmHash.
  destruct (crypto_olm_message_hash store !! messageHash) as [row|] eqn:Hk.
  - split; [reflexivity|]. split; [reflexivity|].
    split; [discriminate|]. reflexivity.
  - split; [reflexivity|]. split; [intros [? ?]; discriminate|].
    split.
    + intros _. split; [unfold GetOlmHash; rewrite Hk; reflexivity|].
      assert (Hget : forall s, crypto_olm_message_hash s =
                <[messageHash := {| mh_account_id := AccountID store;
                                    mh_received_at := Time_UnixMilli receivedAt |}]>
                  (crypto_olm_message_hash store) ->
                GetOlmHash s messageHash = (receivedAt / 1000 * 1000, None)).
      { intros s Hs. unfold GetOlmHash. rewrite Hs, lookup_insert_eq. reflexivity. }
      split; [apply Hget; reflexivity|].
      split; [pose proof (Z.mul_div_le receivedAt 1000);
              pose proof (Z.mod_pos_bound receivedAt 1000);
              pose proof (Z.div_mod receivedAt 1000); lia|].
      intros accountID t. cbn [snd for_account with_hashes crypto_olm_message_hash].
      rewrite lookup_insert_eq. cbn [snd]. apply Hget. reflexivity.
    + intros h Hne. unfold GetOlmHash. cbn [snd with_hashes crypto_olm_message_hash].
      rewrite lookup_insert_ne by congruence. reflexivity.
Qed.

(** X12: [DeleteOldOlmHashes] is scoped to the account of the store and
    compares whole milliseconds, while [GetOlmHash] is not scoped: a hash that
    this account stored at time [t] is forgotten exactly when the millisecond
    of [t] is before the millisecond of the cut-off, so a hash received before
    the cut-off but within its millisecond stays; the same sweep run for any
    other account leaves the hash in place. *)
Theorem DeleteOldOlmHashes_own_account (store : SQLCryptoStore) messageHash receivedAt
    beforeTS :
  crypto_olm_message_hash store !! messageHash = None ->
  let stored := (PutOlmHash store messageHash receivedAt).2 in
  (DeleteOldOlmHashes stored beforeTS).1 = None /\
  GetOlmHash (DeleteOldOlmHashes stored beforeTS).2 messageHash =
    (if decide (receivedAt / 1000 < beforeTS / 1000) then Store.zero_time
     else receivedAt / 1000 * 1000, None) /\
  (forall accountID, accountID <> AccountID store ->
     GetOlmHash (DeleteOldOlmHashes (for_account stored accountID) beforeTS).2
       messageHash = (receivedAt / 1000 * 1000, None)) /\
  (forall h row, crypto_olm_message_hash store !! h = Some row ->
     mh_account_id row <> AccountID store \/ beforeTS / 1000 <= mh_received_at row ->
     crypto_olm_message_hash (DeleteOldOlmHashes stored beforeTS).2 !! h = Some row).
Proof.
  intros Hk. cbv zeta. unfold PutOlmHash. rewrite Hk. cbn [snd fst].
  split; [reflexivity|]. unfold GetOlmHash, DeleteOldOlmHashes.
  cbn [snd with_hashes for_account crypto_olm_message_hash AccountID].
  split; [|split].
  - rewrite SQL.lookup_sql_delete, lookup_insert_eq. unfold old_hash_where.
    cbn [mh_account_id mh_received_at with_hashes AccountID].
    rewrite bool_decide_eq_true_2 by reflexivity. unfold Time_UnixMilli. simpl.
    destruct (Z.ltb_spec (receivedAt / 1000) (beforeTS / 1000));
      destruct (decide (receivedAt / 1000 < beforeTS / 1000)); try lia; reflexivity.
  - intros accountID Hne. rewrite SQL.lookup_sql_delete, lookup_insert_eq.
    unfold old_hash_where. cbn [mh_account_id mh_received_at AccountID].
    rewrite bool_decide_eq_false_2 by (cbn; congruence). reflexivity.
  - intros h row Hh Hkeep. rewrite SQL.lookup_sql_delete.
    rewrite lookup_insert_ne by (intros ->; congruence). rewrite Hh.
    unfold old_hash_where. cbn [AccountID with_hashes]. unfold Time_UnixMilli.
    destruct Hkeep as [Hacct|Hms].
    + rewrite bool_decide_eq_false_2 by exact Hacct. reflexivity.
    + destruct (Z.ltb_spec (mh_received_at row) (beforeTS / 1000)); [lia|].
      rewrite andb_false_r. reflexivity.
Qed.

Definition test_hash_store : SQLCryptoStore :=
  {| AccountID := "acct";
     crypto_olm_message_hash :=
       {[ [7; 7] := {| mh_account_id := "other"; mh_received_at := 5 |} ]} |}.

Lemma DeleteOldOlmHashes_own_account_witness :
  GetOlmHash (DeleteOldOlmHashes (PutOlmHash test_hash_store [1; 2] 4999).2 5000).2 [1; 2]
    = (Store.zero_time, None) /\
  GetOlmHash (DeleteOldOlmHashes (PutOlmHash test_hash_store [1; 2] 4999).2 4999).2 [1; 2]
    = (4000, None) /\
  GetOlmHash (DeleteOldOlmHashes (PutOlmHash test_hash_store [1; 2] 4999).2 5000000).2 [7; 7]
    = (5000, None).
Proof.
  pose proof (DeleteOldOlmHashes_own_account test_hash_store [1; 2] 4999 5000 eq_refl)
    as (_ & H1 & _ & _).
  pose proof (DeleteOldOlmHashes_own_account test_hash_store [1; 2] 4999 4999 eq_refl)
    as (_ & H2 & _ & _).
  split; [exact H1|]. split; [exact H2|]. vm_compute. reflexivity.
Defined.

End OlmHashes.

Module Outbound.

(** The [olm.OutboundGroupSession] interface, as far as the store uses it;
    [OGS_Unpickle] stands for [olm.NewBlankOutboundGroupSession] followed by
    [Unpickle]. *)
Class olm_OutboundGroupSession (O : Type) : Type := {
  OGS_ID : O -> string;
  OGS_Pickle : O -> list Z -> Result Store.error (list Z);
  OGS_Unpickle : list Z -> list Z -> Result Store.error O
}.

(** [int64] arithmetic wraps around. *)
Definition int64_of (v : Z) : Z := (v + 2 ^ 63) mod 2 ^ 64 - 2 ^ 63.

(** [Duration.Milliseconds] of a duration in nanoseconds (Go's integer
    division truncates towards zero), and
    [time.Duration(ms) * time.Millisecond]. *)
Definition Duration_Milliseconds (d : Z) : Z := Z.quot d 1000000.
Definition Milliseconds_Duration (maxAgeMS : Z) : Z := int64_of (maxAgeMS * 1000000).

(** Rows of [crypto_megolm_outbound_session]; the key is
    [(account_id, room_id)]. *)
Record OutboundRow : Type := {
  ob_session_id : string;
  ob_session : list Z;
  ob_shared : bool;
  ob_max_messages : Z;
  ob_message_count : Z;
  ob_max_age : Z;
  ob_created_at : Z;
  ob_last_used : Z
}.

Section Outbound.
Context {O : Type} `{!olm_OutboundGroupSession O}.

(** [OutboundGroupSession], with the fields the store reads and writes. *)
Record OutboundGroupSession : Type := {
  Internal : O;
  RoomID : string;
  Shared : bool;
  MaxMessages : Z;
  MessageCount : Z;
  MaxAge : Z;
  CreationTime : Z;
  LastEncryptedTime : Z
}.

Definition OutboundGroupSession_ID (session : OutboundGroupSession) : string :=
  OGS_ID (Internal session).

Record SQLCryptoStore : Type := {
  AccountID : string;
  PickleKey : list Z;
  crypto_megolm_outbound_session : gmap (string * string) OutboundRow
}.

Definition with_outbound (store : SQLCryptoStore) t : SQLCryptoStore :=
  {| AccountID := AccountID store;
     PickleKey := PickleKey store;
     crypto_megolm_outbound_session := t |}.

(** The [ON CONFLICT (account_id, room_id) DO UPDATE] of
    [AddOutboundGroupSession] sets every column from the new row. *)
Definition AddOutboundGroupSession (store : SQLCryptoStore)
    (session : OutboundGroupSession) : option Store.error * SQLCryptoStore :=
  match OGS_Pickle (Internal session) (PickleKey store) with
  | Err err => (Some err, store)
  | Ok sessionBytes =>
      (None,
       with_outbound store
         (SQL.sql_upsert (AccountID store, RoomID session)
            {| ob_session_id := OutboundGroupSession_ID session;
               ob_session := sessionBytes;
               ob_shared := Shared session;
               ob_max_messages := MaxMessages session;
               ob_message_count := MessageCount session;
               ob_max_age := Duration_Milliseconds (MaxAge session);
               ob_created_at := CreationTime session;
               ob_last_used := LastEncryptedTime session |}
            (fun old excluded => excluded)
            (crypto_megolm_outbound_session store)))
  end.

Definition update_outbound_where (store : SQLCryptoStore)
    (session : OutboundGroupSession) (k : string * string) (row : OutboundRow) : bool :=
  bool_decide (k.2 = RoomID session) &&
  bool_decide (ob_session_id row = OutboundGroupSession_ID session) &&
  bool_decide (k.1 = AccountID store).

Definition update_outbound_set (sessionBytes : list Z)
    (session : OutboundGroupSession) (row : OutboundRow) : OutboundRow :=
  {| ob_session_id := ob_session_id row;
     ob_session := sessionBytes;
     ob_shared := ob_shared row;
     ob_max_messages := ob_max_messages row;
     ob_message_count := MessageCount session;
     ob_max_age := ob_max_age row;
     ob_created_at := ob_created_at row;
     ob_last_used := LastEncryptedTime session |}.

Definition UpdateOutboundGroupSession (store : SQLCryptoStore)
    (session : OutboundGroupSession) : option Store.error * SQLCryptoStore :=
  match OGS_Pickle (Internal session) (PickleKey store) with
  | Err err => (Some err, store)
  | Ok sessionBytes =>
      (None,
       with_outbound store
         (Store.sql_update (update_outbound_where store session)
            (update_outbound_set sessionBytes session)
            (crypto_megolm_outbound_session store)))
  end.

Definition GetOutboundGroupSession (store : SQLCryptoStore) (roomID : string)
  : Result Store.error (option OutboundGroupSession) :=
  match crypto_megolm_outbound_session store !! (AccountID store, roomID) with
  | None => Ok None
  | Some row =>
      match OGS_Unpickle (ob_session row) (PickleKey store) with
      | Err err => Err err
      | Ok intOGS =>
          Ok (Some {| Internal := intOGS;
                      RoomID := roomID;
                      Shared := ob_shared row;
                      MaxMessages := ob_max_messages row;
                      MessageCount := ob_message_count row;
                      MaxAge := Milliseconds_Duration (ob_max_age row);
                      CreationTime := ob_created_at row;
                      LastEncryptedTime := ob_last_used row |})
      end
  end.

Definition RemoveOutboundGroupSession (store : SQLCryptoStore) (roomID : string)
  : option Store.error * SQLCryptoStore :=
  (None,
   with_outbound store
     (SQL.sql_delete
        (fun k _ => bool_decide (k.2 = roomID) && bool_decide (k.1 = AccountID store))
        (crypto_megolm_outbound_session store))).

Lemma Milliseconds_Duration_Milliseconds d :
  - 2 ^ 63 <= d < 2 ^ 63 ->
  Milliseconds_Duration (Duration_Milliseconds d) = Z.quot d 1000000 * 1000000.
Proof.
  intros Hd. unfold Milliseconds_Duration, Duration_Milliseconds, int64_of.
  assert (Hrange : - 2 ^ 63 <= Z.quot d 1000000 * 1000000 < 2 ^ 63)
    by (Z.to_euclidean_division_equations; lia).
  rewrite Z.mod_small by lia. lia.
Qed.

Lemma lookup_remove_outbound (store : SQLCryptoStore) roomID k :
  crypto_megolm_outbound_session (RemoveOutboundGroupSession store roomID).2 !! k =
  if decide (k = (AccountID store, roomID)) then None
  else crypto_megolm_outbound_session store !! k.
Proof.
  unfold RemoveOutboundGroupSession. cbn [snd with_outbound crypto_megolm_outbound_session].
  rewrite SQL.lookup_sql_delete. destruct k as [a r].
  destruct (crypto_megolm_outbound_session store !! (a, r)) as [row|] eqn:Hk.
  - cbn [fst snd]. destruct (decide ((a, r) = (AccountID store, roomID))) as [[= -> ->]|Hne].
    + rewrite !bool_decide_eq_true_2 by reflexivity. reflexivity.
    + destruct (bool_decide_reflect (r = roomID)) as [->|]; [|reflexivity].
      rewrite bool_decide_eq_false_2 by congruence. reflexivity.
  - destruct (decide _); reflexivity.
Qed.

(** X13: once the session pickles, [AddOutboundGroupSession] replaces whatever
    session the room had, and [GetOutboundGroupSession] for the room returns
    the session as the backend unpickles it, with the same room, shared flag,
    message limit, message count and times; the maximum age comes back cut
    down to whole milliseconds (towards zero).  Other rooms keep their
    answers, and after [RemoveOutboundGroupSession] the room has no session
    (no error either). *)
Theorem AddOutboundGroupSession_GetOutboundGroupSession (store : SQLCryptoStore)
    (session : OutboundGroupSession) sessionBytes intOGS :
  OGS_Pickle (Internal session) (PickleKey store) = Ok sessionBytes ->
  OGS_Unpickle sessionBytes (PickleKey store) = Ok intOGS ->
  - 2 ^ 63 <= MaxAge session < 2 ^ 63 ->
  let r := AddOutboundGroupSession store session in
  let d := RemoveOutboundGroupSession r.2 (RoomID session) in
  r.1 = None /\
  GetOutboundGroupSession r.2 (RoomID session) =
    Ok (Some {| Internal := intOGS;
                RoomID := RoomID session;
                Shared := Shared session;
                MaxMessages := MaxMessages session;
                MessageCount := MessageCount session;
                MaxAge := Z.quot (MaxAge session) 1000000 * 1000000;
                CreationTime := CreationTime session;
                LastEncryptedTime := LastEncryptedTime session |}) /\
  (forall roomID, roomID <> RoomID session ->
     GetOutboundGroupSession r.2 roomID = GetOutboundGroupSession store roomID /\
     GetOutboundGroupSession d.2 roomID = GetOutboundGroupSession store roomID) /\
  d.1 = None /\
  GetOutboundGroupSession d.2 (RoomID session) = Ok None.
Proof.
  intros Hpickle Hunpickle Hage. cbv zeta.
  unfold AddOutboundGroupSession. rewrite Hpickle. cbn [fst snd].
  split; [reflexivity|]. split; [|split; [|split; [reflexivity|]]].
  - unfold GetOutboundGroupSession.
    cbn [with_outbound crypto_megolm_outbound_session AccountID PickleKey].
    rewrite SQL.lookup_sql_upsert. rewrite decide_True by reflexivity.
    destruct (crypto_megolm_outbound_session store !! _);
      cbn [ob_session ob_shared ob_max_messages ob_message_count ob_max_age
           ob_created_at ob_last_used];
      rewrite Hunpickle, Milliseconds_Duration_Milliseconds by exact Hage;
      reflexivity.
  - intros roomID Hne.
    match goal with |- ?a = _ /\ _ => assert (Hadd : a = GetOutboundGroupSession store roomID) end.
    { unfold GetOutboundGroupSession.
      cbn [with_outbound crypto_megolm_outbound_session AccountID PickleKey].
      rewrite SQL.lookup_sql_upsert. rewrite decide_False by congruence.
      reflexivity. }
    split; [exact Hadd|]. rewrite <- Hadd.
    unfold GetOutboundGroupSession. rewrite lookup_remove_outbound.
    cbn [RemoveOutboundGroupSession snd with_outbound AccountID PickleKey].
    rewrite decide_False by congruence. reflexivity.
  - unfold GetOutboundGroupSession. rewrite lookup_remove_outbound.
    cbn [with_outbound AccountID]. rewrite decide_True by reflexivity. reflexivity.
Qed.

(** X14: [UpdateOutboundGroupSession] never inserts and only touches the row
    of the session's room when the stored session ID is the session's: a room
    without a session, or with another session, leaves the store as it was.
    When the IDs agree, the pickle, the message count and the last-used time
    are rewritten and nothing else, so [GetOutboundGroupSession] afterwards
    still returns the stored shared flag, message limit, maximum age and
    creation time, not those of the session given. *)
Theorem UpdateOutboundGroupSession_scope (store : SQLCryptoStore)
    (session : OutboundGroupSession) sessionBytes intOGS :
  OGS_Pickle (Internal session) (PickleKey store) = Ok sessionBytes ->
  OGS_Unpickle sessionBytes (PickleKey store) = Ok intOGS ->
  let r := UpdateOutboundGroupSession store session in
  r.1 = None /\
  match crypto_megolm_outbound_session store !! (AccountID store, RoomID session) with
  | None => r.2 = store
  | Some row =>
      if decide (ob_session_id row = OutboundGroupSession_ID session) then
        GetOutboundGroupSession r.2 (RoomID session) =
          Ok (Some {| Internal := intOGS;
                      RoomID := RoomID session;
                      Shared := ob_shared row;
                      MaxMessages := ob_max_messages row;
                      MessageCount := MessageCount session;
                      MaxAge := Milliseconds_Duration (ob_max_age row);
                      CreationTime := ob_created_at row;
                      LastEncryptedTime := LastEncryptedTime session |}) /\
        forall k, k <> (AccountID store, RoomID session) ->
          crypto_megolm_outbound_session r.2 !! k =
          crypto_megolm_outbound_session store !! k
      else r.2 = store
  end.
Proof.
  intros Hpickle Hunpickle. cbv zeta.
  unfold UpdateOutboundGroupSession. rewrite Hpickle. cbn [fst snd].
  split; [reflexivity|].
  assert (Hsame : forall t, t = crypto_megolm_outbound_session store ->
                            with_outbound store t = store).
  { intros t ->. destruct store. reflexivity. }
  assert (Hother : forall k row, k <> (AccountID store, RoomID session) ->
                     update_outbound_where store session k row = false).
  { intros [a r] row Hne. unfold update_outbound_where. cbn [fst snd].
    destruct (bool_decide_reflect (r = RoomID session)) as [->|]; [|reflexivity].
    rewrite (bool_decide_eq_false_2 (a = AccountID store)) by congruence.
    apply andb_false_r. }
  destruct (crypto_megolm_outbound_session store !! (AccountID store, RoomID session))
    as [row|] eqn:Hk.
  - destruct (decide (ob_session_id row = OutboundGroupSession_ID session)) as [Hid|Hid].
    + split.
      * unfold GetOutboundGroupSession.
        cbn [with_outbound crypto_megolm_outbound_session AccountID PickleKey].
        rewrite Store.lookup_sql_update, Hk. cbn [fmap option_fmap option_map].
        unfold update_outbound_where. cbn [fst snd].
        rewrite !bool_decide_eq_true_2 by (reflexivity || exact Hid).
        cbn [andb update_outbound_set ob_session ob_shared ob_max_messages
             ob_message_count ob_max_age ob_created_at ob_last_used].
        rewrite Hunpickle. reflexivity.
      * intros k Hne. cbn [with_outbound crypto_megolm_outbound_session].
        rewrite Store.lookup_sql_update.
        destruct (crypto_megolm_outbound_session store !! k) as [row'|]; [|reflexivity].
        cbn [fmap option_fmap option_map]. rewrite (Hother k row' Hne). reflexivity.
    + apply Hsame. apply GroupSessions.sql_update_none. intros k v Hv.
      destruct (decide (k = (AccountID store, RoomID session))) as [->|Hne].
      * rewrite Hk in Hv. injection Hv as <-. unfold update_outbound_where.
        rewrite (bool_decide_eq_false_2 (ob_session_id row = _)) by exact Hid.
        rewrite andb_false_r. reflexivity.
      * apply Hother. exact Hne.
  - apply Hsame. apply GroupSessions.sql_update_none. intros k v Hv.
    apply Hother. intros ->. congruence.
Qed.

End Outbound.

#[local] Instance test_OutboundGroupSession : olm_OutboundGroupSession string := {|
  OGS_ID := fun s => s;
  OGS_Pickle := fun s key => Ok (Store.bytes_of_string s ++ key);
  OGS_Unpickle := fun b key =>
    Ok (Store.string_of_bytes (take (length b - length key) b))
|}.

Definition test_outbound (sid : string) (shared : bool) (maxAge : Z)
  : @OutboundGroupSession string :=
  {| Internal := sid; RoomID := "!room"; Shared := shared; MaxMessages := 100;
     MessageCount := 3; MaxAge := maxAge; CreationTime := 10;
     LastEncryptedTime := 20 |}.

Definition test_outbound_store : SQLCryptoStore :=
  {| AccountID := "acct"; PickleKey := [1; 2; 3];
     crypto_megolm_outbound_session := ∅ |}.

Lemma AddOutboundGroupSession_GetOutboundGroupSession_witness :
  GetOutboundGroupSession
    (AddOutboundGroupSession test_outbound_store (test_outbound "o1" false 1500000)).2
    "!room" = Ok (Some (test_outbound "o1" false 1000000)).
Proof.
  pose proof (AddOutboundGroupSession_GetOutboundGroupSession test_outbound_store
                (test_outbound "o1" false 1500000) _ "o1"%string eq_refl eq_refl
                ltac:(cbn; lia)) as (_ & Hget & _).
  exact Hget.
Defined.

Lemma UpdateOutboundGroupSession_scope_witness :
  let stored :=
    (AddOutboundGroupSession test_outbound_store (test_outbound "o1" false 1000000)).2 in
  (UpdateOutboundGroupSession stored (test_outbound "o2" true 0)).2 = stored /\
  GetOutboundGroupSession
    (UpdateOutboundGroupSession stored (test_outbound "o1" true 0)).2 "!room" =
  Ok (Some (test_outbound "o1" false 1000000)).
Proof.
  cbv zeta.
  pose proof (UpdateOutboundGroupSession_scope
                (AddOutboundGroupSession test_outbound_store
                   (test_outbound "o1" false 1000000)).2
                (test_outbound "o2" true 0) _ "o2"%string eq_refl eq_refl)
    as (_ & Hother).
  pose proof (UpdateOutboundGroupSession_scope
                (AddOutboundGroupSession test_outbound_store
                   (test_outbound "o1" false 1000000)).2
                (test_outbound "o1" true 0) _ "o1"%string eq_refl eq_refl)
    as (_ & Hsame).
  split; [exact Hother|]. destruct Hsame as [Hsame _]. exact Hsame.
Defined.

End Outbound.

Module Secrets.

Section Secrets.
(** [libolmpickle.Pickle] and [libolmpickle.Unpickle] (key first).  A secret
    value is a Go string, here its bytes: the conversions [[]byte(value)] and
    [string(bytes)] copy them. *)
Variable libolmpickle_Pickle : list Z -> list Z -> Result Store.error (list Z).
Variable libolmpickle_Unpickle : list Z -> list Z -> list Z * option Store.error.

(** [crypto_secrets] is keyed by [(account_id, name)]. *)
Record SQLCryptoStore : Type := {
  AccountID : string;
  PickleKey : list Z;
  crypto_secrets : gmap (string * string) (list Z)
}.

Definition with_secrets (store : SQLCryptoStore) t : SQLCryptoStore :=
  {| AccountID := AccountID store; PickleKey := PickleKey store; crypto_secrets := t |}.

(** A second store object on the same database, for another account. *)
Definition for_account (store : SQLCryptoStore) (accountID : string) : SQLCryptoStore :=
  {| AccountID := accountID; PickleKey := PickleKey store;
     crypto_secrets := crypto_secrets store |}.

Definition PutSecret (store : SQLCryptoStore) (name : string) (value : list Z)
  : option Store.error * SQLCryptoStore :=
  match libolmpickle_Pickle (PickleKey store) value with
  | Err err => (Some err, store)
  | Ok bytes =>
      (None,
       with_secrets store
         (SQL.sql_upsert (AccountID store, name) bytes (fun old excluded => excluded)
            (crypto_secrets store)))
  end.

Definition GetSecret (store : SQLCryptoStore) (name : string)
  : list Z * option Store.error :=
  match crypto_secrets store !! (AccountID store, name) with
  | None => ([], None)
  | Some bytes => libolmpickle_Unpickle (PickleKey store) bytes
  end.

Definition DeleteSecret (store : SQLCryptoStore) (name : string)
  : option Store.error * SQLCryptoStore :=
  (None,
   with_secrets store
     (SQL.sql_delete
        (fun k _ => bool_decide (k.1 = AccountID store) && bool_decide (k.2 = name))
        (crypto_secrets store))).

(** X15: with a pickle that [libolmpickle.Unpickle] reads back, [GetSecret]
    returns the value [PutSecret] stored under the name, replacing an earlier
    value; secrets under other names and the secrets of other accounts read
    as before; after [DeleteSecret] the name reads as the empty string
    without an error, as does any name that was never stored. *)
Theorem PutSecret_GetSecret_roundtrip (store : SQLCryptoStore) name value bytes :
  libolmpickle_Pickle (PickleKey store) value = Ok bytes ->
  libolmpickle_Unpickle (PickleKey store) bytes = (value, None) ->
  let r := PutSecret store name value in
  let d := DeleteSecret r.2 name in
  r.1 = None /\
  GetSecret r.2 name = (value, None) /\
  (forall name', name' <> name ->
     GetSecret r.2 name' = GetSecret store name' /\
     GetSecret d.2 name' = GetSecret store name') /\
  (forall accountID name', accountID <> AccountID store ->
     GetSecret (for_account r.2 accountID) name' =
     GetSecret (for_account store accountID) name') /\
  d.1 = None /\
  GetSecret d.2 name = ([], None).
Proof.
  intros Hpickle Hunpickle. cbv zeta. unfold PutSecret. rewrite Hpickle.
  cbn [fst snd]. split; [reflexivity|].
  unfold GetSecret, DeleteSecret.
  cbn [fst snd with_secrets for_account crypto_secrets AccountID PickleKey].
  split; [|split; [|split; [|split; [reflexivity|]]]].
  - rewrite SQL.lookup_sql_upsert, decide_True by reflexivity.
    destruct (crypto_secrets store !! _); exact Hunpickle.
  - intros name' Hne. rewrite SQL.lookup_sql_delete.
    rewrite SQL.lookup_sql_upsert, decide_False by congruence.
    split; [reflexivity|].
    destruct (crypto_secrets store !! _); [|reflexivity].
    cbn [fst snd]. rewrite (bool_decide_eq_false_2 (name' = name)) by exact Hne.
    rewrite andb_false_r. reflexivity.
  - intros accountID name' Hne.
    rewrite SQL.lookup_sql_upsert, decide_False by congruence. reflexivity.
  - rewrite SQL.lookup_sql_delete.
    rewrite SQL.lookup_sql_upsert, decide_True by reflexivity.
    cbn [fst snd]. rewrite !bool_decide_eq_true_2 by reflexivity. reflexivity.
Qed.

End Secrets.

(** A test pickle: the key is put in front of the value. *)
Definition test_secret_Pickle (key value : list Z) : Result Store.error (list Z) :=
  match key with
  | [] => Err (Store.BackendError "NO_KEY_PROVIDED")
  | _ => Ok (key ++ value)
  end.

Definition test_secret_Unpickle (key bytes : list Z) : list Z * option Store.error :=
  if bool_decide (take (length key) bytes = key) then (drop (length key) bytes, None)
  else ([], Some (Store.BackendError "BAD_ACCOUNT_KEY")).

Definition test_secret_store : SQLCryptoStore :=
  {| AccountID := "acct"; PickleKey := [1; 2; 3];
     crypto_secrets := {[ ("acct"%string, "m.megolm_backup.v1"%string) := [1; 2; 3; 9] ]} |}.

Lemma PutSecret_GetSecret_roundtrip_witness :
  GetSecret test_secret_Unpickle
    (PutSecret test_secret_Pickle test_secret_store "m.megolm_backup.v1" [4; 5]).2
    "m.megolm_backup.v1" = ([4; 5], None) /\
  GetSecret test_secret_Unpickle test_secret_store "m.megolm_backup.v1" = ([9], None).
Proof.
  pose proof (PutSecret_GetSecret_roundtrip test_secret_Pickle test_secret_Unpickle
                test_secret_store "m.megolm_backup.v1" [4; 5] _ eq_refl eq_refl)
    as (_ & Hget & _).
  split; [exact Hget|]. vm_compute. reflexivity.
Defined.

End Secrets.

Module CrossSigningStore.

(** [id.CrossSigningKey]. *)
Record CrossSigningKey : Type := {
  Key : string;
  First : string
}.

(** [crypto_cross_signing_keys] maps [(user_id, usage)] to
    [(key, first_seen_key)]; [crypto_cross_signing_signatures] maps
    [(signed_user_id, signed_key, signer_user_id, signer_key)] to the
    signature. *)
Record SQLCryptoStore : Type := {
  crypto_cross_signing_keys : gmap (string * string) (string * string);
  crypto_cross_signing_signatures : gmap (string * string * string * string) string
}.

(** [ON CONFLICT (user_id, usage) DO UPDATE SET key=excluded.key]. *)
Definition PutCrossSigningKey (store : SQLCryptoStore) (userID usage key : string)
  : option Store.error * SQLCryptoStore :=
  (None,
   {| crypto_cross_signing_keys :=
        SQL.sql_upsert (userID, usage) (key, key)
          (fun old excluded => (excluded.1, old.2))
          (crypto_cross_signing_keys store);
      crypto_cross_signing_signatures := crypto_cross_signing_signatures store |}).

Definition GetCrossSigningKeys (store : SQLCryptoStore) (userID : string)
  : Result Store.error (gmap string CrossSigningKey) :=
  Ok (SQL.scan_into (fun row : string * string * (string * string) => row.1.2)
        (fun row => {| Key := row.2.1; First := row.2.2 |})
        (GroupSessions.sql_select (fun k _ => bool_decide (k.1 = userID))
           (crypto_cross_signing_keys store))).

Definition PutSignature (store : SQLCryptoStore)
    (signedUserID signedKey signerUserID signerKey signature : string)
  : option Store.error * SQLCryptoStore :=
  (None,
   {| crypto_cross_signing_keys := crypto_cross_signing_keys store;
      crypto_cross_signing_signatures :=
        SQL.sql_upsert (signedUserID, signedKey, signerUserID, signerKey) signature
          (fun old excluded => excluded)
          (crypto_cross_signing_signatures store) |}).

Definition signed_by_where (userID key signerID : string)
    (k : string * string * string * string) (_ : string) : bool :=
  bool_decide (k.1.1.1 = userID) && bool_decide (k.1.1.2 = key) &&
  bool_decide (k.1.2 = signerID).

Definition GetSignaturesForKeyBy (store : SQLCryptoStore) (userID key signerID : string)
  : Result Store.error (gmap string string) :=
  Ok (SQL.scan_into (fun row : string * string * string * string * string => row.1.2)
        (fun row => row.2)
        (GroupSessions.sql_select (signed_by_where userID key signerID)
           (crypto_cross_signing_signatures store))).

(** [SELECT EXISTS(SELECT 1 ... WHERE ...)]. *)
Definition IsKeySignedBy (store : SQLCryptoStore)
    (signedUserID signedKey signerUserID signerKey : string)
  : bool * option Store.error :=
  (match GroupSessions.sql_select
           (fun k _ => signed_by_where signedUserID signedKey signerUserID k EmptyString
                       && bool_decide (k.2 = signerKey))
           (crypto_cross_signing_signatures store) with
   | [] => false
   | _ :: _ => true
   end, None).

Definition signer_where (userID key : string)
    (k : string * string * string * string) (_ : string) : bool :=
  bool_decide (k.1.2 = userID) && bool_decide (k.2 = key).

Definition DropSignaturesByKey (store : SQLCryptoStore) (userID key : string)
  : Z * option Store.error * SQLCryptoStore :=
  (SQL.rows_affected (signer_where userID key) (crypto_cross_signing_signatures store),
   None,
   {| crypto_cross_signing_keys := crypto_cross_signing_keys store;
      crypto_cross_signing_signatures :=
        SQL.sql_delete (signer_where userID key)
          (crypto_cross_signing_signatures store) |}).

(** *** Reading the rows into a map *)

Lemma GetCrossSigningKeys_lookup (store : SQLCryptoStore) userID :
  exists data, GetCrossSigningKeys store userID = Ok data /\
    forall usage,
      data !! usage =
      (fun row : string * string => {| Key := row.1; First := row.2 |}) <$>
        crypto_cross_signing_keys store !! (userID, usage).
Proof.
  eexists. split; [reflexivity|]. intros usage.
  rewrite (SQL.scan_into_select (fun k _ => bool_decide (k.1 = userID))
             (fun k : string * string => k.2)
             (fun row => {| Key := row.2.1; First := row.2.2 |})
             _ (fun usage => (userID, usage))).
  - destruct (crypto_cross_signing_keys store !! (userID, usage)); [|reflexivity].
    cbn [fst snd]. rewrite !bool_decide_eq_true_2 by reflexivity. reflexivity.
  - intros [u us] v Hw. cbn [fst snd] in *. apply bool_decide_eq_true_1 in Hw.
    congruence.
Qed.

Lemma GetSignaturesForKeyBy_lookup (store : SQLCryptoStore) userID key signerID :
  exists data, GetSignaturesForKeyBy store userID key signerID = Ok data /\
    forall signerKey,
      data !! signerKey =
      crypto_cross_signing_signatures store !! (userID, key, signerID, signerKey).
Proof.
  eexists. split; [reflexivity|]. intros signerKey.
  rewrite (SQL.scan_into_select (signed_by_where userID key signerID)
             (fun k : string * string * string * string => k.2)
             (fun row => row.2)
             _ (fun signerKey => (userID, key, signerID, signerKey))).
  - destruct (crypto_cross_signing_signatures store !! _); [|reflexivity].
    unfold signed_by_where. cbn [fst snd].
    rewrite !bool_decide_eq_true_2 by reflexivity. reflexivity.
  - intros [[[a b] c] d] v Hw. unfold signed_by_where in Hw. cbn [fst snd] in *.
    apply andb_prop in Hw as [Hw H3]. apply andb_prop in Hw as [H1 H2].
    apply bool_decide_eq_true_1 in H1, H2, H3. congruence.
Qed.

Lemma IsKeySignedBy_lookup (store : SQLCryptoStore) a b c d :
  IsKeySignedBy store a b c d =
  (bool_decide (is_Some (crypto_cross_signing_signatures store !! (a, b, c, d))), None).
Proof.
  unfold IsKeySignedBy. f_equal.
  match goal with |- match ?l with _ => _ end = _ => destruct l as [|[k v] rest] eqn:Hl end.
  - symmetry. apply bool_decide_eq_false_2. intros [sig Hsig].
    assert (Hin : ((a, b, c, d), sig) ∈
              GroupSessions.sql_select
                (fun k _ => signed_by_where a b c k EmptyString && bool_decide (k.2 = d))
                (crypto_cross_signing_signatures store)).
    { apply GroupSessions.elem_of_sql_select. split; [exact Hsig|].
      unfold signed_by_where. cbn [fst snd].
      rewrite !bool_decide_eq_true_2 by reflexivity. reflexivity. }
    rewrite Hl in Hin. apply elem_of_nil in Hin. exact Hin.
  - symmetry. apply bool_decide_eq_true_2.
    assert (Hin : (k, v) ∈ (k, v) :: rest) by left.
    rewrite <- Hl in Hin. apply GroupSessions.elem_of_sql_select in Hin as [Hin Hw].
    destruct k as [[[a' b'] c'] d']. unfold signed_by_where in Hw. cbn [fst snd] in Hw.
    apply andb_prop in Hw as [Hw H4]. apply andb_prop in Hw as [Hw H3].
    apply andb_prop in Hw as [H1 H2].
    apply bool_decide_eq_true_1 in H1, H2, H3, H4. subst. exists v. exact Hin.
Qed.

Lemma last_cons_default {A} (l : list A) : forall a d,
  List.last (a :: l) d = List.last l a.
Proof.
  induction l as [|b l IH]; intros a d; [reflexivity|].
  change (List.last (a :: b :: l) d) with (List.last (b :: l) d).
  rewrite (IH b d), (IH b a). reflexivity.
Qed.

(** X16: the first key seen for a user and usage is kept for good.  After
    [PutCrossSigningKey] has run for a first key and then for any further
    keys, [GetCrossSigningKeys] reports the last key put as [Key]; [First] is
    the [First] that was reported before these calls, or the first key put
    when there was none.  The other usages of the user read as before. *)
Theorem PutCrossSigningKey_keeps_first_seen (store : SQLCryptoStore)
    (userID usage key : string) (keys : list string) :
  let store' :=
    foldl (fun s k => (PutCrossSigningKey s userID usage k).2) store (key :: keys) in
  exists data0 data,
    GetCrossSigningKeys store userID = Ok data0 /\
    GetCrossSigningKeys store' userID = Ok data /\
    data !! usage =
      Some {| Key := List.last keys key;
              First := from_option First key (data0 !! usage) |} /\
    forall usage', usage' <> usage -> data !! usage' = data0 !! usage'.
Proof.
  cbv zeta.
  assert (Hfold : forall ks s,
    let s' := foldl (fun s k => (PutCrossSigningKey s userID usage k).2) s ks in
    (forall k, k <> (userID, usage) ->
       crypto_cross_signing_keys s' !! k = crypto_cross_signing_keys s !! k) /\
    forall row, crypto_cross_signing_keys s !! (userID, usage) = Some row ->
      crypto_cross_signing_keys s' !! (userID, usage) = Some (List.last ks row.1, row.2)).
  { induction ks as [|k ks IH]; intros s; cbv zeta.
    - split; [reflexivity|]. intros [a b] Hrow. exact Hrow.
    - cbn [foldl]. destruct (IH (PutCrossSigningKey s userID usage k).2) as [IH1 IH2].
      cbv zeta in IH1, IH2. split.
      + intros k' Hne. rewrite (IH1 k' Hne).
        cbn [PutCrossSigningKey snd crypto_cross_signing_keys].
        rewrite SQL.lookup_sql_upsert, decide_False by exact Hne. reflexivity.
      + intros row Hrow.
        rewrite (IH2 (k, row.2)).
        * cbn [fst snd]. rewrite last_cons_default. reflexivity.
        * cbn [PutCrossSigningKey snd crypto_cross_signing_keys].
          rewrite SQL.lookup_sql_upsert, decide_True, Hrow by reflexivity.
          reflexivity. }
  destruct (GetCrossSigningKeys_lookup store userID) as (data0 & Hget0 & Hdata0).
  destruct (GetCrossSigningKeys_lookup
              (foldl (fun s k => (PutCrossSigningKey s userID usage k).2) store
                 (key :: keys)) userID) as (data & Hget & Hdata).
  exists data0, data. split; [exact Hget0|]. split; [exact Hget|].
  cbn [foldl] in Hdata.
  destruct (Hfold keys (PutCrossSigningKey store userID usage key).2) as [H1 H2].
  cbv zeta in H1, H2. split.
  - rewrite Hdata, Hdata0.
    rewrite (H2 (key, from_option snd key
                        (crypto_cross_signing_keys store !! (userID, usage)))).
    + cbn [fmap option_fmap option_map fst snd]. f_equal. f_equal.
      destruct (crypto_cross_signing_keys store !! (userID, usage)); reflexivity.
    + cbn [PutCrossSigningKey snd crypto_cross_signing_keys].
      rewrite SQL.lookup_sql_upsert, decide_True by reflexivity.
      destruct (crypto_cross_signing_keys store !! (userID, usage)); reflexivity.
  - intros usage' Hne. rewrite Hdata, Hdata0. rewrite H1 by congruence.
    cbn [PutCrossSigningKey snd crypto_cross_signing_keys].
    rewrite SQL.lookup_sql_upsert, decide_False by congruence. reflexivity.
Qed.

(** X17: after [PutSignature], [IsKeySignedBy] is true for the signed key and
    the signer key, and the map of [GetSignaturesForKeyBy] holds the new
    signature under the signer key, in place of an earlier one; for every
    other combination of signed key and signer both reads answer as before.
    The two reads always agree: [IsKeySignedBy] is true exactly for the
    signer keys that [GetSignaturesForKeyBy] lists. *)
Theorem PutSignature_then_signed (store : SQLCryptoStore)
    (signedUserID signedKey signerUserID signerKey signature : string) :
  let r := PutSignature store signedUserID signedKey signerUserID signerKey signature in
  r.1 = None /\
  IsKeySignedBy r.2 signedUserID signedKey signerUserID signerKey = (true, None) /\
  (exists data,
     GetSignaturesForKeyBy r.2 signedUserID signedKey signerUserID = Ok data /\
     data !! signerKey = Some signature) /\
  (forall a b c d, (a, b, c, d) <> (signedUserID, signedKey, signerUserID, signerKey) ->
     IsKeySignedBy r.2 a b c d = IsKeySignedBy store a b c d /\
     exists data0 data,
       GetSignaturesForKeyBy store a b c = Ok data0 /\
       GetSignaturesForKeyBy r.2 a b c = Ok data /\
       data !! d = data0 !! d) /\
  (forall s a b c d, exists data,
     GetSignaturesForKeyBy s a b c = Ok data /\
     ((IsKeySignedBy s a b c d).1 = true <-> is_Some (data !! d))).
Proof.
  cbv zeta. split; [reflexivity|].
  split; [|split; [|split]].
  - rewrite IsKeySignedBy_lookup. cbn [PutSignature snd crypto_cross_signing_signatures].
    rewrite SQL.lookup_sql_upsert, decide_True by reflexivity.
    rewrite bool_decide_eq_true_2 by (eexists; reflexivity). reflexivity.
  - destruct (GetSignaturesForKeyBy_lookup
                (PutSignature store signedUserID signedKey signerUserID signerKey
                   signature).2 signedUserID signedKey signerUserID)
      as (data & Hget & Hdata).
    exists data. split; [exact Hget|]. rewrite Hdata.
    cbn [PutSignature snd crypto_cross_signing_signatures].
    rewrite SQL.lookup_sql_upsert, decide_True by reflexivity.
    destruct (crypto_cross_signing_signatures store !! _); reflexivity.
  - intros a b c d Hne. split.
    + rewrite !IsKeySignedBy_lookup.
      cbn [PutSignature snd crypto_cross_signing_signatures].
      rewrite SQL.lookup_sql_upsert, decide_False by exact Hne. reflexivity.
    + destruct (GetSignaturesForKeyBy_lookup store a b c) as (data0 & Hget0 & Hdata0).
      destruct (GetSignaturesForKeyBy_lookup
                  (PutSignature store signedUserID signedKey signerUserID signerKey
                     signature).2 a b c) as (data & Hget & Hdata).
      exists data0, data. split; [exact Hget0|]. split; [exact Hget|].
      rewrite Hdata, Hdata0. cbn [PutSignature snd crypto_cross_signing_signatures].
      rewrite SQL.lookup_sql_upsert, decide_False by exact Hne. reflexivity.
  - intros s a b c d.
    destruct (GetSignaturesForKeyBy_lookup s a b c) as (data & Hget & Hdata).
    exists data. split; [exact Hget|]. rewrite IsKeySignedBy_lookup, Hdata.
    cbn [fst]. apply bool_decide_eq_true.
Qed.

(** X18: [DropSignaturesByKey] returns the number of signatures it removes,
    which is the number the table shrinks by; a count of zero means the store
    is unchanged.  Afterwards no key is signed by the given signer key of
    the given user, while for every other signer [IsKeySignedBy] answers as
    before, and the cross-signing keys are untouched. *)
Theorem DropSignaturesByKey_count (store : SQLCryptoStore) (userID key : string) :
  let r := DropSignaturesByKey store userID key in
  let count := r.1.1 in
  r.1.2 = None /\
  0 <= count /\
  Z.of_nat (size (crypto_cross_signing_signatures store)) =
    Z.of_nat (size (crypto_cross_signing_signatures r.2)) + count /\
  (count = 0 -> r.2 = store) /\
  (forall a b, IsKeySignedBy r.2 a b userID key = (false, None)) /\
  (forall a b c d, (c, d) <> (userID, key) ->
     IsKeySignedBy r.2 a b c d = IsKeySignedBy store a b c d) /\
  crypto_cross_signing_keys r.2 = crypto_cross_signing_keys store.
Proof.
  cbv zeta. cbn [DropSignaturesByKey fst snd].
  split; [reflexivity|].
  split; [unfold SQL.rows_affected; lia|].
  split; [apply SQL.size_sql_delete|].
  split; [|split; [|split; [|reflexivity]]].
  - intros Hzero. unfold SQL.rows_affected in Hzero.
    assert (Hnil : GroupSessions.sql_select (signer_where userID key)
                     (crypto_cross_signing_signatures store) = []).
    { destruct (GroupSessions.sql_select _ _); [reflexivity|simpl in Hzero; lia]. }
    rewrite SQL.sql_delete_none; [destruct store; reflexivity|].
    intros k v Hk. destruct (signer_where userID key k v) eqn:Hw; [|reflexivity].
    assert (Hin : (k, v) ∈ GroupSessions.sql_select (signer_where userID key)
                     (crypto_cross_signing_signatures store))
      by (apply GroupSessions.elem_of_sql_select; split; assumption).
    rewrite Hnil in Hin. apply elem_of_nil in Hin. contradiction.
  - intros a b. rewrite IsKeySignedBy_lookup. cbn [crypto_cross_signing_signatures].
    rewrite SQL.lookup_sql_delete.
    destruct (crypto_cross_signing_signatures store !! _) as [sig|].
    + unfold signer_where. cbn [fst snd].
      rewrite (bool_decide_eq_true_2 (userID = userID)) by reflexivity.
      rewrite (bool_decide_eq_true_2 (key = key)) by reflexivity. reflexivity.
    + reflexivity.
  - intros a b c d Hne. rewrite !IsKeySignedBy_lookup.
    cbn [crypto_cross_signing_signatures]. rewrite SQL.lookup_sql_delete.
    destruct (crypto_cross_signing_signatures store !! _) as [sig|]; [|reflexivity].
    unfold signer_where. cbn [fst snd].
    destruct (bool_decide_reflect (c = userID)) as [->|]; [|reflexivity].
    rewrite (bool_decide_eq_false_2 (d = key)) by congruence. reflexivity.
Qed.

End CrossSigningStore.

Module Account.

(** The [olm.Account] interface, as far as the store uses it;
    [Account_Unpickle] stands for [olm.NewBlankAccount] followed by
    [Unpickle]. *)
Class olm_Account (A : Type) : Type := {
  Account_Pickle : A -> list Z -> Result Store.error (list Z);
  Account_Unpickle : list Z -> list Z -> Result Store.error A
}.

(** Rows of [crypto_account]; the key is [account_id]. *)
Record AccountRow : Type := {
  device_id : string;
  shared : bool;
  sync_token : string;
  account : list Z;
  key_backup_version : string
}.

Section Account.
Context {A : Type} `{!olm_Account A}.

(** [OlmAccount], with the fields the store reads and writes. *)
Record OlmAccount : Type := {
  Internal : A;
  Shared : bool;
  KeyBackupVersion : string
}.

Record SQLCryptoStore : Type := {
  crypto_account : gmap string AccountRow;
  AccountID : string;
  DeviceID : string;
  SyncToken : string;
  PickleKey : list Z;
  Account : option OlmAccount
}.

(** [NewSQLCryptoStore] on a database: no sync token and no account are in
    memory yet. *)
Definition NewSQLCryptoStore (db : gmap string AccountRow)
    (accountID deviceID : string) (pickleKey : list Z) : SQLCryptoStore :=
  {| crypto_account := db;
     AccountID := accountID;
     DeviceID := deviceID;
     SyncToken := EmptyString;
     PickleKey := pickleKey;
     Account := None |}.

Definition set_sync_token (token : string) (row : AccountRow) : AccountRow :=
  {| device_id := device_id row;
     shared := shared row;
     sync_token := token;
     account := account row;
     key_backup_version := key_backup_version row |}.

Definition PutNextBatch (store : SQLCryptoStore) (nextBatch : string)
  : option Store.error * SQLCryptoStore :=
  (None,
   {| crypto_account :=
        Store.sql_update (fun k _ => bool_decide (k = AccountID store))
          (set_sync_token nextBatch) (crypto_account store);
      AccountID := AccountID store;
      DeviceID := DeviceID store;
      SyncToken := nextBatch;
      PickleKey := PickleKey store;
      Account := Account store |}).

Definition with_SyncToken (store : SQLCryptoStore) (token : string) : SQLCryptoStore :=
  {| crypto_account := crypto_account store;
     AccountID := AccountID store;
     DeviceID := DeviceID store;
     SyncToken := token;
     PickleKey := PickleKey store;
     Account := Account store |}.

(** With an empty token in memory the row is read into [store.SyncToken];
    the error of that read is [nil] when the row exists, which is not
    [sql.ErrNoRows], so the function returns [("", err)] there. *)
Definition GetNextBatch (store : SQLCryptoStore)
  : string * option Store.error * SQLCryptoStore :=
  if bool_decide (SyncToken store = EmptyString) then
    match crypto_account store !! AccountID store with
    | Some row => (EmptyString, None, with_SyncToken store (sync_token row))
    | None => (SyncToken store, None, store)
    end
  else (SyncToken store, None, store).

Definition SaveNextBatch (store : SQLCryptoStore) (nextBatchToken : string)
  : option Store.error * SQLCryptoStore :=
  let '(err, store) := PutNextBatch store nextBatchToken in
  match err with
  | Some err => (Some (Store.Errorf "unable to store batch" err), store)
  | None => (None, store)
  end.

Definition LoadNextBatch (store : SQLCryptoStore)
  : string * option Store.error * SQLCryptoStore :=
  let '(nb, err, store) := GetNextBatch store in
  match err with
  | Some err => (EmptyString, Some (Store.Errorf "unable to load batch" err), store)
  | None => (nb, None, store)
  end.

Definition FindDeviceID (store : SQLCryptoStore) : string * option Store.error :=
  match crypto_account store !! AccountID store with
  | Some row => (device_id row, None)
  | None => (EmptyString, None)
  end.

Definition with_Account (store : SQLCryptoStore) (acc : option OlmAccount)
  : SQLCryptoStore :=
  {| crypto_account := crypto_account store;
     AccountID := AccountID store;
     DeviceID := DeviceID store;
     SyncToken := SyncToken store;
     PickleKey := PickleKey store;
     Account := acc |}.

Definition with_crypto_account (store : SQLCryptoStore) t : SQLCryptoStore :=
  {| crypto_account := t;
     AccountID := AccountID store;
     DeviceID := DeviceID store;
     SyncToken := SyncToken store;
     PickleKey := PickleKey store;
     Account := Account store |}.

(** The [ON CONFLICT (account_id) DO UPDATE] of [PutAccount] sets every
    column but [device_id]. *)
Definition account_conflict_update (old excluded : AccountRow) : AccountRow :=
  {| device_id := device_id old;
     shared := shared excluded;
     sync_token := sync_token excluded;
     account := account excluded;
     key_backup_version := key_backup_version excluded |}.

Definition PutAccount (store : SQLCryptoStore) (acc : OlmAccount)
  : option Store.error * SQLCryptoStore :=
  let store := with_Account store (Some acc) in
  match Account_Pickle (Internal acc) (PickleKey store) with
  | Err err => (Some err, store)
  | Ok bytes =>
      (None,
       with_crypto_account store
         (SQL.sql_upsert (AccountID store)
            {| device_id := DeviceID store;
               shared := Shared acc;
               sync_token := SyncToken store;
               account := bytes;
               key_backup_version := KeyBackupVersion acc |}
            account_conflict_update
            (crypto_account store)))
  end.

Definition GetAccount (store : SQLCryptoStore)
  : Result Store.error (option OlmAccount) * SQLCryptoStore :=
  match Account store with
  | Some acc => (Ok (Some acc), store)
  | None =>
      match crypto_account store !! AccountID store with
      | None => (Ok None, store)
      | Some row =>
          let store := with_SyncToken store (sync_token row) in
          match Account_Unpickle (account row) (PickleKey store) with
          | Err err => (Err err, store)
          | Ok internal =>
              let acc := {| Internal := internal;
                            Shared := shared row;
                            KeyBackupVersion := key_backup_version row |} in
              (Ok (Some acc), with_Account store (Some acc))
          end
      end
  end.

(** X19: with no sync token in memory, [GetNextBatch] and [LoadNextBatch]
    return the empty token without an error, whatever the account row holds.
    When the row exists, the call has loaded its token into the store, so the
    next call returns the stored token (if that is not empty); without a row
    the store is unchanged. *)
Theorem GetNextBatch_empty_token (store : SQLCryptoStore) :
  SyncToken store = EmptyString ->
  let r := GetNextBatch store in
  r.1 = (EmptyString, None) /\
  LoadNextBatch store = r /\
  match crypto_account store !! AccountID store with
  | Some row =>
      SyncToken r.2 = sync_token row /\
      (sync_token row <> EmptyString ->
       GetNextBatch r.2 = (sync_token row, None, r.2) /\
       LoadNextBatch r.2 = (sync_token row, None, r.2))
  | None => r.2 = store
  end.
Proof.
  intros Hempty. cbv zeta.
  destruct (crypto_account store !! AccountID store) as [row|] eqn:Hrow.
  - assert (Hr : GetNextBatch store =
                 (EmptyString, None, with_SyncToken store (sync_token row))).
    { unfold GetNextBatch. rewrite bool_decide_eq_true_2 by exact Hempty.
      rewrite Hrow. reflexivity. }
    unfold LoadNextBatch. rewrite Hr. cbn [fst snd].
    split; [reflexivity|]. split; [reflexivity|]. split; [reflexivity|].
    intros Hne. unfold GetNextBatch. cbn [SyncToken with_SyncToken].
    rewrite bool_decide_eq_false_2 by exact Hne. split; reflexivity.
  - assert (Hr : GetNextBatch store = (EmptyString, None, store)).
    { unfold GetNextBatch. rewrite bool_decide_eq_true_2 by exact Hempty.
      rewrite Hrow, Hempty. reflexivity. }
    unfold LoadNextBatch. rewrite Hr. cbn [fst snd].
    split; [reflexivity|]. split; reflexivity.
Qed.

(** X20: [PutNextBatch] keeps the token in memory, so [GetNextBatch] on the
    same store returns a non-empty token just put without reading the
    database.  In the database the token is written only into an existing
    account row: without one the table is unchanged, and a store opened
    afresh on it reads the empty token every time; with one, the fresh
    store's second read returns the token. *)
Theorem PutNextBatch_GetNextBatch (store : SQLCryptoStore) (nextBatch : string) :
  nextBatch <> EmptyString ->
  let r := PutNextBatch store nextBatch in
  let fresh :=
    NewSQLCryptoStore (crypto_account r.2) (AccountID store) (DeviceID store)
      (PickleKey store) in
  r.1 = None /\
  SaveNextBatch store nextBatch = r /\
  GetNextBatch r.2 = (nextBatch, None, r.2) /\
  match crypto_account store !! AccountID store with
  | None =>
      crypto_account r.2 = crypto_account store /\
      GetNextBatch fresh = (EmptyString, None, fresh)
  | Some row =>
      (GetNextBatch fresh).1 = (EmptyString, None) /\
      (GetNextBatch (GetNextBatch fresh).2).1 = (nextBatch, None)
  end.
Proof.
  intros Hne. cbv zeta. unfold SaveNextBatch, PutNextBatch. cbn [fst snd].
  split; [reflexivity|]. split; [reflexivity|].
  split.
  { unfold GetNextBatch. cbn [SyncToken].
    rewrite bool_decide_eq_false_2 by exact Hne. reflexivity. }
  cbn [crypto_account].
  destruct (crypto_account store !! AccountID store) as [row|] eqn:Hrow.
  - match goal with |- context [GetNextBatch ?f] =>
      assert (Hr : GetNextBatch f =
                   (EmptyString, None, with_SyncToken f nextBatch))
    end.
    { unfold GetNextBatch.
      cbn [NewSQLCryptoStore SyncToken crypto_account AccountID].
      rewrite bool_decide_eq_true_2 by reflexivity.
      rewrite Store.lookup_sql_update, Hrow. cbn [fmap option_fmap option_map].
      rewrite bool_decide_eq_true_2 by reflexivity. reflexivity. }
    rewrite Hr. cbn [fst snd]. split; [reflexivity|]. unfold GetNextBatch.
    cbn [with_SyncToken SyncToken].
    rewrite bool_decide_eq_false_2 by exact Hne. reflexivity.
  - assert (Hsame : Store.sql_update (fun k _ => bool_decide (k = AccountID store))
                      (set_sync_token nextBatch) (crypto_account store) =
                    crypto_account store).
    { apply GroupSessions.sql_update_none. intros k v Hk.
      apply bool_decide_eq_false_2. intros ->. congruence. }
    rewrite Hsame. split; [reflexivity|].
    unfold GetNextBatch, NewSQLCryptoStore. cbn [SyncToken crypto_account AccountID].
    rewrite bool_decide_eq_true_2 by reflexivity. rewrite Hrow. reflexivity.
Qed.

(** X21: [PutAccount] keeps the account in memory before it pickles, so
    [GetAccount] on the same store returns that very account without reading
    the database, also when the pickle failed and nothing was written.  When
    the pickle succeeds, a store opened afresh on the database gets from
    [GetAccount] the account as the backend unpickles it, with the shared
    flag and the key backup version, and has the sync token of the writing
    store in memory afterwards; the device ID of a row that existed is never
    replaced. *)
Theorem PutAccount_GetAccount (store : SQLCryptoStore) (acc : OlmAccount)
    (deviceID : string) :
  let r := PutAccount store acc in
  let fresh :=
    NewSQLCryptoStore (crypto_account r.2) (AccountID store) deviceID
      (PickleKey store) in
  GetAccount r.2 = (Ok (Some acc), r.2) /\
  match Account_Pickle (Internal acc) (PickleKey store) with
  | Err err => r = (Some err, with_Account store (Some acc))
  | Ok bytes =>
      r.1 = None /\
      FindDeviceID fresh =
        (from_option device_id (DeviceID store)
           (crypto_account store !! AccountID store), None) /\
      SyncToken (GetAccount fresh).2 = SyncToken store /\
      match Account_Unpickle bytes (PickleKey store) with
      | Err err => (GetAccount fresh).1 = Err err
      | Ok internal =>
          (GetAccount fresh).1 =
          Ok (Some {| Internal := internal;
                      Shared := Shared acc;
                      KeyBackupVersion := KeyBackupVersion acc |})
      end
  end.
Proof.
  cbv zeta. unfold PutAccount. cbn [with_Account PickleKey].
  destruct (Account_Pickle (Internal acc) (PickleKey store)) as [bytes|err] eqn:Hpickle.
  - cbn [fst snd]. split; [reflexivity|]. split; [reflexivity|].
    unfold FindDeviceID, GetAccount, NewSQLCryptoStore.
    cbn [with_crypto_account with_Account crypto_account AccountID Account PickleKey
         DeviceID SyncToken].
    rewrite SQL.lookup_sql_upsert, decide_True by reflexivity.
    destruct (crypto_account store !! AccountID store) as [row|];
      cbn [account_conflict_update device_id account sync_token shared
           key_backup_version from_option with_SyncToken PickleKey];
      (split; [reflexivity|]);
      destruct (Account_Unpickle bytes (PickleKey store)); split; reflexivity.
  - cbn [fst snd]. split; reflexivity.
Qed.

End Account.

#[local] Instance test_Account : olm_Account string := {|
  Account_Pickle := fun a key =>
    match key with
    | [] => Err (Store.BackendError "NO_KEY_PROVIDED")
    | _ => Ok (Store.bytes_of_string a)
    end;
  Account_Unpickle := fun b key => Ok (Store.string_of_bytes b)
|}.

Definition test_account_store : @SQLCryptoStore string :=
  NewSQLCryptoStore
    {[ "acct"%string :=
         {| device_id := "DEVICE"; shared := true; sync_token := "s42";
            account := Store.bytes_of_string "olm"; key_backup_version := "1" |} ]}
    "acct" "DEVICE" [1; 2; 3].

Lemma GetNextBatch_empty_token_witness :
  (GetNextBatch test_account_store).1 = (EmptyString, None) /\
  (GetNextBatch (GetNextBatch test_account_store).2).1 = ("s42"%string, None).
Proof.
  pose proof (GetNextBatch_empty_token test_account_store eq_refl) as (H1 & _ & H2).
  split; [exact H1|].
  change (crypto_account test_account_store !! AccountID test_account_store)
    with (Some {| device_id := "DEVICE"; shared := true; sync_token := "s42";
                  account := Store.bytes_of_string "olm";
                  key_backup_version := "1" |}) in H2.
  destruct H2 as [_ H2]. destruct (H2 ltac:(discriminate)) as [H3 _].
  rewrite H3. reflexivity.
Defined.

Lemma PutNextBatch_GetNextBatch_witness :
  GetNextBatch (PutNextBatch test_account_store "s43").2 =
  ("s43"%string, None, (PutNextBatch test_account_store "s43").2).
Proof.
  pose proof (PutNextBatch_GetNextBatch test_account_store "s43" ltac:(discriminate))
    as (_ & _ & H & _).
  exact H.
Defined.

End Account.

Module Devices.

(** [id.Device]. *)
Record Device : Type := {
  UserID : string;
  DeviceID : string;
  IdentityKey : string;
  SigningKey : string;
  Trust : Z;
  Deleted : bool;
  Name : string
}.

(** Rows of [crypto_device]; the key is [(user_id, device_id)]. *)
Record DeviceRow : Type := {
  identity_key : string;
  signing_key : string;
  trust : Z;
  deleted : bool;
  name : string
}.

(** [crypto_tracked_user] maps [user_id] to [devices_outdated]. *)
Record SQLCryptoStore : Type := {
  crypto_device : gmap (string * string) DeviceRow;
  crypto_tracked_user : gmap string bool
}.

(** How a run of a function with a loop and a pointer dereference ends. *)
Inductive Run (A : Type) : Type :=
| Returns (a : A)
| Panics
| NoFuel.
Arguments Returns {A} a.
Arguments Panics {A}.
Arguments NoFuel {A}.

Definition device_of_row (row : string * string * DeviceRow) : Device :=
  {| UserID := row.1.1;
     DeviceID := row.1.2;
     IdentityKey := identity_key row.2;
     SigningKey := signing_key row.2;
     Trust := trust row.2;
     Deleted := deleted row.2;
     Name := name row.2 |}.

(** [scanDevice] on the row of a [QueryRow], if there is one. *)
Definition scanDevice (rows : option (string * string * DeviceRow))
  : Result Store.error (option Device) :=
  match rows with
  | None => Ok None
  | Some row => Ok (Some (device_of_row row))
  end.

Definition user_devices_where (userID : string) (k : string * string) (row : DeviceRow)
  : bool :=
  bool_decide (k.1 = userID) && negb (deleted row).

Definition GetDevices (store : SQLCryptoStore) (userID : string)
  : Result Store.error (option (gmap string Device)) :=
  match crypto_tracked_user store !! userID with
  | None => Ok None
  | Some _ =>
      Ok (Some (SQL.scan_into (fun row => DeviceID (device_of_row row)) device_of_row
                  (GroupSessions.sql_select (user_devices_where userID)
                     (crypto_device store))))
  end.

Definition GetDevice (store : SQLCryptoStore) (userID deviceID : string)
  : Result Store.error (option Device) :=
  scanDevice ((fun row => (userID, deviceID, row)) <$>
                crypto_device store !! (userID, deviceID)).

(** The first row the query yields, in the order of the table. *)
Definition FindDeviceByKey (store : SQLCryptoStore) (userID identityKey : string)
  : Result Store.error (option Device) :=
  scanDevice (head (GroupSessions.sql_select
                      (fun k row => bool_decide (k.1 = userID) &&
                                    bool_decide (identity_key row = identityKey))
                      (crypto_device store))).

Definition device_row (device : Device) : DeviceRow :=
  {| identity_key := IdentityKey device;
     signing_key := SigningKey device;
     trust := Trust device;
     deleted := Deleted device;
     name := Name device |}.

(** [deviceInsertQuery]: on a conflict every column but [signing_key] is
    taken from the new row. *)
Definition deviceInsertQuery (userID deviceID : string) (device : Device)
    (t : gmap (string * string) DeviceRow) : gmap (string * string) DeviceRow :=
  SQL.sql_upsert (userID, deviceID) (device_row device)
    (fun old excluded =>
       {| identity_key := identity_key excluded;
          signing_key := signing_key old;
          trust := trust excluded;
          deleted := deleted excluded;
          name := name excluded |})
    t.

Definition with_devices (store : SQLCryptoStore) t : SQLCryptoStore :=
  {| crypto_device := t; crypto_tracked_user := crypto_tracked_user store |}.

Definition with_tracked (store : SQLCryptoStore) t : SQLCryptoStore :=
  {| crypto_device := crypto_device store; crypto_tracked_user := t |}.

Definition PutDevice (store : SQLCryptoStore) (userID : string) (device : Device)
  : option Store.error * SQLCryptoStore :=
  (None,
   with_devices store (deviceInsertQuery userID (DeviceID device) device
                         (crypto_device store))).

(** [trackedUserUpsertQuery]. *)
Definition trackedUserUpsertQuery (userID : string) (t : gmap string bool)
  : gmap string bool :=
  SQL.sql_upsert userID false (fun old excluded => excluded) t.

Definition set_deleted (row : DeviceRow) : DeviceRow :=
  {| identity_key := identity_key row;
     signing_key := signing_key row;
     trust := trust row;
     deleted := true;
     name := name row |}.

Definition deviceBatchLen : nat := 5.

(** [s[lo:hi]]. *)
Definition subslice {A} (s : list A) (lo hi : nat) : list A :=
  take (hi - lo) (drop lo s).

(** One mass insert: the values of the batch are collected first
    ([devices[deviceID]] is dereferenced there), then the rows are
    upserted. *)
Fixpoint insert_batch (userID : string) (devices : gmap string Device)
    (batchDevices : list string) (t : gmap (string * string) DeviceRow)
  : option (gmap (string * string) DeviceRow) :=
  match batchDevices with
  | [] => Some t
  | deviceID :: rest =>
      match devices !! deviceID with
      | None => None
      | Some ident =>
          insert_batch userID devices rest (deviceInsertQuery userID deviceID ident t)
      end
  end.

(** The loop over the batches, from [batchDeviceIdx] on. *)
Fixpoint PutDevices_batches (fuel : nat) (userID : string) (devices : gmap string Device)
    (deviceIDs : list string) (batchDeviceIdx : nat)
    (t : gmap (string * string) DeviceRow) : Run (gmap (string * string) DeviceRow) :=
  match fuel with
  | O => NoFuel
  | S fuel =>
      if (batchDeviceIdx <? length deviceIDs)%nat then
        let batchDevices :=
          if (batchDeviceIdx + deviceBatchLen <? length deviceIDs)%nat
          then subslice deviceIDs batchDeviceIdx (batchDeviceIdx + deviceBatchLen)
          else drop batchDeviceIdx deviceIDs in
        match insert_batch userID devices batchDevices t with
        | None => Panics
        | Some t =>
            PutDevices_batches fuel userID devices deviceIDs
              (batchDeviceIdx + deviceBatchLen) t
        end
      else Returns t
  end.

(** [deviceIDs] is the order in which [range devices] yields the keys, which
    Go leaves unspecified. *)
Definition PutDevices (store : SQLCryptoStore) (userID : string)
    (devices : gmap string Device) (deviceIDs : list string)
  : Run (option Store.error * SQLCryptoStore) :=
  let tracked := trackedUserUpsertQuery userID (crypto_tracked_user store) in
  let t :=
    Store.sql_update (fun k _ => bool_decide (k.1 = userID)) set_deleted
      (crypto_device store) in
  if bool_decide (size devices = 0%nat) then
    Returns (None, {| crypto_device := t; crypto_tracked_user := tracked |})
  else
    match PutDevices_batches (S (length deviceIDs)) userID devices deviceIDs 0 t with
    | Returns t =>
        Returns (None, {| crypto_device := t; crypto_tracked_user := tracked |})
    | Panics => Panics
    | NoFuel => NoFuel
    end.

(** [slices.Chunk(s, n)] for [n >= 1]. *)
Fixpoint slices_Chunk_from {A} (fuel : nat) (s : list A) (n : nat) : list (list A) :=
  match fuel with
  | O => []
  | S fuel =>
      match s with
      | [] => []
      | _ :: _ => take n s :: slices_Chunk_from fuel (drop n s) n
      end
  end.

Definition slices_Chunk {A} (s : list A) (n : nat) : list (list A) :=
  slices_Chunk_from (length s) s n.

(** Both branches of [MarkTrackedUsersOutdated] select the rows whose
    [user_id] is one of the chunk ([= ANY($1)] or [IN (...)]). *)
Definition mark_outdated_chunk (chunk : list string) (t : gmap string bool)
  : gmap string bool :=
  Store.sql_update (fun k _ => bool_decide (k ∈ chunk)) (fun _ => true) t.

Definition MarkTrackedUsersOutdated (store : SQLCryptoStore) (users : list string)
  : option Store.error * SQLCryptoStore :=
  (None,
   with_tracked store
     (foldl (fun t chunk => mark_outdated_chunk chunk t) (crypto_tracked_user store)
        (slices_Chunk users 1000))).

Definition GetOutdatedTrackedUsers (store : SQLCryptoStore)
  : Result Store.error (list string) :=
  Ok ((GroupSessions.sql_select (fun _ outdated => outdated)
         (crypto_tracked_user store)).*1).

(** *** A single device *)

Lemma lookup_deviceInsertQuery userID deviceID device t k :
  deviceInsertQuery userID deviceID device t !! k =
  if decide (k = (userID, deviceID)) then
    Some {| identity_key := IdentityKey device;
            signing_key := from_option signing_key (SigningKey device)
                             (t !! (userID, deviceID));
            trust := Trust device;
            deleted := Deleted device;
            name := Name device |}
  else t !! k.
Proof.
  unfold deviceInsertQuery. rewrite SQL.lookup_sql_upsert.
  destruct (decide (k = (userID, deviceID))); [|reflexivity].
  destruct (t !! (userID, deviceID)); reflexivity.
Qed.

Lemma GetDevices_lookup (store : SQLCryptoStore) userID :
  match crypto_tracked_user store !! userID with
  | None => GetDevices store userID = Ok None
  | Some _ =>
      exists data, GetDevices store userID = Ok (Some data) /\
        forall deviceID,
          data !! deviceID =
          match crypto_device store !! (userID, deviceID) with
          | Some row => if deleted row then None
                        else Some (device_of_row (userID, deviceID, row))
          | None => None
          end
  end.
Proof.
  unfold GetDevices. destruct (crypto_tracked_user store !! userID); [|reflexivity].
  eexists. split; [reflexivity|]. intros deviceID.
  change (fun row : string * string * DeviceRow => DeviceID (device_of_row row))
    with (fun row : string * string * DeviceRow => (fun k : string * string => k.2) row.1).
  rewrite (SQL.scan_into_select (user_devices_where userID)
             (fun k : string * string => k.2) device_of_row
             _ (fun deviceID => (userID, deviceID))).
  - destruct (crypto_device store !! (userID, deviceID)) as [row|]; [|reflexivity].
    unfold user_devices_where. cbn [fst snd].
    rewrite !bool_decide_eq_true_2 by reflexivity.
    destruct (deleted row); reflexivity.
  - intros [u d] v Hw. unfold user_devices_where in Hw. cbn [fst snd] in *.
    apply andb_prop in Hw as [Hw _]. apply bool_decide_eq_true_1 in Hw. congruence.
Qed.

(** X22: [PutDevice] stores the device under the user ID given and the
    device's ID, whatever user ID the device itself carries, and
    [GetDevice] reads it back with its ident key, trust, deleted flag and
    name; the signing key of a device that was already stored is kept, not
    replaced.  Other devices read as before.  [PutDevice] does not track
    the user: for a user that is not tracked [GetDevices] still returns no
    map at all. *)
Theorem PutDevice_keeps_signing_key (store : SQLCryptoStore) (userID : string)
    (device : Device) :
  let r := PutDevice store userID device in
  r.1 = None /\
  GetDevice r.2 userID (DeviceID device) =
    Ok (Some {| UserID := userID;
                DeviceID := DeviceID device;
                IdentityKey := IdentityKey device;
                SigningKey :=
                  match GetDevice store userID (DeviceID device) with
                  | Ok (Some old) => SigningKey old
                  | _ => SigningKey device
                  end;
                Trust := Trust device;
                Deleted := Deleted device;
                Name := Name device |}) /\
  (forall u d, (u, d) <> (userID, DeviceID device) ->
     GetDevice r.2 u d = GetDevice store u d) /\
  (forall u, crypto_tracked_user store !! u = None -> GetDevices r.2 u = Ok None).
Proof.
  cbv zeta. cbn [PutDevice fst snd]. split; [reflexivity|]. split; [|split].
  - unfold GetDevice. cbn [with_devices crypto_device].
    rewrite lookup_deviceInsertQuery, decide_True by reflexivity.
    destruct (crypto_device store !! (userID, DeviceID device)); reflexivity.
  - intros u d Hne. unfold GetDevice. cbn [with_devices crypto_device].
    rewrite lookup_deviceInsertQuery, decide_False by exact Hne. reflexivity.
  - intros u Hu. unfold GetDevices. cbn [with_devices crypto_tracked_user].
    rewrite Hu. reflexivity.
Qed.

(** *** The batches of [PutDevices] *)

Lemma insert_batch_app userID devices a : forall b t,
  insert_batch userID devices (a ++ b) t =
  match insert_batch userID devices a t with
  | Some t' => insert_batch userID devices b t'
  | None => None
  end.
Proof.
  induction a as [|d a IH]; intros b t; [reflexivity|].
  cbn [app insert_batch]. destruct (devices !! d); [apply IH|reflexivity].
Qed.

Lemma PutDevices_batches_all userID devices deviceIDs : forall fuel batchDeviceIdx t,
  (length deviceIDs - batchDeviceIdx < fuel)%nat ->
  PutDevices_batches fuel userID devices deviceIDs batchDeviceIdx t =
  match insert_batch userID devices (drop batchDeviceIdx deviceIDs) t with
  | Some t' => Returns t'
  | None => Panics
  end.
Proof.
  induction fuel as [|fuel IH]; intros idx t Hfuel; [lia|].
  cbn [PutDevices_batches].
  destruct (Nat.ltb_spec idx (length deviceIDs)) as [Hlt|Hge].
  - destruct (Nat.ltb_spec (idx + deviceBatchLen) (length deviceIDs)) as [Hmore|Hlast];
      cbv zeta.
    + unfold subslice.
      replace (idx + deviceBatchLen - idx)%nat with deviceBatchLen by lia.
      rewrite <- (take_drop deviceBatchLen (drop idx deviceIDs)) at 2.
      rewrite insert_batch_app.
      destruct (insert_batch userID devices (take deviceBatchLen (drop idx deviceIDs)) t)
        as [t'|]; [|reflexivity].
      rewrite drop_drop. apply IH. unfold deviceBatchLen in *. lia.
    + destruct (insert_batch userID devices (drop idx deviceIDs) t) as [t'|];
        [|reflexivity].
      rewrite IH by (unfold deviceBatchLen in *; lia).
      rewrite drop_ge by lia. reflexivity.
  - rewrite drop_ge by lia. reflexivity.
Qed.

Lemma insert_batch_lookup userID devices ids : forall t,
  NoDup ids -> (forall d, d ∈ ids -> is_Some (devices !! d)) ->
  exists t', insert_batch userID devices ids t = Some t' /\
    forall k,
      t' !! k =
      if decide (k.1 = userID /\ k.2 ∈ ids) then
        (fun ident =>
           {| identity_key := IdentityKey ident;
              signing_key := from_option signing_key (SigningKey ident) (t !! k);
              trust := Trust ident;
              deleted := Deleted ident;
              name := Name ident |}) <$> devices !! k.2
      else t !! k.
Proof.
  induction ids as [|d ids IH]; intros t Hnd Hin.
  - exists t. split; [reflexivity|]. intros k.
    rewrite decide_False; [reflexivity|]. intros [_ H]. apply elem_of_nil in H. exact H.
  - apply NoDup_cons in Hnd as [Hd Hnd]. cbn [insert_batch].
    destruct (Hin d ltac:(left)) as [ident Hidentity]. rewrite Hidentity.
    destruct (IH (deviceInsertQuery userID d ident t) Hnd) as (t' & Ht' & Hlookup).
    { intros d' Hd'. apply Hin. right. exact Hd'. }
    exists t'. split; [exact Ht'|]. intros [u d'].
    rewrite Hlookup. cbn [fst snd]. rewrite lookup_deviceInsertQuery.
    destruct (decide (u = userID /\ d' ∈ ids)) as [[Hu Hd']|Hno];
      destruct (decide ((u, d') = (userID, d))) as [Heq|Hne];
      destruct (decide (u = userID /\ d' ∈ d :: ids)) as [[Hu' Hd'']|Hno'];
      try (injection Heq as -> ->); subst;
      first
        [ reflexivity
        | contradiction
        | rewrite Hidentity; reflexivity
        | exfalso; apply Hno'; split;
          [reflexivity|first [left|right; assumption]]
        | exfalso; apply elem_of_cons in Hd'' as [->|Hd''];
          [apply Hne; reflexivity|apply Hno; split; [reflexivity|assumption]] ].
Qed.

(** X23: whatever order the device map is walked in, [PutDevices] returns
    without an error and [GetDevices] afterwards yields exactly the devices
    given that are not flagged deleted, under the user ID and map key given
    and with their ident key, trust and name; the signing key of a device
    that was already stored is the stored one.  Devices of the user that are
    not in the map stay in the table flagged deleted, so [GetDevices] does
    not list them while [GetDevice] returns them as deleted.  The user is
    tracked and not outdated afterwards; devices and tracking of other users
    are untouched. *)
Theorem PutDevices_then_GetDevices (store : SQLCryptoStore) (userID : string)
    (devices : gmap string Device) (deviceIDs : list string) :
  deviceIDs ≡ₚ (map_to_list devices).*1 ->
  exists store' data,
    PutDevices store userID devices deviceIDs = Returns (None, store') /\
    GetDevices store' userID = Ok (Some data) /\
    (forall deviceID,
       data !! deviceID =
       match devices !! deviceID with
       | Some ident =>
           if Deleted ident then None
           else Some {| UserID := userID;
                        DeviceID := deviceID;
                        IdentityKey := IdentityKey ident;
                        SigningKey :=
                          from_option signing_key (SigningKey ident)
                            (crypto_device store !! (userID, deviceID));
                        Trust := Trust ident;
                        Deleted := false;
                        Name := Name ident |}
       | None => None
       end) /\
    (forall deviceID row,
       devices !! deviceID = None ->
       crypto_device store !! (userID, deviceID) = Some row ->
       GetDevice store' userID deviceID =
       Ok (Some (device_of_row (userID, deviceID, set_deleted row)))) /\
    crypto_tracked_user store' !! userID = Some false /\
    (forall u, u <> userID ->
       crypto_tracked_user store' !! u = crypto_tracked_user store !! u /\
       forall d, crypto_device store' !! (u, d) = crypto_device store !! (u, d)).
Proof.
  intros Hperm.
  assert (Hnd : NoDup deviceIDs).
  { rewrite Hperm. apply NoDup_fst_map_to_list. }
  assert (Hin : forall d, d ∈ deviceIDs <-> is_Some (devices !! d)).
  { intros d. rewrite Hperm, list_elem_of_fmap. split.
    - intros [[d' ident] [-> Hd]]. apply elem_of_map_to_list in Hd.
      exists ident. exact Hd.
    - intros [ident Hd]. exists (d, ident).
      split; [reflexivity|apply elem_of_map_to_list; exact Hd]. }
  set (t := Store.sql_update (fun k _ => bool_decide (k.1 = userID)) set_deleted
              (crypto_device store)).
  destruct (insert_batch_lookup userID devices deviceIDs t Hnd) as (t' & Ht' & Hlookup).
  { intros d Hd. apply Hin. exact Hd. }
  assert (Hput : PutDevices store userID devices deviceIDs =
                 Returns (None,
                          {| crypto_device := t';
                             crypto_tracked_user :=
                               trackedUserUpsertQuery userID
                                 (crypto_tracked_user store) |})).
  { unfold PutDevices. cbv zeta. fold t. case_bool_decide as Hsize.
    - apply map_size_empty_inv in Hsize. subst devices.
      rewrite map_to_list_empty in Hperm. cbn in Hperm.
      apply Permutation_nil_r in Hperm. subst deviceIDs.
      cbn [insert_batch] in Ht'. injection Ht' as <-. reflexivity.
    - rewrite PutDevices_batches_all by lia. rewrite drop_0, Ht'. reflexivity. }
  assert (Ht : forall k, t !! k =
            (fun row => if bool_decide (k.1 = userID) then set_deleted row else row) <$>
              crypto_device store !! k).
  { intros k. unfold t. apply Store.lookup_sql_update. }
  assert (Htracked : forall u,
            trackedUserUpsertQuery userID (crypto_tracked_user store) !! u =
            if decide (u = userID) then Some false else crypto_tracked_user store !! u).
  { intros u. unfold trackedUserUpsertQuery. rewrite SQL.lookup_sql_upsert.
    destruct (decide (u = userID)); [|reflexivity].
    destruct (crypto_tracked_user store !! userID); reflexivity. }
  pose proof (GetDevices_lookup
                {| crypto_device := t';
                   crypto_tracked_user :=
                     trackedUserUpsertQuery userID (crypto_tracked_user store) |}
                userID) as Hget.
  cbn [crypto_tracked_user crypto_device] in Hget.
  rewrite Htracked, decide_True in Hget by reflexivity.
  destruct Hget as (data & Hget & Hdata).
  eexists _, data. split; [exact Hput|]. split; [exact Hget|].
  split; [|split; [|split]].
  - intros deviceID. rewrite Hdata, Hlookup. cbn [fst snd].
    destruct (devices !! deviceID) as [ident|] eqn:Hd.
    + rewrite decide_True by (split; [reflexivity|apply Hin; eexists; exact Hd]).
      cbn [fmap option_fmap option_map deleted].
      destruct (Deleted ident); [reflexivity|].
      unfold device_of_row. cbn [fst snd identity_key signing_key trust deleted name].
      rewrite Ht. cbn [fst].
      destruct (crypto_device store !! (userID, deviceID)) as [row|]; [|reflexivity].
      cbn [fmap option_fmap option_map from_option].
      rewrite bool_decide_eq_true_2 by reflexivity. reflexivity.
    + rewrite decide_False.
      2:{ intros [_ Hd']. apply Hin in Hd' as [? Hd']. congruence. }
      rewrite Ht. cbn [fst].
      destruct (crypto_device store !! (userID, deviceID)) as [row|]; [|reflexivity].
      cbn [fmap option_fmap option_map].
      rewrite bool_decide_eq_true_2 by reflexivity. reflexivity.
  - intros deviceID row Hd Hrow. unfold GetDevice. cbn [crypto_device].
    rewrite Hlookup. cbn [fst snd].
    rewrite decide_False.
    2:{ intros [_ Hd']. apply Hin in Hd' as [? Hd']. congruence. }
    rewrite Ht, Hrow. cbn [fst fmap option_fmap option_map].
    rewrite bool_decide_eq_true_2 by reflexivity. reflexivity.
  - cbn [crypto_tracked_user]. rewrite Htracked, decide_True by reflexivity.
    reflexivity.
  - intros u Hne. cbn [crypto_tracked_user crypto_device].
    rewrite Htracked, decide_False by exact Hne. split; [reflexivity|].
    intros d. rewrite Hlookup. cbn [fst snd].
    rewrite decide_False by (intros [? _]; contradiction).
    rewrite Ht. cbn [fst].
    destruct (crypto_device store !! (u, d)) as [row|]; [|reflexivity].
    cbn [fmap option_fmap option_map].
    rewrite bool_decide_eq_false_2 by exact Hne. reflexivity.
Qed.

(** *** Outdated device lists *)

Lemma concat_slices_Chunk_from {A} (n : nat) : forall fuel (s : list A),
  (0 < n)%nat -> (length s <= fuel)%nat ->
  concat (slices_Chunk_from fuel s n) = s.
Proof.
  induction fuel as [|fuel IH]; intros s Hn Hlen.
  - destruct s; [reflexivity|simpl in Hlen; lia].
  - destruct s as [|x s]; [reflexivity|].
    cbn [slices_Chunk_from concat]. rewrite IH.
    + apply take_drop.
    + exact Hn.
    + rewrite length_drop. simpl in Hlen |- *. lia.
Qed.

Lemma lookup_mark_outdated_chunks chunks : forall (t : gmap string bool) u,
  foldl (fun t chunk => mark_outdated_chunk chunk t) t chunks !! u =
  (fun outdated => outdated || bool_decide (u ∈ concat chunks)) <$> t !! u.
Proof.
  induction chunks as [|chunk chunks IH]; intros t u.
  - cbn [foldl concat]. destruct (t !! u) as [o|]; [|reflexivity].
    cbn. rewrite bool_decide_eq_false_2 by apply not_elem_of_nil.
    rewrite orb_false_r. reflexivity.
  - cbn [foldl concat]. rewrite IH. unfold mark_outdated_chunk.
    rewrite Store.lookup_sql_update. destruct (t !! u) as [o|]; [|reflexivity].
    cbn [fmap option_fmap option_map]. f_equal.
    destruct (bool_decide_reflect (u ∈ chunk)) as [Hin|Hout].
    + rewrite (bool_decide_eq_true_2 (u ∈ chunk ++ concat chunks))
        by (apply elem_of_app; left; exact Hin).
      rewrite orb_true_r. reflexivity.
    + f_equal. apply bool_decide_ext. rewrite elem_of_app. tauto.
Qed.

(** X24: [MarkTrackedUsersOutdated] flags exactly the tracked users among
    the users given, however long the list is, and never starts to track a
    user: afterwards [GetOutdatedTrackedUsers] lists, once each, the tracked
    users that were given or were outdated before, and [GetDevices] answers
    for every user as it did. *)
Theorem MarkTrackedUsersOutdated_only_tracked (store : SQLCryptoStore)
    (users : list string) :
  let r := MarkTrackedUsersOutdated store users in
  r.1 = None /\
  (exists outdated,
     GetOutdatedTrackedUsers r.2 = Ok outdated /\
     NoDup outdated /\
     forall u, u ∈ outdated <->
               is_Some (crypto_tracked_user store !! u) /\
               (u ∈ users \/ crypto_tracked_user store !! u = Some true)) /\
  (forall u, GetDevices r.2 u = GetDevices store u).
Proof.
  cbv zeta. cbn [MarkTrackedUsersOutdated fst snd]. split; [reflexivity|].
  assert (Hlookup : forall u,
    foldl (fun t chunk => mark_outdated_chunk chunk t) (crypto_tracked_user store)
      (slices_Chunk users 1000) !! u =
    (fun outdated => outdated || bool_decide (u ∈ users)) <$>
      crypto_tracked_user store !! u).
  { intros u. rewrite lookup_mark_outdated_chunks. unfold slices_Chunk.
    rewrite concat_slices_Chunk_from by lia. reflexivity. }
  split.
  - eexists. split; [reflexivity|]. cbn [with_tracked crypto_tracked_user]. split.
    + apply NoDup_fmap_fst; [|apply SQL.NoDup_sql_select].
      intros u o1 o2 H1 H2.
      apply GroupSessions.elem_of_sql_select in H1 as [H1 _], H2 as [H2 _]. congruence.
    + intros u. rewrite list_elem_of_fmap. split.
      * intros [[u' o] [-> Hin]]. cbn [fst].
        apply GroupSessions.elem_of_sql_select in Hin as [Hin Ho].
        rewrite Hlookup in Hin.
        destruct (crypto_tracked_user store !! u') as [o'|]; [|discriminate].
        split; [eexists; reflexivity|]. cbn in Hin. injection Hin as <-.
        apply orb_true_iff in Ho as [->|Ho]; [right; reflexivity|].
        left. apply bool_decide_eq_true_1 in Ho. exact Ho.
      * intros [[o Ho] Hwhy]. exists (u, true). split; [reflexivity|].
        apply GroupSessions.elem_of_sql_select. split; [|reflexivity].
        rewrite Hlookup, Ho. cbn. f_equal.
        destruct Hwhy as [Hin|Hout].
        -- rewrite (bool_decide_eq_true_2 _ Hin). apply orb_true_r.
        -- rewrite Ho in Hout. injection Hout as ->. reflexivity.
  - intros u. unfold GetDevices. cbn [with_tracked crypto_tracked_user crypto_device].
    rewrite Hlookup. destruct (crypto_tracked_user store !! u); reflexivity.
Qed.

Definition test_device (deviceID signingKey : string) (isDeleted : bool) : Device :=
  {| UserID := "@someone"; DeviceID := deviceID; IdentityKey := "curve-" ++ deviceID;
     SigningKey := signingKey; Trust := 0; Deleted := isDeleted;
     Name := "phone" |}.

Definition test_device_store : SQLCryptoStore :=
  {| crypto_device :=
       {[ ("@alice"%string, "D1"%string) := device_row (test_device "D1" "old" false);
          ("@alice"%string, "D0"%string) := device_row (test_device "D0" "zero" false) ]};
     crypto_tracked_user := {[ "@alice"%string := true ]} |}.

Definition test_devices : gmap string Device :=
  list_to_map
    (map (fun d => (d, test_device d "new" (String.eqb d "D7")))
       ["D1"; "D2"; "D3"; "D4"; "D5"; "D6"; "D7"]%string).

Lemma PutDevices_then_GetDevices_witness :
  exists store' data,
    PutDevices test_device_store "@alice" test_devices
      (rev (map_to_list test_devices).*1) = Returns (None, store') /\
    GetDevices store' "@alice" = Ok (Some data) /\
    data !! "D1"%string =
      Some {| UserID := "@alice"; DeviceID := "D1"; IdentityKey := "curve-D1";
              SigningKey := "old"; Trust := 0; Deleted := false; Name := "phone" |} /\
    data !! "D0"%string = None /\
    data !! "D7"%string = None.
Proof.
  destruct (PutDevices_then_GetDevices test_device_store "@alice" test_devices
              (rev (map_to_list test_devices).*1))
    as (store' & data & Hput & Hget & Hdata & _).
  { symmetry. apply Permutation_rev. }
  exists store', data. split; [exact Hput|]. split; [exact Hget|].
  rewrite !Hdata. repeat split; vm_compute; reflexivity.
Defined.

End Devices.

(** * crypto/goolm/message/session_sharing.go *)

Module SessionSharing.

Definition sessionSharingVersion : Z := 2.

(** [olm.ErrBadInput], [olm.ErrBadVerification], [olm.ErrBadVersion], an
    error of the signer, and [fmt.Errorf] with [%w]. *)
Inductive error : Type :=
| ErrBadInput
| ErrBadVerification
| ErrBadVersion
| SignerError (msg : string)
| Errorf (msg : string) (wrapped : error).

(** [Counter] is a [uint32], [RatchetData] a [[128]byte] and [PublicKey] a
    slice ([crypto.Ed25519PublicKey]). *)
Record MegolmSessionSharing : Type := {
  Counter : Z;
  RatchetData : list Z;
  PublicKey : list Z
}.

Definition well_typed (s : MegolmSessionSharing) : Prop :=
  0 <= Counter s < 2 ^ 32 /\ length (RatchetData s) = 128%nat.

Section SessionSharing.
(** [crypto.Ed25519KeyPair] with its public key and [Sign], and
    [Ed25519PublicKey.Verify]. *)
Variable Ed25519KeyPair : Type.
Variable KeyPair_PublicKey : Ed25519KeyPair -> list Z.
Variable KeyPair_Sign : Ed25519KeyPair -> list Z -> list Z * option error.
Variable PublicKey_Verify : list Z -> list Z -> list Z -> bool.

Definition EncodeAndSign (s : MegolmSessionSharing) (key : Ed25519KeyPair)
  : list Z * option error :=
  let output := make_bytes 229 in
  let output := <[0%nat := sessionSharingVersion]> output in
  let output := PutUint32 output 1 (Counter s) in
  let output := copy_at output 5 (RatchetData s) in
  let output := copy_at output 133 (KeyPair_PublicKey key) in
  let '(signature, err) := KeyPair_Sign key (slice output 0 165) in
  let output := copy_at output 165 signature in
  (output, err).

Definition with_PublicKey (s : MegolmSessionSharing) (publicKey : list Z)
  : MegolmSessionSharing :=
  {| Counter := Counter s; RatchetData := RatchetData s; PublicKey := publicKey |}.

(** [VerifyAndDecode] returns the error (if any) and the receiver after the
    call. *)
Definition VerifyAndDecode (s : MegolmSessionSharing) (input : list Z)
  : option error * MegolmSessionSharing :=
  if negb (length input =? 229)%nat then (Some (Errorf "verify" ErrBadInput), s)
  else
    let publicKey := slice input 133 165 in
    if negb (PublicKey_Verify publicKey (slice input 0 165) (drop 165 input))
    then (Some (Errorf "verify" ErrBadVerification), s)
    else
      let s := with_PublicKey s publicKey in
      if negb (default 0 (input !! 0%nat) =? sessionSharingVersion)
      then (Some (Errorf "verify" ErrBadVersion), s)
      else
        (None,
         {| Counter := Uint32 (slice input 1 5);
            RatchetData := copy_at (RatchetData s) 0 (slice input 5 133);
            PublicKey := PublicKey s |}).

(** The 165 bytes that are signed. *)
Definition signed_part (s : MegolmSessionSharing) (key : Ed25519KeyPair) : list Z :=
  sessionSharingVersion
    :: [byte_of (Z.shiftr (Counter s) 24); byte_of (Z.shiftr (Counter s) 16);
        byte_of (Z.shiftr (Counter s) 8); byte_of (Counter s)]
    ++ RatchetData s ++ KeyPair_PublicKey key.

Lemma copy_at_app_exact (a b c src : list Z) off :
  length a = off -> length b = length src ->
  copy_at (a ++ b ++ c) off src = a ++ src ++ c.
Proof.
  intros <- Hb. unfold copy_at. rewrite !length_app.
  replace (Nat.min (length a + (length b + length c) - length a) (length src))
    with (length src) by lia.
  rewrite take_app_length, (take_ge src) by lia.
  rewrite drop_app_add, <- Hb, drop_app_length. reflexivity.
Qed.

Lemma slice_app_middle (a b c : list Z) lo hi :
  length a = lo -> (lo + length b)%nat = hi -> slice (a ++ b ++ c) lo hi = b.
Proof.
  intros <- <-. unfold slice. rewrite drop_app_length.
  replace (length a + length b - length a)%nat with (length b) by lia.
  apply take_app_length.
Qed.

Lemma unsigned_output (s : MegolmSessionSharing) (key : Ed25519KeyPair) :
  length (RatchetData s) = 128%nat -> length (KeyPair_PublicKey key) = 32%nat ->
  copy_at
    (copy_at (PutUint32 (<[0%nat := sessionSharingVersion]> (make_bytes 229)) 1
                (Counter s)) 5 (RatchetData s)) 133 (KeyPair_PublicKey key) =
  signed_part s key ++ replicate 64 0.
Proof.
  intros Hdata Hkey. unfold signed_part, PutUint32.
  change (<[0%nat := sessionSharingVersion]> (make_bytes 229))
    with ([sessionSharingVersion] ++ replicate 4 0 ++ replicate 224 0).
  rewrite (copy_at_app_exact [sessionSharingVersion] (replicate 4 0)) by reflexivity.
  change ([sessionSharingVersion] ++ ?w ++ replicate 224 0)
    with (([sessionSharingVersion] ++ w) ++ replicate 128 0 ++ replicate 96 0).
  rewrite (copy_at_app_exact _ (replicate 128 0))
    by (rewrite ?length_replicate; first [reflexivity|symmetry; exact Hdata]).
  change (replicate 96 0) with (replicate 32 0 ++ replicate 64 0).
  rewrite (app_assoc _ (RatchetData s)).
  rewrite (copy_at_app_exact _ (replicate 32 0))
    by (rewrite ?length_app, ?length_replicate, ?Hdata;
        first [reflexivity|symmetry; exact Hkey]).
  cbn [app]. rewrite <- !app_assoc. reflexivity.
Qed.

Lemma length_signed_part (s : MegolmSessionSharing) (key : Ed25519KeyPair) :
  length (RatchetData s) = 128%nat -> length (KeyPair_PublicKey key) = 32%nat ->
  length (signed_part s key) = 165%nat.
Proof.
  intros Hdata Hkey. unfold signed_part. cbn [length app].
  rewrite length_app, Hdata, Hkey. reflexivity.
Qed.

Lemma EncodeAndSign_output (s : MegolmSessionSharing) (key : Ed25519KeyPair) :
  length (RatchetData s) = 128%nat -> length (KeyPair_PublicKey key) = 32%nat ->
  length (KeyPair_Sign key (signed_part s key)).1 = 64%nat ->
  EncodeAndSign s key =
  (signed_part s key ++ (KeyPair_Sign key (signed_part s key)).1,
   (KeyPair_Sign key (signed_part s key)).2).
Proof.
  intros Hdata Hkey Hsig. unfold EncodeAndSign. cbv zeta.
  rewrite (unsigned_output s key Hdata Hkey).
  pose proof (length_signed_part s key Hdata Hkey) as Hlen.
  assert (Hslice : slice (signed_part s key ++ replicate 64 0) 0 165 = signed_part s key).
  { unfold slice. rewrite drop_0. change (165 - 0)%nat with 165%nat.
    rewrite <- Hlen. apply take_app_length. }
  rewrite Hslice.
  destruct (KeyPair_Sign key (signed_part s key)) as [signature err]. cbn [fst snd] in *.
  f_equal. rewrite <- (app_nil_r (replicate 64 0)).
  rewrite (copy_at_app_exact (signed_part s key) (replicate 64 0) [] signature 165)
    by (rewrite ?length_replicate; first [exact Hlen|symmetry; exact Hsig]).
  rewrite app_nil_r. reflexivity.
Qed.

(** X27: for a key pair with a 32-byte public key whose signatures have 64
    bytes and verify under that public key, [EncodeAndSign] yields 229
    bytes that start with version 2, and [VerifyAndDecode] of them succeeds
    on any receiver and sets the counter and ratchet data of the message and
    the public key of the signing key pair; the [PublicKey] field of the
    message that was encoded is not transmitted. *)
Theorem EncodeAndSign_VerifyAndDecode_roundtrip (s s0 : MegolmSessionSharing)
    (key : Ed25519KeyPair) :
  well_typed s -> length (RatchetData s0) = 128%nat ->
  length (KeyPair_PublicKey key) = 32%nat ->
  (forall message,
     (KeyPair_Sign key message).2 = None /\
     length (KeyPair_Sign key message).1 = 64%nat /\
     PublicKey_Verify (KeyPair_PublicKey key) message (KeyPair_Sign key message).1
       = true) ->
  let output := (EncodeAndSign s key).1 in
  (EncodeAndSign s key).2 = None /\
  length output = 229%nat /\
  output !! 0%nat = Some sessionSharingVersion /\
  VerifyAndDecode s0 output =
    (None,
     {| Counter := Counter s;
        RatchetData := RatchetData s;
        PublicKey := KeyPair_PublicKey key |}).
Proof.
  intros [Hcounter Hdata] Hdata0 Hkey Hsign. cbv zeta.
  destruct (Hsign (signed_part s key)) as (Herr & Hsig & Hverify).
  rewrite (EncodeAndSign_output s key Hdata Hkey Hsig). cbn [fst snd].
  pose proof (length_signed_part s key Hdata Hkey) as Hlen.
  set (signature := (KeyPair_Sign key (signed_part s key)).1) in *.
  split; [exact Herr|].
  split; [rewrite length_app, Hlen, Hsig; reflexivity|].
  split; [reflexivity|].
  unfold VerifyAndDecode.
  rewrite length_app, Hlen, Hsig. cbn [Nat.eqb Nat.add negb].
  assert (Hparts : signed_part s key ++ signature =
            [sessionSharingVersion]
              ++ [byte_of (Z.shiftr (Counter s) 24); byte_of (Z.shiftr (Counter s) 16);
                  byte_of (Z.shiftr (Counter s) 8); byte_of (Counter s)]
              ++ RatchetData s ++ KeyPair_PublicKey key ++ signature).
  { unfold signed_part. cbn [app]. rewrite <- app_assoc. reflexivity. }
  assert (Hpub : slice (signed_part s key ++ signature) 133 165 = KeyPair_PublicKey key).
  { rewrite Hparts. rewrite (app_assoc _ (RatchetData s)), (app_assoc [_]).
    apply slice_app_middle; rewrite ?length_app, ?Hdata, ?Hkey; reflexivity. }
  assert (Hmsg : slice (signed_part s key ++ signature) 0 165 = signed_part s key).
  { unfold slice. rewrite drop_0. change (165 - 0)%nat with 165%nat.
    rewrite <- Hlen. apply take_app_length. }
  assert (Hsignature : drop 165 (signed_part s key ++ signature) = signature).
  { rewrite <- Hlen. apply drop_app_length. }
  assert (Hword : slice (signed_part s key ++ signature) 1 5 =
            [byte_of (Z.shiftr (Counter s) 24); byte_of (Z.shiftr (Counter s) 16);
             byte_of (Z.shiftr (Counter s) 8); byte_of (Counter s)]).
  { rewrite Hparts. apply slice_app_middle; reflexivity. }
  assert (Hslice : slice (signed_part s key ++ signature) 5 133 = RatchetData s).
  { rewrite Hparts. rewrite (app_assoc [_]).
    apply slice_app_middle; rewrite ?Hdata; reflexivity. }
  rewrite Hpub, Hmsg, Hsignature, Hword, Hslice.
  fold signature in Hverify. rewrite Hverify.
  cbn [negb]. rewrite Hparts.
  cbn [app lookup list_lookup default Z.eqb sessionSharingVersion Pos.eqb negb
       with_PublicKey RatchetData PublicKey].
  f_equal. f_equal.
  - apply Uint32_PutUint32_bytes. exact Hcounter.
  - apply copy_at_whole. rewrite Hdata0, Hdata. reflexivity.
Qed.

(** X28: [VerifyAndDecode] checks the length, then the signature, then the
    version.  It succeeds exactly when the input has 229 bytes, the last 64
    verify as a signature of the first 165 under the key in bytes 133 to
    165, and the first byte is 2.  An input of another length or with a bad
    signature leaves the receiver as it was, whatever its version byte; an
    input with a good signature and another version is refused after the
    receiver's public key has been replaced by the key of the input.  A
    failed call never changes the counter or the ratchet data. *)
Theorem VerifyAndDecode_checks (s : MegolmSessionSharing) (input : list Z) :
  let r := VerifyAndDecode s input in
  let verified :=
    PublicKey_Verify (slice input 133 165) (slice input 0 165) (drop 165 input) in
  (r.1 = None <->
   length input = 229%nat /\ verified = true /\
   input !! 0%nat = Some sessionSharingVersion) /\
  (length input <> 229%nat -> r = (Some (Errorf "verify" ErrBadInput), s)) /\
  (length input = 229%nat -> verified = false ->
   r = (Some (Errorf "verify" ErrBadVerification), s)) /\
  (length input = 229%nat -> verified = true ->
   input !! 0%nat <> Some sessionSharingVersion ->
   r = (Some (Errorf "verify" ErrBadVersion), with_PublicKey s (slice input 133 165))) /\
  (r.1 <> None -> Counter r.2 = Counter s /\ RatchetData r.2 = RatchetData s).
Proof.
  cbv zeta. unfold VerifyAndDecode.
  destruct (Nat.eqb_spec (length input) 229) as [Hlen|Hlen]; cbn [negb].
  2:{ split; [split; [discriminate|intros [? _]; contradiction]|].
      split; [reflexivity|]. split; [contradiction|]. split; [contradiction|].
      intros _. split; reflexivity. }
  destruct (PublicKey_Verify (slice input 133 165) (slice input 0 165) (drop 165 input))
    eqn:Hverify; cbn [negb].
  2:{ split; [split; [discriminate|intros (_ & ? & _); discriminate]|].
      split; [contradiction|]. split; [reflexivity|]. split; [discriminate|].
      intros _. split; reflexivity. }
  assert (Hfirst : exists b, input !! 0%nat = Some b).
  { destruct input; [discriminate|eexists; reflexivity]. }
  destruct Hfirst as [b Hb]. rewrite Hb. change (default 0 (Some b)) with b.
  destruct (Z.eqb_spec b sessionSharingVersion) as [->|Hversion]; cbn [negb fst snd].
  - split; [split; [intros _; repeat split; auto|reflexivity]|].
    split; [contradiction|]. split; [discriminate|].
    split; [intros _ _ Hne; contradiction Hne; reflexivity|].
    intros Hne. contradiction Hne. reflexivity.
  - split; [split; [discriminate|intros (_ & _ & Hv); congruence]|].
    split; [contradiction|]. split; [discriminate|].
    split; [reflexivity|]. intros _. split; reflexivity.
Qed.

End SessionSharing.

(** A test signer: the signature is 64 bytes derived from the sum of the
    message bytes and the first byte of the public key. *)
Definition test_sign (publicKey message : list Z) : list Z :=
  map (fun i => (foldr Z.add 0 message + default 0 (head publicKey) + Z.of_nat i) mod 256)
      (seq 0 64).

Definition test_keypair : list Z := map Z.of_nat (seq 100 32).

Definition test_sharing : MegolmSessionSharing :=
  {| Counter := 258; RatchetData := map Z.of_nat (seq 0 128); PublicKey := [] |}.

Definition blank_sharing : MegolmSessionSharing :=
  {| Counter := 0; RatchetData := make_bytes 128; PublicKey := [] |}.

Lemma EncodeAndSign_VerifyAndDecode_roundtrip_witness :
  VerifyAndDecode (fun pk message sig => bool_decide (sig = test_sign pk message))
    blank_sharing
    (EncodeAndSign (list Z) (fun kp => kp) (fun kp message => (test_sign kp message, None))
       test_sharing test_keypair).1 =
  (None, {| Counter := 258; RatchetData := map Z.of_nat (seq 0 128);
            PublicKey := test_keypair |}).
Proof.
  pose proof (EncodeAndSign_VerifyAndDecode_roundtrip (list Z) (fun kp => kp)
                (fun kp message => (test_sign kp message, None))
                (fun pk message sig => bool_decide (sig = test_sign pk message))
                test_sharing blank_sharing test_keypair) as Hthm.
  cbv zeta in Hthm.
  destruct Hthm as (_ & _ & _ & Hdecode); [| | | |exact Hdecode].
  - split; [cbn; lia|reflexivity].
  - reflexivity.
  - reflexivity.
  - intros message. split; [reflexivity|]. split.
    + unfold test_sign. cbn [fst]. rewrite length_map, length_seq. reflexivity.
    + cbn [fst]. apply bool_decide_eq_true_2. reflexivity.
Defined.

End SessionSharing.

(** * Generating cross-signing keys *)

Module KeyGeneration.
Import CrossSign.

(** [fmt.Errorf] with [%w] around an error of the random source. *)
Inductive error : Type :=
| Errorf (msg : string) (wrapped : CrossSign.error).

Section KeyGeneration.
Variable Ed25519KeyPair : Type.
Variable Ed25519GenerateFromSeed : list Z -> Ed25519KeyPair.
Variable B64Encoded : Ed25519KeyPair -> string.
(** [crypto/rand]: the state of the random source, and [rand.Read] for a
    buffer of the given length, with the bytes it delivers and its error. *)
Variable Rand : Type.
Variable rand_Read : Rand -> nat -> list Z * option CrossSign.error * Rand.

Abbreviation Signing := (Signing Ed25519KeyPair).
Abbreviation CrossSigningKeysCache := (CrossSigningKeysCache Ed25519KeyPair).
Abbreviation OlmMachine := (OlmMachine Ed25519KeyPair).

(** [NewSigning]: the seed is a buffer of 32 bytes that [rand.Read] fills. *)
Definition NewSigning (rand : Rand) : Result CrossSign.error Signing * Rand :=
  let seed := make_bytes 32 in
  let '(bytes, err, rand) := rand_Read rand (length seed) in
  let seed := copy_at seed 0 bytes in
  match err with
  | Some err => (Err err, rand)
  | None => (NewSigningFromSeed Ed25519KeyPair Ed25519GenerateFromSeed seed, rand)
  end.

Definition GenerateCrossSigningKeys (rand : Rand)
  : Result error CrossSigningKeysCache * Rand :=
  match NewSigning rand with
  | (Err err, rand) => (Err (Errorf "failed to generate master key" err), rand)
  | (Ok master, rand) =>
      match NewSigning rand with
      | (Err err, rand) =>
          (Err (Errorf "failed to generate self-signing key" err), rand)
      | (Ok selfSigning, rand) =>
          match NewSigning rand with
          | (Err err, rand) =>
              (Err (Errorf "failed to generate user-signing key" err), rand)
          | (Ok userSigning, rand) =>
              (Ok {| MasterKey := master;
                     SelfSigningKey := selfSigning;
                     UserSigningKey := userSigning |}, rand)
          end
      end
  end.

Lemma NewSigning_Ok rand s rand' :
  NewSigning rand = (Ok s, rand') ->
  length (Seed Ed25519KeyPair s) = 32%nat /\
  constructed Ed25519GenerateFromSeed s /\
  Seed Ed25519KeyPair s = copy_at (make_bytes 32) 0 (rand_Read rand 32).1.1 /\
  rand' = (rand_Read rand 32).2.
Proof.
  unfold NewSigning. cbv zeta.
  change (length (make_bytes 32)) with 32%nat.
  destruct (rand_Read rand 32) as [[bytes [err|]] rand1]; [discriminate|].
  unfold NewSigningFromSeed. intros [= <- <-]. cbn [fst snd].
  split; [|split; [reflexivity|split; reflexivity]].
  unfold Seed. cbn [seed]. rewrite length_copy_at by (cbn; lia). reflexivity.
Qed.

(** X29: when [GenerateCrossSigningKeys] succeeds, the master, self-signing
    and user-signing keys are built, in this order, from three successive
    reads of 32 bytes from the random source, and each holds a 32-byte
    seed.  A machine that holds the generated keys exports seeds from which
    [ImportCrossSigningKeys], on any machine, restores exactly these keys
    together with their public keys. *)
Theorem GenerateCrossSigningKeys_exportable (rand rand' : Rand)
    (keys : CrossSigningKeysCache) :
  GenerateCrossSigningKeys rand = (Ok keys, rand') ->
  let r1 := rand_Read rand 32 in
  let r2 := rand_Read r1.2 32 in
  let r3 := rand_Read r2.2 32 in
  Seed _ (MasterKey keys) = copy_at (make_bytes 32) 0 r1.1.1 /\
  Seed _ (SelfSigningKey keys) = copy_at (make_bytes 32) 0 r2.1.1 /\
  Seed _ (UserSigningKey keys) = copy_at (make_bytes 32) 0 r3.1.1 /\
  rand' = r3.2 /\
  length (Seed _ (MasterKey keys)) = 32%nat /\
  length (Seed _ (SelfSigningKey keys)) = 32%nat /\
  length (Seed _ (UserSigningKey keys)) = 32%nat /\
  forall mach mach' : OlmMachine,
    CrossSigningKeys mach = Some keys ->
    exists seeds,
      ExportCrossSigningKeys mach = Some seeds /\
      ImportCrossSigningKeys Ed25519GenerateFromSeed B64Encoded mach' seeds =
      (None,
       {| CrossSigningKeys := Some keys;
          crossSigningPubkeys := Some (PublicKeys B64Encoded keys) |}).
Proof.
  unfold GenerateCrossSigningKeys. intros Hgen. cbv zeta.
  destruct (NewSigning rand) as [[master|err] rand1] eqn:H1; [|discriminate].
  destruct (NewSigning rand1) as [[selfSigning|err] rand2] eqn:H2; [|discriminate].
  destruct (NewSigning rand2) as [[userSigning|err] rand3] eqn:H3; [|discriminate].
  injection Hgen as <- <-.
  apply NewSigning_Ok in H1 as (Hl1 & Hc1 & Hs1 & ->).
  apply NewSigning_Ok in H2 as (Hl2 & Hc2 & Hs2 & ->).
  apply NewSigning_Ok in H3 as (Hl3 & Hc3 & Hs3 & ->).
  cbn [MasterKey SelfSigningKey UserSigningKey].
  repeat (split; [assumption || reflexivity|]).
  intros mach mach' Hkeys. unfold ExportCrossSigningKeys. rewrite Hkeys.
  eexists. split; [reflexivity|].
  unfold ImportCrossSigningKeys.
  cbn [seeds_MasterKey seeds_SelfSigningKey seeds_UserSigningKey MasterKey
       SelfSigningKey UserSigningKey].
  unfold constructed in Hc1, Hc2, Hc3. rewrite Hc1, Hc2, Hc3. reflexivity.
Qed.

End KeyGeneration.

(** A test random source: the bytes still to be delivered. *)
Definition test_rand_Read (rand : list Z) (n : nat)
  : list Z * option CrossSign.error * list Z :=
  if (length rand <? n)%nat
  then ([], Some (CrossSign.BackendError "unexpected EOF"), rand)
  else (take n rand, None, drop n rand).

Definition test_rand : list Z := map Z.of_nat (seq 1 100).

Lemma GenerateCrossSigningKeys_exportable_witness :
  exists keys,
    (GenerateCrossSigningKeys (list Z) test_generate (list Z) test_rand_Read test_rand).1
      = Ok keys /\
    Seed _ (SelfSigningKey keys) = map Z.of_nat (seq 33 32) /\
    ImportCrossSigningKeys test_generate test_encode
      {| CrossSigningKeys := None; crossSigningPubkeys := None |}
      {| seeds_MasterKey := Seed _ (MasterKey keys);
         seeds_SelfSigningKey := Seed _ (SelfSigningKey keys);
         seeds_UserSigningKey := Seed _ (UserSigningKey keys) |} =
    (None,
     {| CrossSigningKeys := Some keys;
        crossSigningPubkeys := Some (PublicKeys test_encode keys) |}).
Proof.
  destruct (GenerateCrossSigningKeys (list Z) test_generate (list Z) test_rand_Read
              test_rand) as [[keys|err] rand'] eqn:Hgen; [|vm_compute in Hgen; discriminate].
  exists keys. split; [reflexivity|].
  pose proof (GenerateCrossSigningKeys_exportable (list Z) test_generate test_encode
                (list Z) test_rand_Read test_rand rand' keys Hgen) as Hthm.
  cbv zeta in Hthm. destruct Hthm as (_ & Hself & _ & _ & _ & _ & _ & Himport).
  split; [rewrite Hself; vm_compute; reflexivity|].
  destruct (Himport {| CrossSigningKeys := Some keys; crossSigningPubkeys := None |}
              {| CrossSigningKeys := None; crossSigningPubkeys := None |} eq_refl)
    as (seeds & Hexport & Hrestored).
  cbn in Hexport. injection Hexport as <-. exact Hrestored.
Defined.

End KeyGeneration.

(** * hicli/sync.go: state events that change the room data *)

Module ImportantEvents.

Inductive EventType : Type :=
| StateCreate
| StateRoomName
| StateCanonicalAlias
| StateRoomAvatar
| StateTopic
| StateEncryption
| OtherType (name : string).

(** How a call ends: it returns, or it dereferences a nil pointer. *)
Inductive Outcome (A : Type) : Type :=
| Returns (a : A)
| Panics.
Arguments Returns {A} a.
Arguments Panics {A}.

Section ImportantEvents.
(** The content structs that are stored as they are, the parsed form of a
    content URI, and the [database.NameQuality] constants. *)
Variable CreateEventContent : Type.
Variable EncryptionEventContent : Type.
Variable Algorithm : EncryptionEventContent -> string.
Variable ContentURI : Type.
Variable ContentURIString_Parse : string -> ContentURI.
Variable NameQualityNil : Z.
Variable NameQualityParticipants : Z.
Variable NameQualityCanonicalAlias : Z.
Variable NameQualityExplicit : Z.

(** [evt.Content.Parsed] after a successful [ParseRaw]. *)
Inductive Parsed : Type :=
| ParsedCreate (content : CreateEventContent)
| ParsedEncryption (content : EncryptionEventContent)
| ParsedRoomName (name : string)
| ParsedCanonicalAlias (alias : string)
| ParsedRoomAvatar (url : string)
| ParsedTopic (topic : string)
| ParsedOther.

(** [event.Event], with the fields [processImportantEvent] reads;
    [ParseRaw] is the outcome of [evt.Content.ParseRaw(evt.Type)]: the error
    text, or the parsed content. *)
Record Event : Type := {
  Type_ : EventType;
  StateKey : option string;
  ParseRaw : Result string Parsed
}.

(** [database.Room], with the fields [processImportantEvent] writes. *)
Record Room : Type := {
  CreationContent : option CreateEventContent;
  EncryptionEvent : option EncryptionEventContent;
  Name : option string;
  NameQuality : Z;
  CanonicalAlias : option string;
  Avatar : option ContentURI;
  Topic : option string
}.

Definition with_CreationContent (r : Room) c : Room :=
  {| CreationContent := c; EncryptionEvent := EncryptionEvent r; Name := Name r;
     NameQuality := NameQuality r; CanonicalAlias := CanonicalAlias r;
     Avatar := Avatar r; Topic := Topic r |}.

Definition with_EncryptionEvent (r : Room) e : Room :=
  {| CreationContent := CreationContent r; EncryptionEvent := e; Name := Name r;
     NameQuality := NameQuality r; CanonicalAlias := CanonicalAlias r;
     Avatar := Avatar r; Topic := Topic r |}.

Definition with_Name (r : Room) (n : option string) (quality : Z) : Room :=
  {| CreationContent := CreationContent r; EncryptionEvent := EncryptionEvent r;
     Name := n; NameQuality := quality; CanonicalAlias := CanonicalAlias r;
     Avatar := Avatar r; Topic := Topic r |}.

Definition with_CanonicalAlias (r : Room) a : Room :=
  {| CreationContent := CreationContent r; EncryptionEvent := EncryptionEvent r;
     Name := Name r; NameQuality := NameQuality r; CanonicalAlias := a;
     Avatar := Avatar r; Topic := Topic r |}.

Definition with_Avatar (r : Room) a : Room :=
  {| CreationContent := CreationContent r; EncryptionEvent := EncryptionEvent r;
     Name := Name r; NameQuality := NameQuality r;
     CanonicalAlias := CanonicalAlias r; Avatar := a; Topic := Topic r |}.

Definition with_Topic (r : Room) t : Room :=
  {| CreationContent := CreationContent r; EncryptionEvent := EncryptionEvent r;
     Name := Name r; NameQuality := NameQuality r;
     CanonicalAlias := CanonicalAlias r; Avatar := Avatar r; Topic := t |}.

(** A non-nil pointer to a non-empty string. *)
Definition non_empty (p : option string) : bool :=
  match p with
  | Some s => negb (bool_decide (s = EmptyString))
  | None => false
  end.

(** The second [switch] of [processImportantEvent]. *)
Definition apply_content (evtType : EventType) (parsed : Parsed)
    (existingRoomData updatedRoom : Room) : Outcome Room :=
  match evtType with
  | StateCreate =>
      Returns (with_CreationContent updatedRoom
                 match parsed with ParsedCreate content => Some content | _ => None end)
  | StateEncryption =>
      let newEncryption :=
        match parsed with ParsedEncryption content => Some content | _ => None end in
      match EncryptionEvent existingRoomData with
      | None => Returns (with_EncryptionEvent updatedRoom newEncryption)
      | Some old =>
          match newEncryption with
          | None => Panics
          | Some new =>
              if bool_decide (Algorithm old = Algorithm new)
              then Returns (with_EncryptionEvent updatedRoom newEncryption)
              else Returns updatedRoom
          end
      end
  | StateRoomName =>
      match parsed with
      | ParsedRoomName name =>
          let updatedRoom := with_Name updatedRoom (Some name) NameQualityExplicit in
          if bool_decide (name = EmptyString) then
            if non_empty (CanonicalAlias updatedRoom) then
              Returns (with_Name updatedRoom (CanonicalAlias updatedRoom)
                         NameQualityCanonicalAlias)
            else if non_empty (CanonicalAlias existingRoomData) then
              Returns (with_Name updatedRoom (CanonicalAlias existingRoomData)
                         NameQualityCanonicalAlias)
            else Returns (with_Name updatedRoom (Name updatedRoom) NameQualityNil)
          else Returns updatedRoom
      | _ => Returns updatedRoom
      end
  | StateCanonicalAlias =>
      match parsed with
      | ParsedCanonicalAlias alias =>
          let updatedRoom := with_CanonicalAlias updatedRoom (Some alias) in
          if NameQuality updatedRoom <=? NameQualityCanonicalAlias then
            let updatedRoom :=
              with_Name updatedRoom (Some alias) NameQualityCanonicalAlias in
            if bool_decide (alias = EmptyString)
            then Returns (with_Name updatedRoom (Name updatedRoom) NameQualityNil)
            else Returns updatedRoom
          else Returns updatedRoom
      | _ => Returns updatedRoom
      end
  | StateRoomAvatar =>
      match parsed with
      | ParsedRoomAvatar url =>
          Returns (with_Avatar updatedRoom (Some (ContentURIString_Parse url)))
      | _ => Returns updatedRoom
      end
  | StateTopic =>
      match parsed with
      | ParsedTopic topic => Returns (with_Topic updatedRoom (Some topic))
      | _ => Returns updatedRoom
      end
  | OtherType _ => Returns updatedRoom
  end.

(** The result is the named result [roomDataChanged] and [updatedRoom] as the
    call leaves it. *)
Definition processImportantEvent (evt : Event) (existingRoomData updatedRoom : Room)
  : Outcome (bool * Room) :=
  let roomDataChanged := false in
  match StateKey evt with
  | None => Returns (roomDataChanged, updatedRoom)
  | Some stateKey =>
      match Type_ evt with
      | OtherType _ => Returns (roomDataChanged, updatedRoom)
      | _ =>
          if negb (bool_decide (stateKey = EmptyString))
          then Returns (roomDataChanged, updatedRoom)
          else
            match ParseRaw evt with
            | Err _ => Returns (roomDataChanged, updatedRoom)
            | Ok parsed =>
                match apply_content (Type_ evt) parsed existingRoomData updatedRoom with
                | Returns updatedRoom => Returns (roomDataChanged, updatedRoom)
                | Panics => Panics
                end
            end
      end
  end.

(** A room whose name counts as explicit or as taken from the canonical
    alias has a name, and the name is not empty. *)
Definition named (r : Room) : Prop :=
  NameQuality r = NameQualityExplicit \/ NameQuality r = NameQualityCanonicalAlias ->
  non_empty (Name r) = true.

Lemma apply_content_named evtType parsed existingRoomData updatedRoom room' :
  NameQualityNil <> NameQualityCanonicalAlias ->
  NameQualityNil <> NameQualityExplicit ->
  apply_content evtType parsed existingRoomData updatedRoom = Returns room' ->
  named updatedRoom -> named room'.
Proof.
  intros Hnil1 Hnil2 Happly Hnamed. unfold named in *.
  destruct evtType; cbn [apply_content] in Happly.
  - injection Happly as <-. exact Hnamed.
  - destruct parsed; try (injection Happly as <-; exact Hnamed).
    cbn [with_Name CanonicalAlias Name] in Happly.
    case_bool_decide as Hname.
    + destruct (non_empty (CanonicalAlias updatedRoom)) eqn:Ha1;
        [injection Happly as <-; intros _; exact Ha1|].
      destruct (non_empty (CanonicalAlias existingRoomData)) eqn:Ha2;
        [injection Happly as <-; intros _; exact Ha2|].
      injection Happly as <-. cbn [with_Name NameQuality]. intros [H|H]; congruence.
    + injection Happly as <-. intros _. cbn [with_Name Name non_empty].
      rewrite bool_decide_eq_false_2 by exact Hname. reflexivity.
  - destruct parsed; try (injection Happly as <-; exact Hnamed).
    cbn [with_CanonicalAlias with_Name NameQuality Name] in Happly.
    destruct (NameQuality updatedRoom <=? NameQualityCanonicalAlias).
    + case_bool_decide as Halias.
      * injection Happly as <-. cbn [with_Name NameQuality]. intros [H|H]; congruence.
      * injection Happly as <-. intros _. cbn [with_Name Name non_empty].
        rewrite bool_decide_eq_false_2 by exact Halias. reflexivity.
    + injection Happly as <-. exact Hnamed.
  - destruct parsed; injection Happly as <-; exact Hnamed.
  - destruct parsed; injection Happly as <-; exact Hnamed.
  - destruct (EncryptionEvent existingRoomData) as [old|];
      [|injection Happly as <-; exact Hnamed].
    destruct parsed; try discriminate.
    destruct (bool_decide _); injection Happly as <-; exact Hnamed.
  - injection Happly as <-. exact Hnamed.
Qed.

Lemma apply_content_explicit evtType parsed existingRoomData updatedRoom room' :
  NameQualityCanonicalAlias < NameQualityExplicit ->
  evtType <> StateRoomName ->
  NameQuality updatedRoom = NameQualityExplicit ->
  apply_content evtType parsed existingRoomData updatedRoom = Returns room' ->
  Name room' = Name updatedRoom /\ NameQuality room' = NameQualityExplicit.
Proof.
  intros Horder Htype Hq Happly.
  destruct evtType; cbn [apply_content] in Happly.
  - injection Happly as <-. split; [reflexivity|exact Hq].
  - contradiction Htype. reflexivity.
  - destruct parsed; try (injection Happly as <-; split; [reflexivity|exact Hq]).
    cbn [with_CanonicalAlias NameQuality] in Happly.
    destruct (Z.leb_spec (NameQuality updatedRoom) NameQualityCanonicalAlias); [lia|].
    injection Happly as <-. split; [reflexivity|exact Hq].
  - destruct parsed; injection Happly as <-; (split; [reflexivity|exact Hq]).
  - destruct parsed; injection Happly as <-; (split; [reflexivity|exact Hq]).
  - destruct (EncryptionEvent existingRoomData) as [old|];
      [destruct parsed; try discriminate; destruct (bool_decide _)|];
      injection Happly as <-; (split; [reflexivity|exact Hq]).
  - injection Happly as <-. split; [reflexivity|exact Hq].
Qed.

Lemma apply_content_Panics evtType parsed existingRoomData updatedRoom :
  apply_content evtType parsed existingRoomData updatedRoom = Panics ->
  evtType = StateEncryption /\ EncryptionEvent existingRoomData <> None.
Proof.
  intros Happly. destruct evtType; cbn [apply_content] in Happly;
    try discriminate; try (destruct parsed; discriminate).
  - destruct parsed; try discriminate.
    + destruct (bool_decide _); [destruct (non_empty _); [discriminate|]|discriminate].
      destruct (non_empty _); discriminate.
  - destruct parsed; try discriminate.
    destruct (_ <=? _); [destruct (bool_decide _)|]; discriminate.
  - split; [reflexivity|].
    destruct (EncryptionEvent existingRoomData); [discriminate|discriminate].
Qed.

(** The events that the first [switch] and the parser let through. *)
Definition passes (evt : Event) (parsed : Parsed) : Prop :=
  StateKey evt = Some EmptyString /\
  (forall name, Type_ evt <> OtherType name) /\
  ParseRaw evt = Ok parsed.

Lemma processImportantEvent_cases evt existingRoomData updatedRoom :
  (processImportantEvent evt existingRoomData updatedRoom = Returns (false, updatedRoom)
   /\ forall parsed, ~ passes evt parsed) \/
  exists parsed,
    passes evt parsed /\
    processImportantEvent evt existingRoomData updatedRoom =
    match apply_content (Type_ evt) parsed existingRoomData updatedRoom with
    | Returns updatedRoom => Returns (false, updatedRoom)
    | Panics => Panics
    end.
Proof.
  unfold processImportantEvent, passes. cbv zeta.
  destruct (StateKey evt) as [stateKey|];
    [|left; split; [reflexivity|intros ? (? & _); discriminate]].
  destruct (bool_decide_reflect (stateKey = EmptyString)) as [->|Hkey]; cbn [negb].
  2:{ left. split; [destruct (Type_ evt); reflexivity|].
      intros ? ([= ?] & _). contradiction. }
  destruct (ParseRaw evt) as [parsed|msg].
  2:{ left. split; [destruct (Type_ evt); reflexivity|].
      intros ? (_ & _ & ?). discriminate. }
  destruct (Type_ evt) as [| | | | | |name] eqn:Htype;
    [right; exists parsed; (split; [split; [reflexivity|split; [discriminate|reflexivity]]
                                   |reflexivity])..|].
  left. split; [reflexivity|]. intros ? (_ & Hne & _). exact (Hne name eq_refl).
Qed.

(** X30: [processImportantEvent] never reports a change: its named result
    is never assigned, so a call that returns, returns false.  Only a state
    event with the empty state key, of one of the six types, whose content
    parses can touch the room.  The call keeps the naming invariant (a room
    whose name quality is explicit or canonical-alias has a non-empty name),
    and an explicit name is only ever replaced by a room-name event, not by
    a canonical-alias event.  The call can only panic on an encryption
    event when the room already has an encryption event. *)
Theorem processImportantEvent_naming (evt : Event) (existingRoomData updatedRoom : Room) :
  NameQualityNil <> NameQualityCanonicalAlias ->
  NameQualityNil <> NameQualityExplicit ->
  NameQualityCanonicalAlias < NameQualityExplicit ->
  match processImportantEvent evt existingRoomData updatedRoom with
  | Panics =>
      Type_ evt = StateEncryption /\ EncryptionEvent existingRoomData <> None
  | Returns (roomDataChanged, room') =>
      roomDataChanged = false /\
      (named updatedRoom -> named room') /\
      (StateKey evt <> Some EmptyString \/ (exists name, Type_ evt = OtherType name) \/
       (exists msg, ParseRaw evt = Err msg) -> room' = updatedRoom) /\
      (NameQuality updatedRoom = NameQualityExplicit ->
       Type_ evt <> StateRoomName ->
       Name room' = Name updatedRoom /\ NameQuality room' = NameQualityExplicit)
  end.
Proof.
  intros Hnil1 Hnil2 Horder.
  destruct (processImportantEvent_cases evt existingRoomData updatedRoom)
    as [[-> Hnot]|(parsed & Hpasses & ->)].
  - split; [reflexivity|]. split; [tauto|]. split; [reflexivity|].
    intros Hq _. split; [reflexivity|exact Hq].
  - destruct (apply_content (Type_ evt) parsed existingRoomData updatedRoom)
      as [room'|] eqn:Happly; [|exact (apply_content_Panics _ _ _ _ Happly)].
    split; [reflexivity|].
    split; [exact (apply_content_named _ _ _ _ _ Hnil1 Hnil2 Happly)|].
    destruct Hpasses as (Hkey & Htype & Hparse). split.
    + intros [Hk|[[name Hn]|[msg Hm]]].
      * contradiction.
      * contradiction (Htype name).
      * congruence.
    + intros Hq Hne. exact (apply_content_explicit _ _ _ _ _ Horder Hne Hq Happly).
Qed.

End ImportantEvents.

Definition test_room (name : option string) (quality : Z) : Room unit unit unit :=
  {| CreationContent := None; EncryptionEvent := None; Name := name;
     NameQuality := quality; CanonicalAlias := None; Avatar := None; Topic := None |}.

Definition test_alias_event : Event unit unit :=
  {| Type_ := StateCanonicalAlias; StateKey := Some EmptyString;
     ParseRaw := Ok (ParsedCanonicalAlias unit unit "#room:example.org") |}.

Lemma processImportantEvent_naming_witness :
  processImportantEvent unit unit (fun _ => EmptyString) unit (fun _ => tt) 0 2 3
    test_alias_event (test_room None 0) (test_room (Some "Project"%string) 3) =
  Returns (false,
           {| CreationContent := None; EncryptionEvent := None;
              Name := Some "Project"%string; NameQuality := 3;
              CanonicalAlias := Some "#room:example.org"%string;
              Avatar := None; Topic := None |}).
Proof.
  pose proof (processImportantEvent_naming unit unit (fun _ => EmptyString) unit
                (fun _ => tt) 0 2 3 test_alias_event (test_room None 0)
                (test_room (Some "Project"%string) 3)
                ltac:(lia) ltac:(lia) ltac:(lia)) as Hthm.
  destruct (processImportantEvent unit unit (fun _ => EmptyString) unit (fun _ => tt)
              0 2 3 test_alias_event (test_room None 0)
              (test_room (Some "Project"%string) 3)) as [[changed room']|] eqn:Hrun;
    [|vm_compute in Hrun; discriminate].
  destruct Hthm as (-> & _ & _ & Hkeep).
  vm_compute in Hrun. injection Hrun as <-. reflexivity.
Defined.

End ImportantEvents.
